(** * rflect-common: string helpers and the viewport size monitor

    A shallow embedding of [src/string/string.js] (module [rflect.string])
    and of the viewport size monitor ([rflect.dom.ViewportSizeMonitor]),
    together with the properties of both that the specification states.

    JavaScript strings are lists of characters, JavaScript objects live in
    explicit heaps and every function that touches the heap, the host or the
    [goog] globals takes the world and returns the new one. *)

From Stdlib Require Import ZArith NArith List String Ascii Bool Lia.
From stdpp Require Import base option list gmap.
Import ListNotations.

Local Open Scope nat_scope.

(* ===================================================================== *)
(** * rflect.string *)
(* ===================================================================== *)

Module rflect_string.

(** A JavaScript string: the sequence of its characters. *)
Definition JsString := list ascii.

(** String literals of the examples. *)
Definition js (s : string) : JsString := list_ascii_of_string s.

(** The numbers these functions return: [NaN], or the non-negative integer
    a run of decimal digits denotes.  The embedding identifies the number
    with that integer, which is exact below 2^53, hence for every run of at
    most fifteen digits. *)
Inductive JsNumber : Type :=
  | NaN
  | Num (n : N).

(** The outcome of a call that may throw: [new RegExp] raises a
    [SyntaxError] on a malformed pattern. *)
Inductive Completion (A : Type) : Type :=
  | Normal (a : A)
  | SyntaxError.
Arguments Normal {A} a.
Arguments SyntaxError {A}.

(** The character class [\d]: the ten ASCII digits. *)
Definition is_digit (c : ascii) : bool :=
  (48 <=? nat_of_ascii c) && (nat_of_ascii c <=? 57).

Definition digit_value (c : ascii) : N := N.of_nat (nat_of_ascii c - 48).

(** Unary plus applied to a string of decimal digits. *)
Definition to_number (ds : JsString) : N :=
  fold_left (fun acc c => (10 * acc + digit_value c)%N) ds 0%N.

(** The quantifier that follows [\d] in the pattern [getNumericIndex]
    builds: [+], or [{1,opt_base}]. *)
Inductive Quantifier : Type :=
  | Plus
  | Range (lo hi : nat).

(** [new RegExp('\\d' + reStr)]: a range whose bounds are out of order is
    rejected when the pattern is compiled. *)
Definition RegExp (q : Quantifier) : Completion Quantifier :=
  match q with
  | Plus => Normal Plus
  | Range lo hi => if hi <? lo then SyntaxError else Normal q
  end.

(** The longest run of digits at the head of [s], of at most [fuel]
    characters: quantifiers are greedy. *)
Fixpoint take_digits (fuel : nat) (s : JsString) : JsString :=
  match fuel, s with
  | S fuel', c :: s' => if is_digit c then c :: take_digits fuel' s' else []
  | _, _ => []
  end.

(** The match of [\d] under quantifier [q] anchored at the head of [s]. *)
Definition match_here (q : Quantifier) (s : JsString) : option JsString :=
  match q with
  | Plus =>
      let m := take_digits (length s) s in
      if 1 <=? length m then Some m else None
  | Range lo hi =>
      let m := take_digits hi s in
      if lo <=? length m then Some m else None
  end.

(** [re.exec(aId)] for a pattern without the global flag: the match at the
    leftmost position that has one; [matches[0]] is returned, [None] stands
    for [null]. *)
Fixpoint exec (q : Quantifier) (s : JsString) : option JsString :=
  match match_here q s with
  | Some m => Some m
  | None =>
      match s with
      | [] => None
      | _ :: s' => exec q s'
      end
  end.

(** How a width reads once ['{1,' + opt_base + '}'] has turned it into
    text.  JavaScript prints a non-negative integer below 10^21 with its
    decimal digits, and the braces then form a quantifier; from 10^21 on
    it prints the number in exponent notation (1e+21), and the braces are
    no quantifier but characters that stand for themselves. *)
Definition prints_in_digits (base : nat) : bool :=
  (N.of_nat base <? 10 ^ 21)%N.

(** [rflect.string.getNumericIndex] (string.js, lines 60-65).  [opt_base]
    is [None] when the argument is omitted, and a non-negative integer
    otherwise.  When the braces are no quantifier, every match of the
    pattern contains a brace; unary plus gives [NaN] for such a string, as
    the function does without a match, so the result is [NaN] on every
    string. *)
Definition getNumericIndex (aId : JsString) (opt_base : option nat)
  : Completion JsNumber :=
  let reStr := match opt_base with
               | Some base => Range 1 base
               | None => Plus
               end in
  let quantified := match opt_base with
                    | Some base => prints_in_digits base
                    | None => true
                    end in
  if quantified then
    match RegExp reStr with
    | SyntaxError => SyntaxError
    | Normal re =>
        let matches := exec re aId in
        Normal (match matches with
                | Some m0 => Num (to_number m0)
                | None => NaN
                end)
    end
  else Normal NaN.

(** [rflect.string.get2DigitIndex] (string.js, lines 72-74). *)
Definition get2DigitIndex (aId : JsString) : Completion JsNumber :=
  getNumericIndex aId (Some 2).

(** [String.prototype.substring(start)] with [end] omitted: both bounds are
    clamped to [0 .. length] and swapped when out of order. *)
Definition substring (s : JsString) (start : Z) : JsString :=
  let len := Z.of_nat (length s) in
  let finalStart := Z.min (Z.max start 0) len in
  let finalEnd := Z.min (Z.max len 0) len in
  let from := Z.min finalStart finalEnd in
  let to := Z.max finalStart finalEnd in
  take (Z.to_nat (to - from)) (drop (Z.to_nat from) s).

(** [rflect.string.getIdWithoutPrefix] (string.js, lines 102-104). *)
Definition getIdWithoutPrefix (aStr aPrefix : JsString) : JsString :=
  substring aStr (Z.of_nat (length aPrefix)).

(** Whether [s] begins with a digit. *)
Definition starts_with_digit (s : JsString) : bool :=
  match s with
  | c :: _ => is_digit c
  | [] => false
  end.

Definition no_digit (s : JsString) : bool :=
  forallb (fun c => negb (is_digit c)) s.

(** What [getNumericIndex] computes for width [base]: [NaN] on a string
    without digits; otherwise the string is a digit-free part [pre], then
    the digits [ds] whose number is returned, at most [base] of them, then
    a [rest] that is reached because the width is used up or because it
    does not begin with a digit. *)
Definition leftmost_run
    (base : nat) (aId : JsString) (r : Completion JsNumber) : Prop :=
  (no_digit aId = true /\ r = Normal NaN)
  \/ exists pre ds rest,
       aId = pre ++ ds ++ rest
       /\ no_digit pre = true
       /\ forallb is_digit ds = true
       /\ 1 <= length ds <= base
       /\ (length ds = base \/ starts_with_digit rest = false)
       /\ r = Normal (Num (to_number ds)).

(** ** The specification's reading of [getNumericIndex] *)

(** The numeric suffix of width [k] of [s], as the specification words it:
    the last [k] characters of [s], when [s] has that many and they are all
    digits, read as a number. *)
Definition numeric_suffix (k : nat) (s : JsString) : option N :=
  let tail := drop (length s - k) s in
  if (k <=? length s) && (1 <=? k) && forallb is_digit tail
  then Some (to_number tail) else None.

(** "Extracts a numeric suffix of the given digit-width": the result is the
    number some suffix of at most [w] digits denotes. *)
Definition extracts_numeric_suffix
    (w : nat) (aId : JsString) (r : Completion JsNumber) : Prop :=
  exists k n, 1 <= k <= w /\ numeric_suffix k aId = Some n /\ r = Normal (Num n).

(** ** The other functions of string.js *)

(** [BEGINNING_OF_CLASS_RE] and [END_OF_CLASS_RE] (lines 21 and 29): the
    JavaScript literals denote these six characters each. *)
Definition BEGINNING_OF_CLASS_RE : JsString := js "(\s|^)".
Definition END_OF_CLASS_RE : JsString := js "(\s|$)".

Definition in_chars (c : ascii) (cs : JsString) : bool :=
  existsb (Ascii.eqb c) cs.

(** The characters [goog.string.regExpEscape] puts a backslash before. *)
Definition regExp_escaped_chars : JsString := js "-()[]{}+?*.$^|,:#<!\".

(** [goog.string.regExpEscape(s)]: a first pass puts a backslash before
    each of the characters above, a second one replaces the backspace
    character by the four characters of its escape. *)
Definition escape_specials (s : JsString) : JsString :=
  flat_map (fun c => if in_chars c regExp_escaped_chars
                     then ["\"%char; c] else [c]) s.

Definition escape_backspace (s : JsString) : JsString :=
  flat_map (fun c => if Ascii.eqb c "008"%char then js "\x08" else [c]) s.

Definition regExpEscape (s : JsString) : JsString :=
  escape_backspace (escape_specials s).

(** [Array.prototype.join(sep)] on an array of strings. *)
Fixpoint join (sep : JsString) (parts : list JsString) : JsString :=
  match parts with
  | [] => []
  | [p] => p
  | p :: rest => p ++ sep ++ join sep rest
  end.

(** The characters that are syntax in a pattern; a string without them,
    used as a pattern, matches itself and nothing else. *)
Definition regExp_syntax_chars : JsString := js "^$\.*+?()[]{}|".

Definition literal_pattern (s : JsString) : bool :=
  forallb (fun c => negb (in_chars c regExp_syntax_chars)) s.

(** [rflect.string.buildClassNameRe] (lines 38-52).  [DEBUG] is
    [goog.DEBUG] and [var_args] the arguments.  The regular expression
    built is represented by the pattern text handed to [new RegExp].  With
    [goog.DEBUG] on the names are escaped and that text is always a
    pattern.  With [goog.DEBUG] off the names enter the text as they are
    and are read as patterns themselves, so that [new RegExp] may throw;
    the embedding covers that branch for names that are literal patterns
    and answers [None] for the others, which it does not interpret. *)
Definition buildClassNameRe (DEBUG : bool) (var_args : list JsString)
  : option JsString :=
  let buffer := if DEBUG then map regExpEscape var_args else var_args in
  if DEBUG || forallb literal_pattern var_args then
    Some (BEGINNING_OF_CLASS_RE
            ++ join (END_OF_CLASS_RE ++ js "|" ++ BEGINNING_OF_CLASS_RE) buffer
            ++ END_OF_CLASS_RE)
  else None.

(** [String.prototype.substring(start, end)]. *)
Definition substring2 (s : JsString) (start end_ : Z) : JsString :=
  let len := Z.of_nat (length s) in
  let finalStart := Z.min (Z.max start 0) len in
  let finalEnd := Z.min (Z.max end_ 0) len in
  let from := Z.min finalStart finalEnd in
  let to := Z.max finalStart finalEnd in
  take (Z.to_nat (to - from)) (drop (Z.to_nat from) s).

Fixpoint has_prefix (p s : JsString) : bool :=
  match p, s with
  | [], _ => true
  | c :: p', d :: s' => Ascii.eqb c d && has_prefix p' s'
  | _ :: _, [] => false
  end.

(** The match of the literal [p] followed by [\d+], anchored at the head
    of [s]. *)
Definition match_prefix_digits (p s : JsString) : option JsString :=
  if has_prefix p s then
    let ds := take_digits (length s) (drop (length p) s) in
    if 1 <=? length ds then Some (p ++ ds) else None
  else None.

(** [re.exec(aStr)] for that pattern: the leftmost match. *)
Fixpoint exec_prefix_digits (p s : JsString) : option JsString :=
  match match_prefix_digits p s with
  | Some m => Some m
  | None =>
      match s with
      | [] => None
      | _ :: s' => exec_prefix_digits p s'
      end
  end.

(** [rflect.string.getNumericIndexWithoutPrefix] (lines 84-92).  The
    source hands [aPrefix + '\\d+'] to [new RegExp], so the prefix is read
    as a pattern.  The embedding covers the prefixes that are literal
    patterns and answers [None] for the others, which it does not
    interpret. *)
Definition getNumericIndexWithoutPrefix (aStr aPrefix : JsString)
  : option JsNumber :=
  if literal_pattern aPrefix then
    let matches := exec_prefix_digits aPrefix aStr in
    Some (match matches with
          | Some m0 =>
              let len := length m0 in
              Num (to_number
                     (substring2 m0 (Z.of_nat (length aPrefix))
                        (Z.of_nat len)))
          | None => NaN
          end)
  else None.

(** [rflect.string.getVisualThemeClassName] (lines 110-112). *)
Definition getVisualThemeClassName (aThemeName : JsString) : JsString :=
  aThemeName ++ js "-theme".

(** A class name the escape leaves alone. *)
Definition plain_name (s : JsString) : bool :=
  forallb (fun c => negb (in_chars c regExp_escaped_chars)
                    && negb (Ascii.eqb c "008"%char)) s.

End rflect_string.

(* ===================================================================== *)
(** * rflect.dom.ViewportSizeMonitor *)
(* ===================================================================== *)

Module ViewportSizeMonitor.

(** ** Objects *)

(** The identity of a host [Window] object. *)
Abbreviation WindowRef := positive (only parsing).

(** References into the two object heaps: the index at which the object
    was allocated.  Two references are the same object exactly when they
    are equal. *)
Abbreviation SizeRef := nat (only parsing).
Abbreviation MonRef := nat (only parsing).

(** [goog.math.Size]: a mutable pair of numbers. *)
Record Size : Type := mkSize { width : Z; height : Z }.

#[global] Instance Size_eq_dec : EqDecision Size.
Proof. solve_decision. Defined.

(** Three members of [goog.events.EventType]; the monitor listens for and
    dispatches [RESIZE] only. *)
Inductive EventType : Type := CLICK | RESIZE | UNLOAD.

(** A handler registered on a monitor with [goog.events.listen]. *)
Abbreviation Subscriber := nat (only parsing).

(** An instance of [rflect.dom.ViewportSizeMonitor].  [disposed_] is the
    flag of [goog.Disposable] and [subscribers_] the handlers that
    [goog.events.EventTarget] holds for the instance; the other four are
    the fields declared on the prototype (lines 140-165), [None] standing
    for [null]. *)
Record Monitor : Type := mkMonitor {
  disposed_ : bool;
  subscribers_ : list Subscriber;
  listenerKey_ : option positive;
  window : option WindowRef;
  size : option SizeRef;
  windowSizePollInterval : option positive
}.

(** The prototype's defaults, as [goog.events.EventTarget.call(this)]
    leaves a new instance. *)
Definition prototype : Monitor :=
  {| disposed_ := false; subscribers_ := [];
     listenerKey_ := None; window := None; size := None;
     windowSizePollInterval := None |}.

Definition set_disposed_ (v : bool) (m : Monitor) : Monitor :=
  {| disposed_ := v; subscribers_ := subscribers_ m;
     listenerKey_ := listenerKey_ m; window := window m; size := size m;
     windowSizePollInterval := windowSizePollInterval m |}.

Definition set_subscribers_ (v : list Subscriber) (m : Monitor) : Monitor :=
  {| disposed_ := disposed_ m; subscribers_ := v;
     listenerKey_ := listenerKey_ m; window := window m; size := size m;
     windowSizePollInterval := windowSizePollInterval m |}.

Definition set_listenerKey_ (v : option positive) (m : Monitor) : Monitor :=
  {| disposed_ := disposed_ m; subscribers_ := subscribers_ m;
     listenerKey_ := v; window := window m; size := size m;
     windowSizePollInterval := windowSizePollInterval m |}.

Definition set_window (v : option WindowRef) (m : Monitor) : Monitor :=
  {| disposed_ := disposed_ m; subscribers_ := subscribers_ m;
     listenerKey_ := listenerKey_ m; window := v; size := size m;
     windowSizePollInterval := windowSizePollInterval m |}.

Definition set_size (v : option SizeRef) (m : Monitor) : Monitor :=
  {| disposed_ := disposed_ m; subscribers_ := subscribers_ m;
     listenerKey_ := listenerKey_ m; window := window m; size := v;
     windowSizePollInterval := windowSizePollInterval m |}.

Definition set_windowSizePollInterval (v : option positive) (m : Monitor)
  : Monitor :=
  {| disposed_ := disposed_ m; subscribers_ := subscribers_ m;
     listenerKey_ := listenerKey_ m; window := window m; size := size m;
     windowSizePollInterval := v |}.

(** ** The world *)

(** What the code does to its surroundings, newest first in the trace.
    [Handled h target type seen] is one call of a subscribed handler [h]
    during a dispatch: [seen] is the recorded size of the target at that
    moment, which is what the handler gets when it asks the monitor for
    its size. *)
Inductive Effect : Type :=
  | Measured (w : WindowRef)
  | Dispatched (target : MonRef) (type : EventType) (to : list Subscriber)
  | Handled (h : Subscriber) (target : MonRef) (type : EventType)
            (seen : option Size)
  | Listened (key : positive) (src : WindowRef) (type : EventType)
             (handler : MonRef)
  | Unlistened (key : positive)
  | IntervalSet (id : positive) (handler : MonRef) (rate : Z)
  | IntervalCleared (id : positive).

(** The fixed part of the host: the global [window], the flags of
    [goog.userAgent], and the [self] and [top] properties of each window. *)
Record Env : Type := mkEnv {
  global_window : WindowRef;
  WEBKIT : bool;
  WINDOWS : bool;
  OPERA : bool;
  win_self : WindowRef -> WindowRef;
  win_top : WindowRef -> WindowRef
}.

(** The mutable part: the two heaps, the [goog] globals ([goog.getUid]'s
    property on window objects and its counter, the listener table of
    [goog.events]), the class's own registry, the host's viewport sizes and
    timers, and the trace of effects. *)
Record World : Type := mkWorld {
  sizes : list Size;
  monitors : list Monitor;
  uid_ : gmap WindowRef N;
  uidCounter_ : N;
  windowInstanceMap_ : gmap N MonRef;
  listeners_ : gmap positive (WindowRef * EventType * MonRef);
  nextListenerKey : positive;
  viewport : WindowRef -> Size;
  intervals : gmap positive (MonRef * Z);
  nextInterval : positive;
  trace : list Effect
}.

Definition with_sizes (v : list Size) (σ : World) : World :=
  mkWorld v (monitors σ) (uid_ σ) (uidCounter_ σ) (windowInstanceMap_ σ)
    (listeners_ σ) (nextListenerKey σ) (viewport σ) (intervals σ)
    (nextInterval σ) (trace σ).

Definition with_monitors (v : list Monitor) (σ : World) : World :=
  mkWorld (sizes σ) v (uid_ σ) (uidCounter_ σ) (windowInstanceMap_ σ)
    (listeners_ σ) (nextListenerKey σ) (viewport σ) (intervals σ)
    (nextInterval σ) (trace σ).

Definition with_uid (v : gmap WindowRef N) (c : N) (σ : World) : World :=
  mkWorld (sizes σ) (monitors σ) v c (windowInstanceMap_ σ)
    (listeners_ σ) (nextListenerKey σ) (viewport σ) (intervals σ)
    (nextInterval σ) (trace σ).

Definition with_windowInstanceMap_ (v : gmap N MonRef) (σ : World) : World :=
  mkWorld (sizes σ) (monitors σ) (uid_ σ) (uidCounter_ σ) v
    (listeners_ σ) (nextListenerKey σ) (viewport σ) (intervals σ)
    (nextInterval σ) (trace σ).

Definition with_listeners
    (v : gmap positive (WindowRef * EventType * MonRef)) (k : positive)
    (σ : World) : World :=
  mkWorld (sizes σ) (monitors σ) (uid_ σ) (uidCounter_ σ)
    (windowInstanceMap_ σ) v k (viewport σ) (intervals σ)
    (nextInterval σ) (trace σ).

Definition with_viewport (v : WindowRef -> Size) (σ : World) : World :=
  mkWorld (sizes σ) (monitors σ) (uid_ σ) (uidCounter_ σ)
    (windowInstanceMap_ σ) (listeners_ σ) (nextListenerKey σ) v
    (intervals σ) (nextInterval σ) (trace σ).

Definition with_intervals
    (v : gmap positive (MonRef * Z)) (k : positive) (σ : World) : World :=
  mkWorld (sizes σ) (monitors σ) (uid_ σ) (uidCounter_ σ)
    (windowInstanceMap_ σ) (listeners_ σ) (nextListenerKey σ) (viewport σ)
    v k (trace σ).

Definition with_trace (v : list Effect) (σ : World) : World :=
  mkWorld (sizes σ) (monitors σ) (uid_ σ) (uidCounter_ σ)
    (windowInstanceMap_ σ) (listeners_ σ) (nextListenerKey σ) (viewport σ)
    (intervals σ) (nextInterval σ) v.

Definition log (e : Effect) (σ : World) : World :=
  with_trace (e :: trace σ) σ.

(** [new goog.math.Size(...)]: the object is placed at the end of the
    heap, so its reference is new. *)
Definition alloc_size (s : Size) (σ : World) : SizeRef * World :=
  (length (sizes σ), with_sizes (sizes σ ++ [s]) σ).

Definition alloc_monitor (m : Monitor) (σ : World) : MonRef * World :=
  (length (monitors σ), with_monitors (monitors σ ++ [m]) σ).

(** A field assignment [this.f = v]. *)
Definition update (this : MonRef) (f : Monitor -> Monitor) (σ : World)
  : World :=
  with_monitors (alter f this (monitors σ)) σ.

(** A field read [this.f]. *)
Definition field {A : Type} (f : Monitor -> option A) (this : MonRef)
    (σ : World) : option A :=
  monitors σ !! this ≫= f.

(** The [Dispatched] events of a trace: the notifications sent so far. *)
Definition is_notification (e : Effect) : bool :=
  match e with Dispatched _ _ _ => true | _ => false end.

Definition notifications (σ : World) : list Effect :=
  List.filter is_notification (trace σ).

(** The size a reference denotes, and the size a monitor has recorded. *)
Definition size_value (this : MonRef) (σ : World) : option Size :=
  field size this σ ≫= fun r => sizes σ !! r.

(** ** The collaborators from the Closure Library and the host *)

(** [goog.dom.getViewportSize(opt_window)]: a new [goog.math.Size] with the
    current dimensions of the window, the global one when the argument is
    null. *)
Definition getViewportSize (E : Env) (opt_window : option WindowRef)
    (σ : World) : SizeRef * World :=
  let w := default (global_window E) opt_window in
  alloc_size (viewport σ w) (log (Measured w) σ).

(** [goog.math.Size.equals(a, b)]: the same object (or both null), or two
    objects of equal width and equal height. *)
Definition Size_equals (a b : option SizeRef) (σ : World) : bool :=
  if decide (a = b) then true
  else
    match a ≫= (fun r => sizes σ !! r), b ≫= (fun r => sizes σ !! r) with
    | Some x, Some y => (width x =? width y)%Z && (height x =? height y)%Z
    | _, _ => false
    end.

(** [goog.math.Size.prototype.clone]. *)
Definition clone (r : SizeRef) (σ : World) : option SizeRef * World :=
  match sizes σ !! r with
  | Some s =>
      let '(r', σ') := alloc_size (mkSize (width s) (height s)) σ in
      (Some r', σ')
  | None => (None, σ)
  end.

(** [goog.events.listen(src, type, this.handleResize_, false, handler)]:
    the listener is entered in the table under a new key, which is
    returned. *)
Definition listen (src : WindowRef) (type : EventType) (handler : MonRef)
    (σ : World) : positive * World :=
  let key := nextListenerKey σ in
  (key,
   log (Listened key src type handler)
     (with_listeners (<[key := (src, type, handler)]> (listeners_ σ))
        (Pos.succ key) σ)).

(** [goog.events.unlistenByKey(key)]. *)
Definition unlistenByKey (key : positive) (σ : World) : World :=
  log (Unlistened key)
    (with_listeners (delete key (listeners_ σ)) (nextListenerKey σ) σ).

(** [window.setInterval(goog.bind(this.checkForSizeChange, this), rate)]:
    the host hands out a positive handle. *)
Definition setInterval (handler : MonRef) (rate : Z) (σ : World)
  : positive * World :=
  let id := nextInterval σ in
  (id,
   log (IntervalSet id handler rate)
     (with_intervals (<[id := (handler, rate)]> (intervals σ))
        (Pos.succ id) σ)).

(** [window.clearInterval(id)]. *)
Definition clearInterval (id : positive) (σ : World) : World :=
  log (IntervalCleared id)
    (with_intervals (delete id (intervals σ)) (nextInterval σ) σ).

(** [goog.getUid(obj)]:
    [obj[UID_PROPERTY_] || (obj[UID_PROPERTY_] = ++goog.uidCounter_)]. *)
Definition getUid (w : WindowRef) (σ : World) : N * World :=
  let assign :=
    let c := N.succ (uidCounter_ σ) in
    (c, with_uid (<[w := c]> (uid_ σ)) c σ) in
  match uid_ σ !! w with
  | Some u => if (u =? 0)%N then assign else (u, σ)
  | None => assign
  end.

(** [this.dispatchEvent(type)] of [goog.events.EventTarget]: the event goes
    to the handlers subscribed to the instance at that moment; it carries
    its type and its target, nothing else.  The handlers are called one
    after the other, in the order of their subscription, before
    [dispatchEvent] returns; each finds the target in the state the caller
    left it in. *)
Definition dispatchEvent (this : MonRef) (type : EventType) (σ : World)
  : World :=
  let to := default [] (subscribers_ <$> monitors σ !! this) in
  with_trace
    (map (fun h => Handled h this type (size_value this σ)) (rev to)
       ++ Dispatched this type to :: trace σ) σ.

(** [goog.events.listen(monitor, RESIZE, handler)], called by a client: a
    handler that is subscribed already is not entered a second time. *)
Definition add_subscriber (h : Subscriber) (m : Monitor) : Monitor :=
  if decide (h ∈ subscribers_ m) then m
  else set_subscribers_ (subscribers_ m ++ [h]) m.

Definition subscribe (this : MonRef) (h : Subscriber) (σ : World) : World :=
  update this (add_subscriber h) σ.

(** [goog.events.EventTarget.prototype.disposeInternal]: removes every
    handler subscribed to the instance. *)
Definition EventTarget_disposeInternal (this : MonRef) (σ : World) : World :=
  update this (set_subscribers_ []) σ.

(** The host changes the viewport of a window. *)
Definition host_resize (w : WindowRef) (s : Size) (σ : World) : World :=
  with_viewport (fun w' => if decide (w' = w) then s else viewport σ w') σ.

(** ** The class *)

Definition WINDOW_SIZE_POLL_RATE : Z := 500.

(** [isPollingRequired_] (lines 174-177).  [this.window] is read; the only
    caller is the constructor, which has just assigned it a window. *)
Definition isPollingRequired_ (E : Env) (this : MonRef) (σ : World) : bool :=
  WEBKIT E && WINDOWS E ||
  OPERA E &&
    match field window this σ with
    | Some w => negb (bool_decide (win_self E w = win_top E w))
    | None => false
    end.

(** [getSize] (lines 185-188). *)
Definition getSize (this : MonRef) (σ : World) : option SizeRef * World :=
  match field size this σ with
  | Some r => clone r σ
  | None => (None, σ)
  end.

(** [checkForSizeChange] (lines 228-234). *)
Definition checkForSizeChange (E : Env) (this : MonRef) (σ : World) : World :=
  let '(size', σ1) := getViewportSize E (field window this σ) σ in
  if negb (Size_equals (Some size') (field size this σ1) σ1) then
    let σ2 := update this (set_size (Some size')) σ1 in
    dispatchEvent this RESIZE σ2
  else σ1.

(** [handleResize_] (lines 217-219). *)
Definition handleResize_ (E : Env) (this : MonRef) (σ : World) : World :=
  checkForSizeChange E this σ.

(** The constructor (lines 63-81). *)
Definition new_ViewportSizeMonitor (E : Env) (opt_window : option WindowRef)
    (σ : World) : MonRef * World :=
  let '(this, σ) := alloc_monitor prototype σ in
  let σ := update this
             (set_window (Some (default (global_window E) opt_window))) σ in
  let '(key, σ) :=
    match field window this σ with
    | Some w => let '(k, σ') := listen w RESIZE this σ in (Some k, σ')
    | None => (None, σ)
    end in
  let σ := update this (set_listenerKey_ key) σ in
  let '(sz, σ) := getViewportSize E (field window this σ) σ in
  let σ := update this (set_size (Some sz)) σ in
  if isPollingRequired_ E this σ then
    let '(id, σ) := setInterval this WINDOW_SIZE_POLL_RATE σ in
    (this, update this (set_windowSizePollInterval (Some id)) σ)
  else (this, σ).

(** [disposeInternal] (lines 192-207). *)
Definition disposeInternal (this : MonRef) (σ : World) : World :=
  let σ := EventTarget_disposeInternal this σ in
  let σ :=
    match field listenerKey_ this σ with
    | Some key => update this (set_listenerKey_ None) (unlistenByKey key σ)
    | None => σ
    end in
  let σ :=
    match field windowSizePollInterval this σ with
    | Some id =>
        update this (set_windowSizePollInterval None) (clearInterval id σ)
    | None => σ
    end in
  let σ := update this (set_window None) σ in
  update this (set_size None) σ.

(** [goog.Disposable.prototype.dispose]:
    [if (!this.disposed_) { this.disposed_ = true; this.disposeInternal(); }] *)
Definition dispose (this : MonRef) (σ : World) : World :=
  match monitors σ !! this with
  | Some m =>
      if disposed_ m then σ
      else disposeInternal this (update this (set_disposed_ true) σ)
  | None => σ
  end.

(** [goog.dispose(obj)]: disposes [obj] unless it is undefined. *)
Definition goog_dispose (obj : option MonRef) (σ : World) : World :=
  match obj with
  | Some m => dispose m σ
  | None => σ
  end.

(** [getInstanceForWindow] (lines 93-100). *)
Definition getInstanceForWindow (E : Env) (opt_window : option WindowRef)
    (σ : World) : MonRef * World :=
  let currentWindow := default (global_window E) opt_window in
  let '(uid, σ) := getUid currentWindow σ in
  let '(inst, σ) :=
    match windowInstanceMap_ σ !! uid with
    | Some m => (m, σ)
    | None => new_ViewportSizeMonitor E (Some currentWindow) σ
    end in
  (inst, with_windowInstanceMap_ (<[uid := inst]> (windowInstanceMap_ σ)) σ).

(** [removeInstanceForWindow] (lines 109-114). *)
Definition removeInstanceForWindow (E : Env) (opt_window : option WindowRef)
    (σ : World) : World :=
  let '(uid, σ) := getUid (default (global_window E) opt_window) σ in
  let σ := goog_dispose (windowInstanceMap_ σ !! uid) σ in
  with_windowInstanceMap_ (delete uid (windowInstanceMap_ σ)) σ.

(** ** The host's callbacks *)

(** The host delivers a native event to the listener registered under
    [key]; a key that is no longer in the table receives nothing. *)
Definition deliver (E : Env) (key : positive) (σ : World) : World :=
  match listeners_ σ !! key with
  | Some (_, _, handler) => handleResize_ E handler σ
  | None => σ
  end.

(** The timer [id] fires; a cleared timer does not. *)
Definition tick (E : Env) (id : positive) (σ : World) : World :=
  match intervals σ !! id with
  | Some (handler, _) => checkForSizeChange E handler σ
  | None => σ
  end.

(** [n] firings of timer [id] in a row. *)
Fixpoint ticks (E : Env) (id : positive) (n : nat) (σ : World) : World :=
  match n with
  | O => σ
  | S n' => ticks E id n' (tick E id σ)
  end.

(** A run of checks: before each one the host sets the viewport of [w] to
    the next size of the list. *)
Fixpoint checks (E : Env) (this : MonRef) (w : WindowRef) (ms : list Size)
    (σ : World) : World :=
  match ms with
  | [] => σ
  | s :: ms' => checks E this w ms' (checkForSizeChange E this (host_resize w s σ))
  end.

(** A page before any of this code has run: empty heaps and tables, every
    viewport [dims]. *)
Definition initial (dims : Size) : World :=
  {| sizes := []; monitors := []; uid_ := ∅; uidCounter_ := 0%N;
     windowInstanceMap_ := ∅; listeners_ := ∅; nextListenerKey := 1%positive;
     viewport := fun _ => dims; intervals := ∅; nextInterval := 1%positive;
     trace := [] |}.

(** ** Clients and histories *)

(** The world after a measurement of window [w]. *)
Definition measured (w : WindowRef) (σ : World) : World :=
  with_sizes (sizes σ ++ [viewport σ w]) (log (Measured w) σ).

(** A client writes into a [goog.math.Size] object it holds. *)
Definition write_size (r : SizeRef) (v : Size) (σ : World) : World :=
  with_sizes (<[r := v]> (sizes σ)) σ.

(** The value of the object [getSize] returns. *)
Definition getSize_value (this : MonRef) (σ : World) : option Size :=
  let '(o, σ') := getSize this σ in
  o ≫= fun r => sizes σ' !! r.

(** Whether the viewport has been measured at all so far. *)
Definition is_measurement (e : Effect) : bool :=
  match e with Measured _ => true | _ => false end.

Definition ever_measured (σ : World) : bool :=
  existsb is_measurement (trace σ).

(** The specification's reading of the absent result of [getSize]: absent
    exactly when no measurement has ever been taken. *)
Definition absent_iff_never_measured (this : MonRef) (σ : World) : Prop :=
  fst (getSize this σ) = None <-> ever_measured σ = false.

(** Everything that can happen on a page: calls of the public functions
    and methods, and the host's own moves. *)
Inductive Action : Type :=
  | GetInstanceForWindow (opt_window : option WindowRef)
  | RemoveInstanceForWindow (opt_window : option WindowRef)
  | New (opt_window : option WindowRef)
  | Dispose (this : MonRef)
  | CheckForSizeChange (this : MonRef)
  | GetSize (this : MonRef)
  | Subscribe (this : MonRef) (h : Subscriber)
  | WriteSize (r : SizeRef) (v : Size)
  | HostResize (w : WindowRef) (s : Size)
  | Deliver (key : positive)
  | Tick (id : positive).

Definition step (E : Env) (a : Action) (σ : World) : World :=
  match a with
  | GetInstanceForWindow ow => snd (getInstanceForWindow E ow σ)
  | RemoveInstanceForWindow ow => removeInstanceForWindow E ow σ
  | New ow => snd (new_ViewportSizeMonitor E ow σ)
  | Dispose this => dispose this σ
  | CheckForSizeChange this => checkForSizeChange E this σ
  | GetSize this => snd (getSize this σ)
  | Subscribe this h => subscribe this h σ
  | WriteSize r v => write_size r v σ
  | HostResize w s => host_resize w s σ
  | Deliver key => deliver E key σ
  | Tick id => tick E id σ
  end.

Definition run (E : Env) (acts : list Action) (σ : World) : World :=
  fold_left (fun σ a => step E a σ) acts σ.

(** The worlds a page can be in. *)
Definition reachable (E : Env) (σ : World) : Prop :=
  exists dims acts, σ = run E acts (initial dims).

(** Whether an action is a call of [removeInstanceForWindow] for the
    window [w]. *)
Definition removes_window (E : Env) (w : WindowRef) (a : Action) : bool :=
  match a with
  | RemoveInstanceForWindow ow => bool_decide (default (global_window E) ow = w)
  | _ => false
  end.

(** The registry invariant: uids are positive, bounded by the counter and
    distinct for distinct windows; the registry holds allocated monitors,
    no monitor under two uids, and a registered monitor that still has its
    window is registered under that window's uid. *)
Record registry_ok (σ : World) : Prop := mkRegistryOk {
  uid_bounds : forall w u,
    uid_ σ !! w = Some u -> (0 < u <= uidCounter_ σ)%N;
  uid_inj : forall w1 w2 u,
    uid_ σ !! w1 = Some u -> uid_ σ !! w2 = Some u -> w1 = w2;
  reg_alloc : forall u i,
    windowInstanceMap_ σ !! u = Some i -> i < length (monitors σ);
  reg_inj : forall u1 u2 i,
    windowInstanceMap_ σ !! u1 = Some i ->
    windowInstanceMap_ σ !! u2 = Some i -> u1 = u2;
  reg_window : forall u i m w,
    windowInstanceMap_ σ !! u = Some i -> monitors σ !! i = Some m ->
    window m = Some w -> uid_ σ !! w = Some u
}.

(** What no method of a monitor and no move of the host does: [σ'] has the
    uids and the registry of [σ], every monitor of [σ] is still there, and
    each still watches the window it watched, or none. *)
Record keeps_registry (σ σ' : World) : Prop := mkKeepsRegistry {
  keeps_uid : uid_ σ' = uid_ σ;
  keeps_uidCounter : uidCounter_ σ' = uidCounter_ σ;
  keeps_map : windowInstanceMap_ σ' = windowInstanceMap_ σ;
  keeps_length : length (monitors σ) <= length (monitors σ');
  keeps_window : forall i m',
    i < length (monitors σ) -> monitors σ' !! i = Some m' ->
    exists m, monitors σ !! i = Some m
              /\ (window m' = window m \/ window m' = None)
}.

(** Two worlds that differ at most in the uids given to windows. *)
Definition same_but_uids (σ σ' : World) : Prop :=
  σ' = with_uid (uid_ σ') (uidCounter_ σ') σ.

(** A page with one window of 1024 by 768, in a browser that needs no
    polling, and one in a browser that does. *)
Definition plain_env : Env :=
  mkEnv 1%positive false false false (fun w => w) (fun w => w).

Definition polling_env : Env :=
  mkEnv 1%positive true true false (fun w => w) (fun w => w).

Definition page : World := initial (mkSize 1024 768).

(** ** Counting changes *)

(** The number of sizes in a run of measurements that differ from the one
    before, the first being compared with [s]. *)
Fixpoint changes (s : Size) (ms : list Size) : nat :=
  match ms with
  | [] => 0
  | x :: ms' => (if decide (x = s) then 0 else 1) + changes x ms'
  end.

(** ** Monitors and the host's tables *)

(** What holds between the monitors and the host in every world a page
    can be in: keys and timer handles in use are below the next one to be
    handed out; an undisposed monitor has a window, a recorded size that
    is an allocated object, and a listener key under which the table holds
    a [RESIZE] listener on that window for it; its timer, if it has one,
    is in the host's table with the poll rate; and every listener and
    every timer belongs to an undisposed monitor that holds its key. *)
Record monitors_ok (σ : World) : Prop := mkMonitorsOk {
  keys_below : forall key e,
    listeners_ σ !! key = Some e -> (key < nextListenerKey σ)%positive;
  timers_below : forall id e,
    intervals σ !! id = Some e -> (id < nextInterval σ)%positive;
  live_fields : forall i m,
    monitors σ !! i = Some m -> disposed_ m = false ->
    exists w r key,
      window m = Some w /\ size m = Some r /\ r < length (sizes σ)
      /\ listenerKey_ m = Some key
      /\ listeners_ σ !! key = Some (w, RESIZE, i);
  live_timer : forall i m id,
    monitors σ !! i = Some m -> disposed_ m = false ->
    windowSizePollInterval m = Some id ->
    intervals σ !! id = Some (i, WINDOW_SIZE_POLL_RATE);
  listener_owner : forall key w ty i,
    listeners_ σ !! key = Some (w, ty, i) ->
    exists m, monitors σ !! i = Some m /\ disposed_ m = false
              /\ listenerKey_ m = Some key;
  timer_owner : forall id i rate,
    intervals σ !! id = Some (i, rate) ->
    exists m, monitors σ !! i = Some m /\ disposed_ m = false
              /\ windowSizePollInterval m = Some id
}.

(** A trace in which every dispatched event is a [RESIZE] event and comes
    right after a measurement (the trace is newest first, so the
    measurement is the next entry). *)
Fixpoint dispatches_follow_measurements (t : list Effect) : bool :=
  match t with
  | [] => true
  | Dispatched _ type _ :: rest =>
      match type, rest with
      | RESIZE, Measured _ :: _ => dispatches_follow_measurements rest
      | _, _ => false
      end
  | _ :: rest => dispatches_follow_measurements rest
  end.

End ViewportSizeMonitor.

(* ===================================================================== *)
(** * Properties of rflect.string *)
(* ===================================================================== *)

Module StringProps.
Import rflect_string.

Example getIdWithoutPrefix_matching :
  getIdWithoutPrefix (js "cell-12") (js "cell-") = js "12".
Proof. reflexivity. Qed.

Example getIdWithoutPrefix_not_matching :
  getIdWithoutPrefix (js "item-42") (js "cell-") = js "42".
Proof. reflexivity. Qed.

Example get2DigitIndex_three_digits :
  get2DigitIndex (js "x123") = Normal (Num 12).
Proof. reflexivity. Qed.

Example getNumericIndex_zero_width :
  getNumericIndex (js "x123") (Some 0) = SyntaxError.
Proof. reflexivity. Qed.

Lemma substring_drop (s : JsString) (n : nat) :
  substring s (Z.of_nat n) = drop n s.
Proof.
  unfold substring.
  set (len := Z.of_nat (length s)).
  assert (Hlen : (0 <= len)%Z) by (subst len; lia).
  destruct (Z_le_gt_dec (Z.of_nat n) len) as [Hle | Hgt].
  - replace (Z.min (Z.max (Z.of_nat n) 0) len) with (Z.of_nat n) by lia.
    replace (Z.min (Z.max len 0) len) with len by lia.
    replace (Z.min (Z.of_nat n) len) with (Z.of_nat n) by lia.
    replace (Z.max (Z.of_nat n) len) with len by lia.
    rewrite Nat2Z.id.
    apply take_ge. rewrite length_drop. subst len. lia.
  - replace (Z.min (Z.max (Z.of_nat n) 0) len) with len by lia.
    replace (Z.min (Z.max len 0) len) with len by lia.
    rewrite Z.min_id, Z.max_id, Z.sub_diag. simpl.
    symmetry. apply drop_ge. subst len. lia.
Qed.

(** C10.  [getIdWithoutPrefix aStr aPrefix] is [aStr] without its first
    [length aPrefix] characters, whatever those characters are: the result
    depends on the prefix through its length only, the dropped characters
    followed by the result give back [aStr], and a string no longer than
    the prefix yields the empty string. *)
Theorem getIdWithoutPrefix_drops_length (aStr aPrefix : JsString) :
  getIdWithoutPrefix aStr aPrefix = drop (length aPrefix) aStr
  /\ take (length aPrefix) aStr ++ getIdWithoutPrefix aStr aPrefix = aStr
  /\ length (getIdWithoutPrefix aStr aPrefix) = length aStr - length aPrefix
  /\ (forall p' : JsString, length p' = length aPrefix ->
        getIdWithoutPrefix aStr p' = getIdWithoutPrefix aStr aPrefix)
  /\ (length aStr <= length aPrefix -> getIdWithoutPrefix aStr aPrefix = []).
Proof.
  unfold getIdWithoutPrefix.
  rewrite substring_drop.
  repeat split.
  - apply take_drop.
  - apply length_drop.
  - intros p' Hp'. rewrite substring_drop. by rewrite Hp'.
  - intros Hle. by apply drop_ge.
Qed.

Lemma getIdWithoutPrefix_drops_length_witness :
  getIdWithoutPrefix (js "ab") (js "xyz-") = [] /\
  getIdWithoutPrefix (js "item-42") (js "xxxxx") =
    getIdWithoutPrefix (js "item-42") (js "cell-").
Proof.
  split.
  - apply (getIdWithoutPrefix_drops_length (js "ab") (js "xyz-")).
    simpl. lia.
  - apply (getIdWithoutPrefix_drops_length (js "item-42") (js "cell-")).
    reflexivity.
Defined.

(** The greedy run: a prefix of the string, made of digits, no longer than
    the bound, and stopped either by the bound or by a character that is
    not a digit (or the end of the string). *)
Lemma take_digits_spec (n : nat) (s : JsString) :
  exists rest,
    s = take_digits n s ++ rest
    /\ forallb is_digit (take_digits n s) = true
    /\ length (take_digits n s) <= n
    /\ (length (take_digits n s) = n \/ starts_with_digit rest = false).
Proof.
  revert s. induction n as [| n IH]; intros s.
  - exists s. destruct s; simpl; repeat split; auto.
  - destruct s as [| c s'].
    + exists []. simpl. repeat split; auto with lia.
    + simpl. destruct (is_digit c) eqn:Hc.
      * destruct (IH s') as (rest & Heq & Hall & Hlen & Hstop).
        exists rest. simpl. rewrite Hc, Hall.
        repeat split; [congruence | lia |].
        destruct Hstop; [left; lia | by right].
      * exists (c :: s'). simpl. rewrite Hc. repeat split; auto with lia.
Qed.

(** [exec] on the pattern [\d{1,base}]: either the string has no digit, or
    it splits at its first digit into a digit-free part, the run matched,
    and the rest. *)
Lemma exec_range_spec (base : nat) (s : JsString) :
  1 <= base ->
  (no_digit s = true /\ exec (Range 1 base) s = None)
  \/ exists pre ds rest,
       s = pre ++ ds ++ rest
       /\ no_digit pre = true
       /\ forallb is_digit ds = true
       /\ 1 <= length ds <= base
       /\ (length ds = base \/ starts_with_digit rest = false)
       /\ exec (Range 1 base) s = Some ds.
Proof.
  intros Hbase. induction s as [| c s' IH].
  - left. split; [reflexivity |].
    simpl. destruct base; [lia | reflexivity].
  - destruct (is_digit c) eqn:Hc.
    + right.
      destruct (take_digits_spec base (c :: s')) as (rest & Heq & Hall & Hlen & Hstop).
      exists [], (take_digits base (c :: s')), rest.
      assert (Hpos : 1 <= length (take_digits base (c :: s'))).
      { destruct base; [lia |]. simpl. rewrite Hc. simpl. lia. }
      repeat split; auto.
      unfold exec; fold exec. unfold match_here.
      destruct (1 <=? length (take_digits base (c :: s'))) eqn:Hl; [done |].
      apply Nat.leb_gt in Hl. lia.
    + assert (Hnone : match_here (Range 1 base) (c :: s') = None).
      { unfold match_here. destruct base; [lia |]. simpl. by rewrite Hc. }
      destruct IH as [[Hno Hex] | (pre & ds & rest & Heq & Hpre & Hds & Hlen & Hstop & Hex)].
      * left. split.
        -- unfold no_digit in *. simpl. by rewrite Hc, Hno.
        -- unfold exec; fold exec. by rewrite Hnone.
      * right. exists (c :: pre), ds, rest.
        repeat split; try tauto; try lia.
        -- simpl. by rewrite Heq.
        -- unfold no_digit in *. simpl. by rewrite Hc, Hpre.
        -- unfold exec; fold exec. by rewrite Hnone.
Qed.

Lemma prints_in_digits_iff (base : nat) :
  prints_in_digits base = true <-> (N.of_nat base < 10 ^ 21)%N.
Proof. unfold prints_in_digits. apply N.ltb_lt. Qed.

Lemma prints_in_digits_small (base : nat) :
  base <= 15 -> prints_in_digits base = true.
Proof.
  intros H. apply prints_in_digits_iff.
  assert (Hpow : (10 ^ 21 = 1000000000000000000000)%N) by reflexivity.
  rewrite Hpow. lia.
Qed.

(** With a width that prints in digits the pattern is [\d{1,base}]. *)
Lemma getNumericIndex_quantified (aId : JsString) (base : nat) :
  prints_in_digits base = true ->
  getNumericIndex aId (Some base)
  = match RegExp (Range 1 base) with
    | SyntaxError => SyntaxError
    | Normal re =>
        Normal (match exec re aId with
                | Some m0 => Num (to_number m0)
                | None => NaN
                end)
    end.
Proof. intros H. unfold getNumericIndex. by rewrite H. Qed.

(** C9, as the code has it, for every width.  With width zero the call
    throws.  For a width from one up to, but not including, 10^21,
    [getNumericIndex] returns [NaN] when the string has no digit;
    otherwise the string splits into a digit-free part, the leftmost run
    of digits cut after [base] digits, and a rest, and the result is a
    number, the one those digits write when they are at most fifteen,
    which is as many as a JavaScript number holds exactly.  So for a
    width between one and fifteen the result is the number the run
    writes, and [get2DigitIndex] does so with width two.  From 10^21 on
    the result is [NaN] on every string. *)
Theorem getNumericIndex_leftmost_run (aId : JsString) (base : nat) :
  (1 <= base <= 15 ->
     leftmost_run base aId (getNumericIndex aId (Some base)))
  /\ leftmost_run 2 aId (get2DigitIndex aId)
  /\ getNumericIndex aId (Some 0) = SyntaxError
  /\ (1 <= base -> (N.of_nat base < 10 ^ 21)%N ->
        (no_digit aId = true
         /\ getNumericIndex aId (Some base) = Normal NaN)
        \/ exists pre ds rest,
             aId = pre ++ ds ++ rest
             /\ no_digit pre = true
             /\ forallb is_digit ds = true
             /\ 1 <= length ds <= base
             /\ (length ds = base \/ starts_with_digit rest = false)
             /\ getNumericIndex aId (Some base) <> Normal NaN
             /\ getNumericIndex aId (Some base) <> SyntaxError
             /\ (length ds <= 15 ->
                   getNumericIndex aId (Some base)
                   = Normal (Num (to_number ds))))
  /\ ((10 ^ 21 <= N.of_nat base)%N ->
        getNumericIndex aId (Some base) = Normal NaN).
Proof.
  assert (Hrun : forall b, 1 <= b -> (N.of_nat b < 10 ^ 21)%N ->
            leftmost_run b aId (getNumericIndex aId (Some b))).
  { intros b Hb Hb'. unfold leftmost_run.
    rewrite getNumericIndex_quantified by (by apply prints_in_digits_iff).
    unfold RegExp.
    destruct (b <? 1) eqn:Hlt; [apply Nat.ltb_lt in Hlt; lia |].
    destruct (exec_range_spec b aId Hb)
      as [[Hno Hex] | (pre & ds & rest & Heq & Hpre & Hds & Hlen & Hstop & Hex)].
    - left. by rewrite Hex.
    - right. exists pre, ds, rest. by rewrite Hex. }
  assert (Hgen : forall b, 1 <= b <= 15 ->
            leftmost_run b aId (getNumericIndex aId (Some b))).
  { intros b [Hb Hb']. apply Hrun; [done |].
    by apply prints_in_digits_iff, prints_in_digits_small. }
  split; [by apply Hgen |]. split; [unfold get2DigitIndex; apply Hgen; lia |].
  split; [reflexivity |]. split.
  - intros Hb Hb'.
    destruct (Hrun base Hb Hb')
      as [[Hno Hr] | (pre & ds & rest & Heq & Hpre & Hds & Hlen & Hstop & Hr)].
    + by left.
    + right. exists pre, ds, rest. rewrite Hr.
      split; [exact Heq |]. split; [exact Hpre |]. split; [exact Hds |].
      split; [exact Hlen |]. split; [exact Hstop |].
      split; [discriminate |]. split; [discriminate | done].
  - intros Hbig. unfold getNumericIndex.
    assert (Hp : prints_in_digits base = false).
    { unfold prints_in_digits. by apply N.ltb_ge. }
    by rewrite Hp.
Qed.

Lemma getNumericIndex_leftmost_run_witness :
  leftmost_run 2 (js "x123") (getNumericIndex (js "x123") (Some 2))
  /\ leftmost_run 2 (js "x123") (get2DigitIndex (js "x123"))
  /\ getNumericIndex (js "x123") (Some 0) = SyntaxError
  /\ getNumericIndex (js "x123") (Some 2) <> Normal NaN.
Proof.
  destruct (getNumericIndex_leftmost_run (js "x123") 2)
    as (Hrun & H2 & H0 & Hany & _).
  split; [apply Hrun; lia |]. split; [exact H2 |]. split; [exact H0 |].
  assert (Hlo : 1 <= 2) by lia.
  assert (Hhi : (N.of_nat 2 < 10 ^ 21)%N) by reflexivity.
  destruct (Hany Hlo Hhi)
    as [[Hno _] | (pre & ds & rest & _ & _ & _ & _ & _ & Hn & _)].
  - vm_compute in Hno. discriminate.
  - exact Hn.
Defined.

(** C9, as the specification has it, fails: on ["x123"] the two-digit
    variant returns 12, and neither the one-character suffix (3) nor the
    two-character suffix (23) of the string denotes that number. *)
Lemma get2DigitIndex_not_a_suffix :
  ~ extracts_numeric_suffix 2 (js "x123") (get2DigitIndex (js "x123")).
Proof.
  intros (k & n & Hk & Hsuf & Hres).
  assert (Hn : n = 12%N) by (vm_compute in Hres; congruence).
  subst n.
  assert (Hcases : k = 1 \/ k = 2) by lia.
  destruct Hcases as [-> | ->]; vm_compute in Hsuf; congruence.
Qed.

(** ** Further properties of [getNumericIndex] *)

Lemma no_digit_app (a b : JsString) :
  no_digit (a ++ b) = no_digit a && no_digit b.
Proof. unfold no_digit. apply forallb_app. Qed.

Lemma digits_not_no_digit (ds : JsString) :
  forallb is_digit ds = true -> 1 <= length ds -> no_digit ds = false.
Proof.
  destruct ds as [| c ds]; simpl; [lia |].
  intros Hd _. apply andb_true_iff in Hd as [Hc _].
  unfold no_digit. simpl. by rewrite Hc.
Qed.

(** [exec] on the pattern [\d+]. *)
Lemma exec_plus_spec (s : JsString) :
  (no_digit s = true /\ exec Plus s = None)
  \/ exists pre ds rest,
       s = pre ++ ds ++ rest
       /\ no_digit pre = true
       /\ forallb is_digit ds = true
       /\ 1 <= length ds
       /\ starts_with_digit rest = false
       /\ exec Plus s = Some ds.
Proof.
  induction s as [| c s' IH].
  - left. by split.
  - destruct (is_digit c) eqn:Hc.
    + right.
      destruct (take_digits_spec (length (c :: s')) (c :: s'))
        as (rest & Heq & Hall & Hlen & Hstop).
      exists [], (take_digits (length (c :: s')) (c :: s')), rest.
      assert (Hpos : 1 <= length (take_digits (length (c :: s')) (c :: s'))).
      { simpl. rewrite Hc. simpl. lia. }
      repeat split; auto.
      * destruct Hstop as [Hfull | Hstop]; [| done].
        apply (f_equal (@length ascii)) in Heq.
        rewrite length_app, Hfull in Heq.
        destruct rest as [| d rest]; [done |].
        rewrite !length_cons in Heq. lia.
      * unfold exec; fold exec. unfold match_here.
        destruct (1 <=? _) eqn:Hl; [done |].
        apply Nat.leb_gt in Hl. lia.
    + assert (Hnone : match_here Plus (c :: s') = None).
      { unfold match_here. simpl. by rewrite Hc. }
      destruct IH as [[Hno Hex] | (pre & ds & rest & Heq & Hpre & Hds & Hlen & Hstop & Hex)].
      * left. split.
        -- unfold no_digit in *. simpl. by rewrite Hc, Hno.
        -- unfold exec; fold exec. by rewrite Hnone.
      * right. exists (c :: pre), ds, rest.
        repeat split; try tauto; try lia.
        -- simpl. by rewrite Heq.
        -- unfold no_digit in *. simpl. by rewrite Hc, Hpre.
        -- unfold exec; fold exec. by rewrite Hnone.
Qed.

(** X1.  [getNumericIndex] throws exactly when the width given is zero.
    For a width from one up to, but not including, 10^21, and when the
    width is omitted, it returns [NaN] exactly when the string contains no
    digit.  From 10^21 on, where the width no longer prints in digits, it
    returns [NaN] on every string. *)
Theorem getNumericIndex_outcome (aId : JsString) (opt_base : option nat) :
  (getNumericIndex aId opt_base = SyntaxError <-> opt_base = Some 0)
  /\ (opt_base <> Some 0 ->
      (forall base, opt_base = Some base -> (N.of_nat base < 10 ^ 21)%N) ->
        (getNumericIndex aId opt_base = Normal NaN <-> no_digit aId = true))
  /\ (forall base, opt_base = Some base -> (10 ^ 21 <= N.of_nat base)%N ->
        getNumericIndex aId opt_base = Normal NaN).
Proof.
  split; [| split].
  - destruct opt_base as [[| b] |].
    + done.
    + unfold getNumericIndex, RegExp.
      destruct (prints_in_digits (S b)); simpl;
        (split; [discriminate | intros [=]]).
    + split; [discriminate | intros [=]].
  - intros Hne Hbound.
    assert (Hexec : exists q, getNumericIndex aId opt_base
                      = Normal (match exec q aId with
                                | Some m0 => Num (to_number m0)
                                | None => NaN
                                end)
                    /\ (exec q aId = None <-> no_digit aId = true)).
    { destruct opt_base as [[| b] |]; [done | |].
      - exists (Range 1 (S b)). split.
        + rewrite getNumericIndex_quantified; [done |].
          apply prints_in_digits_iff. by apply Hbound.
        + destruct (exec_range_spec (S b) aId ltac:(lia))
            as [[Hno Hex] | (pre & ds & rest & Heq & Hpre & Hds & Hlen & _ & Hex)].
          * by rewrite Hno, Hex.
          * rewrite Hex, Heq, !no_digit_app, (digits_not_no_digit ds)
              by (done || lia).
            rewrite andb_false_l, andb_false_r. by split.
      - exists Plus. split; [reflexivity |].
        destruct (exec_plus_spec aId)
          as [[Hno Hex] | (pre & ds & rest & Heq & Hpre & Hds & Hlen & _ & Hex)].
        + by rewrite Hno, Hex.
        + rewrite Hex, Heq, !no_digit_app, (digits_not_no_digit ds)
            by (done || lia).
          rewrite andb_false_l, andb_false_r. by split. }
    destruct Hexec as (q & -> & Hiff). rewrite <- Hiff.
    destruct (exec q aId); split; intros; congruence.
  - intros base -> Hbig. unfold getNumericIndex.
    assert (Hp : prints_in_digits base = false).
    { unfold prints_in_digits. by apply N.ltb_ge. }
    by rewrite Hp.
Qed.

Lemma getNumericIndex_outcome_witness :
  getNumericIndex (js "no digits") (Some 3) = Normal NaN
  /\ getNumericIndex (js "no digits") (Some 0) = SyntaxError.
Proof.
  split.
  - apply (getNumericIndex_outcome (js "no digits") (Some 3));
      [discriminate | | reflexivity].
    intros base [= <-]. reflexivity.
  - by apply (getNumericIndex_outcome (js "no digits") (Some 0)).
Defined.

(** The greedy run on digits followed by something that is not one. *)
Lemma take_digits_app (n : nat) (ds rest : JsString) :
  forallb is_digit ds = true -> starts_with_digit rest = false ->
  take_digits n (ds ++ rest) = take n ds.
Proof.
  revert n. induction ds as [| c ds IH]; intros n Hd Hr.
  - simpl. destruct n, rest as [| c rest]; simpl in *; try done.
    by rewrite Hr.
  - simpl in Hd. apply andb_true_iff in Hd as [Hc Hd].
    destruct n; simpl; [done |]. rewrite Hc. f_equal. by apply IH.
Qed.

Lemma take_digits_no_digit (n : nat) (s : JsString) :
  starts_with_digit s = false -> take_digits n s = [].
Proof. destruct n, s; simpl; try done. by intros ->. Qed.

Lemma exec_skips_no_digit (q : Quantifier) (pre s : JsString) :
  (match q with Plus => True | Range lo _ => 1 <= lo end) ->
  no_digit pre = true -> exec q (pre ++ s) = exec q s.
Proof.
  intros Hq. induction pre as [| c pre IH]; intros Hpre; [done |].
  unfold no_digit in Hpre. simpl in Hpre.
  apply andb_true_iff in Hpre as [Hc Hpre]. apply negb_true_iff in Hc.
  simpl app. unfold exec; fold exec.
  assert (Hnone : match_here q (c :: pre ++ s) = None).
  { unfold match_here. destruct q as [| lo hi].
    - simpl. by rewrite Hc.
    - rewrite take_digits_no_digit by done. simpl.
      destruct (lo <=? 0) eqn:Hl; [apply Nat.leb_le in Hl; lia | done]. }
  rewrite Hnone. by apply IH.
Qed.

Lemma exec_match_here (q : Quantifier) (s m : JsString) :
  match_here q s = Some m -> exec q s = Some m.
Proof. intros H. destruct s; simpl; by rewrite H. Qed.

Lemma match_here_digits (q : Quantifier) (ds rest : JsString) :
  forallb is_digit ds = true -> 1 <= length ds ->
  starts_with_digit rest = false ->
  (match q with Plus => True | Range lo hi => lo = 1 /\ 1 <= hi end) ->
  match_here q (ds ++ rest)
  = Some (match q with Plus => ds | Range _ hi => take hi ds end).
Proof.
  intros Hds Hlen Hrest Hq. unfold match_here. destruct q as [| lo hi].
  - rewrite (take_digits_app _ ds rest Hds Hrest).
    rewrite take_ge by (rewrite length_app; lia).
    destruct (1 <=? length ds) eqn:Hl; [done |].
    apply Nat.leb_gt in Hl. lia.
  - destruct Hq as [-> Hhi].
    rewrite (take_digits_app _ ds rest Hds Hrest).
    destruct (1 <=? length (take hi ds)) eqn:Hl; [done |].
    apply Nat.leb_gt in Hl. rewrite length_take in Hl. lia.
Qed.

(** X2.  On a string made of a digit-free part, then between one and
    fifteen digits, then a rest that does not begin with a digit:
    without a width [getNumericIndex] returns the number all these digits
    write, and with a width from one up to, but not including, 10^21 the
    number the first [base] of them write. *)
Theorem getNumericIndex_on_decomposition
    (pre ds rest : JsString) (base : nat) :
  no_digit pre = true ->
  forallb is_digit ds = true ->
  1 <= length ds <= 15 ->
  starts_with_digit rest = false ->
  1 <= base ->
  (N.of_nat base < 10 ^ 21)%N ->
  getNumericIndex (pre ++ ds ++ rest) None = Normal (Num (to_number ds))
  /\ getNumericIndex (pre ++ ds ++ rest) (Some base)
     = Normal (Num (to_number (take base ds))).
Proof.
  intros Hpre Hds Hlen Hrest Hbase Hbound.
  split.
  - unfold getNumericIndex. simpl RegExp. cbv iota.
    rewrite exec_skips_no_digit by done.
    rewrite (exec_match_here Plus _ ds); [done |].
    by apply (match_here_digits Plus); [| lia | |].
  - rewrite getNumericIndex_quantified by (by apply prints_in_digits_iff).
    unfold RegExp.
    destruct (base <? 1) eqn:Hlt; [apply Nat.ltb_lt in Hlt; lia |].
    rewrite exec_skips_no_digit by done.
    rewrite (exec_match_here (Range 1 base) _ (take base ds)); [done |].
    by apply (match_here_digits (Range 1 base)); [| lia | |].
Qed.

Lemma getNumericIndex_on_decomposition_witness :
  getNumericIndex (js "row-2024px") None = Normal (Num 2024)
  /\ getNumericIndex (js "row-2024px") (Some 2) = Normal (Num 20).
Proof.
  apply (getNumericIndex_on_decomposition (js "row-") (js "2024") (js "px") 2);
    first [reflexivity | simpl; lia].
Defined.

Lemma digit_value_le (c : ascii) :
  is_digit c = true -> (digit_value c <= 9)%N.
Proof.
  unfold is_digit, digit_value. intros H.
  apply andb_true_iff in H as [H1 H2].
  apply Nat.leb_le in H1, H2. lia.
Qed.

Lemma to_number_bound (ds : JsString) :
  forallb is_digit ds = true ->
  (to_number ds < 10 ^ N.of_nat (length ds))%N.
Proof.
  unfold to_number.
  assert (Hgen : forall acc,
            forallb is_digit ds = true ->
            (fold_left (fun acc c => 10 * acc + digit_value c) ds acc
             < (acc + 1) * 10 ^ N.of_nat (length ds))%N).
  { induction ds as [| c ds IH]; intros acc Hds.
    - simpl. lia.
    - simpl in Hds. apply andb_true_iff in Hds as [Hc Hds].
      pose proof (digit_value_le c Hc) as Hle.
      cbn [fold_left length]. specialize (IH (10 * acc + digit_value c)%N Hds).
      rewrite Nat2N.inj_succ, N.pow_succ_r'.
      eapply N.lt_le_trans; [exact IH |].
      set (p := (10 ^ N.of_nat (length ds))%N). nia. }
  intros Hds. specialize (Hgen 0%N Hds). lia.
Qed.

(** X3.  The number [getNumericIndex] returns for a width between one and
    fifteen is below ten to that width; [get2DigitIndex] returns at most
    99. *)
Theorem getNumericIndex_bounded (aId : JsString) (base : nat) (n : N) :
  1 <= base <= 15 ->
  (getNumericIndex aId (Some base) = Normal (Num n) ->
     (n < 10 ^ N.of_nat base)%N)
  /\ (get2DigitIndex aId = Normal (Num n) -> (n <= 99)%N).
Proof.
  intros Hbase.
  assert (Hgen : forall b, 1 <= b ->
            getNumericIndex aId (Some b) = Normal (Num n) ->
            (n < 10 ^ N.of_nat b)%N).
  { intros b Hb. unfold getNumericIndex, RegExp.
    destruct (prints_in_digits b); [| discriminate].
    destruct (b <? 1) eqn:Hlt; [apply Nat.ltb_lt in Hlt; lia |].
    destruct (exec_range_spec b aId Hb)
      as [[_ Hex] | (pre & ds & rest & _ & _ & Hds & Hlen & _ & Hex)];
      rewrite Hex; [discriminate |].
    intros [= <-].
    eapply N.lt_le_trans; [by apply to_number_bound |].
    apply N.pow_le_mono_r; lia. }
  split; [apply Hgen; lia |].
  intros H. apply (Hgen 2) in H; [| lia]. simpl in H. lia.
Qed.

Lemma getNumericIndex_bounded_witness :
  1 <= 2 <= 15
  /\ get2DigitIndex (js "x123") = Normal (Num 12)
  /\ (12 < 10 ^ N.of_nat 2)%N /\ (12 <= 99)%N.
Proof.
  split; [lia |]. split; [reflexivity |].
  split; apply (getNumericIndex_bounded (js "x123") 2 12);
    first [lia | reflexivity].
Defined.

(** ** [getIdWithoutPrefix] and [getVisualThemeClassName] *)

(** X4.  [getIdWithoutPrefix] undoes the prepending of the prefix, and
    removing two prefixes one after the other is removing their
    concatenation. *)
Theorem getIdWithoutPrefix_round_trip (aPrefix aPrefix' aStr : JsString) :
  getIdWithoutPrefix (aPrefix ++ aStr) aPrefix = aStr
  /\ getIdWithoutPrefix (getIdWithoutPrefix aStr aPrefix) aPrefix'
     = getIdWithoutPrefix aStr (aPrefix ++ aPrefix').
Proof.
  unfold getIdWithoutPrefix. rewrite !substring_drop. split.
  - apply drop_app_length.
  - by rewrite drop_drop, length_app.
Qed.

(** X5.  [getVisualThemeClassName] appends ["-theme"]: the class name is
    six characters longer than the theme name, begins with it, ends in
    ["-theme"], and two theme names with the same class name are equal. *)
Theorem getVisualThemeClassName_injective (a b : JsString) :
  length (getVisualThemeClassName a) = length a + 6
  /\ take (length a) (getVisualThemeClassName a) = a
  /\ getIdWithoutPrefix (getVisualThemeClassName a) a = js "-theme"
  /\ (getVisualThemeClassName a = getVisualThemeClassName b -> a = b).
Proof.
  unfold getVisualThemeClassName, getIdWithoutPrefix.
  rewrite substring_drop. repeat split.
  - by rewrite length_app.
  - apply take_app_length.
  - apply drop_app_length.
  - apply app_inv_tail.
Qed.

Lemma getVisualThemeClassName_injective_witness :
  length (getVisualThemeClassName (js "dark")) = 10
  /\ getIdWithoutPrefix (getVisualThemeClassName (js "dark")) (js "dark")
     = js "-theme".
Proof.
  destruct (getVisualThemeClassName_injective (js "dark") (js "dark"))
    as (Hlen & _ & Hrest & _).
  split; [exact Hlen | exact Hrest].
Defined.

(** ** [getNumericIndexWithoutPrefix] *)

Lemma substring2_take_drop (s : JsString) (a b : nat) :
  a <= b <= length s ->
  substring2 s (Z.of_nat a) (Z.of_nat b) = take (b - a) (drop a s).
Proof.
  intros Hab. unfold substring2.
  replace (Z.min (Z.max (Z.of_nat a) 0) (Z.of_nat (length s)))
    with (Z.of_nat a) by lia.
  replace (Z.min (Z.max (Z.of_nat b) 0) (Z.of_nat (length s)))
    with (Z.of_nat b) by lia.
  replace (Z.min (Z.of_nat a) (Z.of_nat b)) with (Z.of_nat a) by lia.
  replace (Z.max (Z.of_nat a) (Z.of_nat b)) with (Z.of_nat b) by lia.
  rewrite Nat2Z.id. f_equal. lia.
Qed.

Lemma has_prefix_app (p s : JsString) : has_prefix p (p ++ s) = true.
Proof.
  induction p as [| c p IH]; simpl; [done |].
  by rewrite Ascii.eqb_refl, IH.
Qed.

Lemma exec_prefix_digits_match (p s m : JsString) :
  match_prefix_digits p s = Some m -> exec_prefix_digits p s = Some m.
Proof. intros H. destruct s; simpl; by rewrite H. Qed.

Lemma match_prefix_digits_here (p ds rest : JsString) :
  forallb is_digit ds = true -> 1 <= length ds ->
  starts_with_digit rest = false ->
  match_prefix_digits p (p ++ ds ++ rest) = Some (p ++ ds).
Proof.
  intros Hds Hlen Hrest. unfold match_prefix_digits.
  rewrite has_prefix_app, drop_app_length.
  rewrite (take_digits_app _ ds rest Hds Hrest).
  rewrite take_ge by (rewrite !length_app; lia).
  destruct (1 <=? length ds) eqn:Hl; [done |].
  apply Nat.leb_gt in Hl. lia.
Qed.

(** No match begins inside a digit-free stretch that is followed by at
    least [length p] more digit-free characters. *)
Lemma exec_prefix_digits_skip (p junk s : JsString) :
  no_digit (junk ++ p) = true ->
  exec_prefix_digits p (junk ++ p ++ s) = exec_prefix_digits p (p ++ s).
Proof.
  induction junk as [| c junk IH]; intros Hno; [done |].
  simpl app. unfold exec_prefix_digits; fold exec_prefix_digits.
  assert (Hnone : match_prefix_digits p (c :: junk ++ p ++ s) = None).
  { unfold match_prefix_digits.
    destruct (has_prefix p _); [| done].
    assert (Hdrop : exists d t,
              drop (length p) (c :: junk ++ p ++ s) = d :: t
              /\ is_digit d = false).
    { change (c :: junk ++ p ++ s) with ((c :: junk) ++ p ++ s).
      rewrite app_assoc, drop_app.
      assert (Hlt : length p < length ((c :: junk) ++ p))
        by (rewrite length_app; simpl; lia).
      destruct (drop (length p) ((c :: junk) ++ p)) as [| d t] eqn:Hd.
      - apply (f_equal (@length ascii)) in Hd.
        rewrite length_drop in Hd. simpl in Hd, Hlt. lia.
      - exists d, (t ++ drop (length p - length ((c :: junk) ++ p)) s).
        split; [done |].
        assert (Hin : no_digit (d :: t) = true).
        { rewrite <- Hd. unfold no_digit in *.
          rewrite <- (take_drop (length p) ((c :: junk) ++ p)) in Hno.
          rewrite forallb_app in Hno. by apply andb_true_iff in Hno as [_ ?]. }
        unfold no_digit in Hin. simpl in Hin.
        apply andb_true_iff in Hin as [Hin _]. by apply negb_true_iff in Hin. }
    destruct Hdrop as (d & t & -> & Hd).
    rewrite take_digits_no_digit by done. done. }
  rewrite Hnone. apply IH.
  unfold no_digit in *. simpl in Hno. by apply andb_true_iff in Hno as [_ ?].
Qed.

(** X6.  For a prefix without pattern syntax and a string of the shape
    [junk ++ aPrefix ++ ds ++ rest], with [ds] between one and fifteen
    digits and [rest] not beginning with a digit,
    [getNumericIndexWithoutPrefix] returns the number [ds] writes: when
    the string begins with the prefix ([junk] empty), and also when the
    prefix comes later, provided neither [junk] nor the prefix contains a
    digit.  The prefix is looked for anywhere in the string, not at its
    beginning only. *)
Theorem getNumericIndexWithoutPrefix_after_prefix
    (junk aPrefix ds rest : JsString) :
  literal_pattern aPrefix = true ->
  junk = [] \/ no_digit (junk ++ aPrefix) = true ->
  forallb is_digit ds = true ->
  1 <= length ds <= 15 ->
  starts_with_digit rest = false ->
  getNumericIndexWithoutPrefix (junk ++ aPrefix ++ ds ++ rest) aPrefix
  = Some (Num (to_number ds)).
Proof.
  intros Hlit Hjunk Hds Hlen Hrest. unfold getNumericIndexWithoutPrefix.
  rewrite Hlit.
  assert (Hexec : exec_prefix_digits aPrefix (junk ++ aPrefix ++ ds ++ rest)
                  = Some (aPrefix ++ ds)).
  { assert (Hhere : exec_prefix_digits aPrefix (aPrefix ++ ds ++ rest)
                    = Some (aPrefix ++ ds)).
    { apply exec_prefix_digits_match, match_prefix_digits_here; [done | lia | done]. }
    destruct Hjunk as [-> | Hno]; [done |].
    by rewrite exec_prefix_digits_skip. }
  rewrite Hexec. do 2 f_equal.
  rewrite substring2_take_drop by (rewrite length_app; lia).
  rewrite drop_app_length, length_app.
  f_equal. apply take_ge. lia.
Qed.

Lemma getNumericIndexWithoutPrefix_after_prefix_witness :
  getNumericIndexWithoutPrefix (js "cell100") (js "cell") = Some (Num 100)
  /\ getNumericIndexWithoutPrefix (js "my-cell12px") (js "cell")
     = Some (Num 12).
Proof.
  split.
  - apply (getNumericIndexWithoutPrefix_after_prefix
             [] (js "cell") (js "100") []);
      first [reflexivity | by left | simpl; lia].
  - apply (getNumericIndexWithoutPrefix_after_prefix
             (js "my-") (js "cell") (js "12") (js "px"));
      first [reflexivity | by right | simpl; lia].
Defined.

Lemma exec_prefix_digits_empty (s : JsString) :
  exec_prefix_digits [] s = exec Plus s.
Proof.
  induction s as [| c s IH]; [done |].
  unfold exec_prefix_digits, exec; fold exec_prefix_digits; fold exec.
  rewrite IH. done.
Qed.

Lemma exec_plus_length (s m : JsString) :
  exec Plus s = Some m -> length m <= length s.
Proof.
  destruct (exec_plus_spec s)
    as [[_ Hex] | (pre & ds & rest & Heq & _ & _ & _ & _ & Hex)];
    rewrite Hex; [done |].
  intros [= <-]. rewrite Heq, !length_app. lia.
Qed.

(** X7.  With the empty prefix [getNumericIndexWithoutPrefix] is
    [getNumericIndex] without a width. *)
Theorem getNumericIndexWithoutPrefix_empty_prefix (aStr : JsString) :
  Normal <$> getNumericIndexWithoutPrefix aStr []
  = Some (getNumericIndex aStr None).
Proof.
  unfold getNumericIndexWithoutPrefix, getNumericIndex. simpl.
  rewrite exec_prefix_digits_empty.
  destruct (exec Plus aStr) as [m |] eqn:Hm; [| done].
  do 4 f_equal.
  rewrite (substring2_take_drop m 0 (length m)) by lia.
  simpl. rewrite Nat.sub_0_r. by apply take_ge.
Qed.

(** X8.  For a prefix without pattern syntax, a string that contains no
    digit gives [NaN], whether or not it begins with the prefix. *)
Theorem getNumericIndexWithoutPrefix_no_digit (aStr aPrefix : JsString) :
  literal_pattern aPrefix = true ->
  no_digit aStr = true ->
  getNumericIndexWithoutPrefix aStr aPrefix = Some NaN.
Proof.
  intros Hlit Hno. unfold getNumericIndexWithoutPrefix. rewrite Hlit.
  assert (Hnone : exec_prefix_digits aPrefix aStr = None).
  { induction aStr as [| c s IH].
    - simpl. unfold match_prefix_digits.
      destruct (has_prefix aPrefix []); [| done].
      by destruct (length aPrefix).
    - unfold exec_prefix_digits; fold exec_prefix_digits.
      assert (Hm : match_prefix_digits aPrefix (c :: s) = None).
      { unfold match_prefix_digits.
        destruct (has_prefix aPrefix (c :: s)); [| done].
        rewrite take_digits_no_digit; [done |].
        destruct (drop (length aPrefix) (c :: s)) as [| d t] eqn:Hd; [done |].
        simpl. apply negb_true_iff.
        unfold no_digit in Hno.
        rewrite <- (take_drop (length aPrefix) (c :: s)), forallb_app, Hd in Hno.
        apply andb_true_iff in Hno as [_ Hno]. simpl in Hno.
        by apply andb_true_iff in Hno as [? _]. }
      rewrite Hm. apply IH.
      unfold no_digit in *. simpl in Hno.
      by apply andb_true_iff in Hno as [_ ?]. }
  by rewrite Hnone.
Qed.

Lemma getNumericIndexWithoutPrefix_no_digit_witness :
  getNumericIndexWithoutPrefix (js "cell-x") (js "cell") = Some NaN.
Proof.
  apply (getNumericIndexWithoutPrefix_no_digit (js "cell-x") (js "cell"));
    reflexivity.
Defined.

(** ** [buildClassNameRe] *)

Lemma regExpEscape_plain (s : JsString) :
  plain_name s = true -> regExpEscape s = s.
Proof.
  unfold regExpEscape, escape_backspace, escape_specials, plain_name.
  induction s as [| c s IH]; [done |].
  simpl. intros H. apply andb_true_iff in H as [Hc Hs].
  apply andb_true_iff in Hc as [H1 H2].
  apply negb_true_iff in H1, H2.
  rewrite H1. simpl. rewrite H2. simpl. f_equal. by apply IH.
Qed.

Lemma syntax_char_is_escaped (c : ascii) :
  in_chars c regExp_escaped_chars = false ->
  in_chars c regExp_syntax_chars = false.
Proof.
  unfold in_chars. intros Hesc.
  destruct (existsb (Ascii.eqb c) regExp_syntax_chars) eqn:Hin; [| done].
  apply existsb_exists in Hin as (d & Hd & Heq).
  apply Ascii.eqb_eq in Heq as <-.
  assert (Hin : existsb (Ascii.eqb c) regExp_escaped_chars = true);
    [| congruence].
  apply existsb_exists. exists c. split; [| apply Ascii.eqb_refl].
  vm_compute in Hd. vm_compute. tauto.
Qed.

Lemma plain_name_literal (s : JsString) :
  plain_name s = true -> literal_pattern s = true.
Proof.
  unfold plain_name, literal_pattern.
  induction s as [| c s IH]; [done |].
  cbn [forallb]. intros H. apply andb_true_iff in H as [Hc Hs].
  apply andb_true_iff in Hc as [Hc _]. apply negb_true_iff in Hc.
  by rewrite (syntax_char_is_escaped c Hc), (IH Hs).
Qed.

(** X9.  On class names that contain none of the characters
    [goog.string.regExpEscape] escapes, the debug build and the production
    build of [buildClassNameRe] give the same pattern. *)
Theorem buildClassNameRe_debug_agnostic (var_args : list JsString) :
  forallb plain_name var_args = true ->
  buildClassNameRe true var_args = buildClassNameRe false var_args.
Proof.
  intros Hplain. unfold buildClassNameRe.
  assert (Hmap : map regExpEscape var_args = var_args
                 /\ forallb literal_pattern var_args = true).
  { induction var_args as [| a args IH]; [done |].
    simpl in Hplain. apply andb_true_iff in Hplain as [Ha Hargs].
    destruct (IH Hargs) as [IH1 IH2].
    simpl. by rewrite (regExpEscape_plain a Ha), IH1, IH2,
                 (plain_name_literal a Ha). }
  destruct Hmap as [-> ->]. done.
Qed.

Lemma buildClassNameRe_debug_agnostic_witness :
  buildClassNameRe true [js "day"; js "week_2"]
  = buildClassNameRe false [js "day"; js "week_2"].
Proof.
  apply (buildClassNameRe_debug_agnostic [js "day"; js "week_2"]).
  reflexivity.
Defined.

Lemma join_cons (sep x y : JsString) (l : list JsString) :
  join sep (x :: y :: l) = x ++ sep ++ join sep (y :: l).
Proof. reflexivity. Qed.

Lemma join_alternation (f : JsString -> JsString) (a : JsString)
    (args : list JsString) :
  BEGINNING_OF_CLASS_RE
    ++ join (END_OF_CLASS_RE ++ js "|" ++ BEGINNING_OF_CLASS_RE)
         (map f (a :: args))
    ++ END_OF_CLASS_RE
  = join (js "|")
      (map (fun x => BEGINNING_OF_CLASS_RE ++ f x ++ END_OF_CLASS_RE)
         (a :: args)).
Proof.
  revert a. induction args as [| b args IH]; intros a; [done |].
  specialize (IH b). cbn [map] in IH |- *.
  rewrite !join_cons.
  etrans;
    [| exact (f_equal (fun t => (BEGINNING_OF_CLASS_RE ++ f a ++ END_OF_CLASS_RE)
                                  ++ js "|" ++ t) IH)].
  cbv beta. by rewrite <- !app_assoc.
Qed.

(** X10.  With [goog.DEBUG] on, and with it off for names that are literal
    patterns, [buildClassNameRe] builds a pattern for each name alone, and
    the pattern it builds for several names is the alternation of those,
    so every name gets its own two delimiters; without any name the
    pattern is the two delimiters. *)
Theorem buildClassNameRe_alternation
    (DEBUG : bool) (a : JsString) (var_args : list JsString) :
  DEBUG = true \/ forallb literal_pattern (a :: var_args) = true ->
  (exists texts,
     Forall2 (fun x text => buildClassNameRe DEBUG [x] = Some text)
       (a :: var_args) texts
     /\ buildClassNameRe DEBUG (a :: var_args) = Some (join (js "|") texts))
  /\ buildClassNameRe DEBUG [] = Some (js "(\s|^)(\s|$)").
Proof.
  intros Hok. split; [| by destruct DEBUG].
  set (f := fun x : JsString => if DEBUG then regExpEscape x else x).
  exists (map (fun x => BEGINNING_OF_CLASS_RE ++ f x ++ END_OF_CLASS_RE)
            (a :: var_args)).
  assert (Hall : Forall (fun x => DEBUG || literal_pattern x = true)
                   (a :: var_args)).
  { destruct Hok as [-> | Hlit]; [by apply Forall_forall |].
    apply Forall_forall. intros x Hx.
    rewrite forallb_forall in Hlit. rewrite (Hlit x), orb_true_r; [done |].
    by apply list_elem_of_In. }
  split.
  - apply Forall2_fmap_r, Forall_Forall2_diag.
    eapply Forall_impl; [exact Hall |]. intros x Hx.
    unfold buildClassNameRe. simpl forallb. rewrite andb_true_r, Hx.
    unfold f. by destruct DEBUG.
  - unfold buildClassNameRe.
    assert (Hcond : DEBUG || forallb literal_pattern (a :: var_args) = true).
    { destruct Hok as [-> | ->]; [done | apply orb_true_r]. }
    rewrite Hcond. f_equal. rewrite <- (join_alternation f).
    unfold f. destruct DEBUG; [done |]. by rewrite map_id.
Qed.

Lemma buildClassNameRe_alternation_witness :
  (exists texts,
     Forall2 (fun x text => buildClassNameRe false [x] = Some text)
       [js "day"; js "week"] texts
     /\ buildClassNameRe false [js "day"; js "week"]
        = Some (join (js "|") texts))
  /\ buildClassNameRe false [] = Some (js "(\s|^)(\s|$)").
Proof.
  apply (buildClassNameRe_alternation false (js "day") [js "week"]).
  right. reflexivity.
Defined.

End StringProps.

(* ===================================================================== *)
(** * Properties of rflect.dom.ViewportSizeMonitor *)
(* ===================================================================== *)

Module MonitorProps.
Import ViewportSizeMonitor.

(** ** Heap lemmas *)

Lemma alter_snoc {A : Type} (f : A -> A) (l : list A) (x : A) :
  alter f (length l) (l ++ [x]) = l ++ [f x].
Proof.
  induction l as [| y l IH]; simpl; [reflexivity |].
  f_equal. exact IH.
Qed.

Lemma lookup_snoc {A : Type} (l : list A) (x : A) :
  (l ++ [x]) !! length l = Some x.
Proof. induction l; simpl; auto. Qed.

Lemma lookup_snoc_old {A : Type} (l : list A) (x y : A) (i : nat) :
  l !! i = Some y -> (l ++ [x]) !! i = Some y.
Proof. intros H. by apply lookup_app_l_Some. Qed.

Lemma alter_same {A : Type} (f : A -> A) (l : list A) (i : nat) :
  (forall x, l !! i = Some x -> f x = x) -> alter f i l = l.
Proof.
  intros Hf. apply list_eq. intros j.
  destruct (decide (i = j)) as [<- | Hne].
  - rewrite list_lookup_alter_eq. destruct (l !! i) as [x |] eqn:Hl; simpl; [| done].
    f_equal. by apply Hf.
  - by rewrite list_lookup_alter_ne.
Qed.

Lemma monitors_update this f σ :
  monitors (update this f σ) = alter f this (monitors σ).
Proof. reflexivity. Qed.

Lemma lookup_update this f σ :
  monitors (update this f σ) !! this = f <$> monitors σ !! this.
Proof. apply list_lookup_alter_eq. Qed.

Lemma lookup_update_ne this j f σ :
  this <> j -> monitors (update this f σ) !! j = monitors σ !! j.
Proof. intros. by apply list_lookup_alter_ne. Qed.

(** A world is determined by its eleven components. *)
Lemma world_eq (σ σ' : World) :
  sizes σ = sizes σ' -> monitors σ = monitors σ' -> uid_ σ = uid_ σ' ->
  uidCounter_ σ = uidCounter_ σ' ->
  windowInstanceMap_ σ = windowInstanceMap_ σ' ->
  listeners_ σ = listeners_ σ' -> nextListenerKey σ = nextListenerKey σ' ->
  viewport σ = viewport σ' -> intervals σ = intervals σ' ->
  nextInterval σ = nextInterval σ' -> trace σ = trace σ' -> σ = σ'.
Proof. destruct σ, σ'; simpl; intros; congruence. Qed.

(** ** The size comparison is structural *)

Lemma Size_equals_structural (a b : SizeRef) (x y : Size) (σ : World) :
  sizes σ !! a = Some x -> sizes σ !! b = Some y ->
  Size_equals (Some a) (Some b) σ = true <-> x = y.
Proof.
  intros Ha Hb. unfold Size_equals.
  destruct (decide (Some a = Some b)) as [Heq | Hne].
  - inversion Heq; subst. split; [congruence | done].
  - simpl. rewrite Ha, Hb. destruct x as [wx hx], y as [wy hy]; simpl.
    rewrite andb_true_iff, !Z.eqb_eq. split; [intros []; congruence |].
    intros [= -> ->]. done.
Qed.

Lemma Size_equals_fresh (a : SizeRef) (x : Size) (b : option SizeRef)
    (σ : World) :
  sizes σ !! a = Some x -> b <> Some a ->
  Size_equals (Some a) b σ =
    bool_decide (b ≫= (fun r => sizes σ !! r) = Some x).
Proof.
  intros Ha Hb. unfold Size_equals.
  destruct (decide (Some a = b)) as [Heq | Hne]; [congruence |].
  simpl. rewrite Ha.
  destruct (b ≫= (fun r => sizes σ !! r)) as [y |] eqn:Hy.
  - destruct x as [wx hx], y as [wy hy]; simpl.
    apply eq_true_iff_eq. rewrite andb_true_iff, !Z.eqb_eq, bool_decide_eq_true.
    split; [intros []; congruence | intros [= -> ->]; done].
  - symmetry. by apply bool_decide_eq_false.
Qed.

(** ** Measuring and re-checking *)

Lemma field_lookup {A : Type} (f : Monitor -> option A) this σ m :
  monitors σ !! this = Some m -> field f this σ = f m.
Proof. intros H. unfold field. by rewrite H. Qed.

Lemma size_value_lookup this σ m :
  monitors σ !! this = Some m ->
  size_value this σ = size m ≫= fun r => sizes σ !! r.
Proof. intros H. unfold size_value, field. by rewrite H. Qed.

Lemma getViewportSize_eq E w σ :
  getViewportSize E (Some w) σ = (length (sizes σ), measured w σ).
Proof. reflexivity. Qed.

Lemma size_value_measured this w σ s :
  size_value this σ = Some s -> size_value this (measured w σ) = Some s.
Proof.
  unfold size_value, field. simpl.
  destruct (monitors σ !! this) as [m |]; simpl; [| done].
  destruct (size m) as [r |]; simpl; [| done].
  apply lookup_app_l_Some.
Qed.

(** The two branches of [checkForSizeChange]. *)
Lemma checkForSizeChange_same E this σ m w :
  monitors σ !! this = Some m -> window m = Some w ->
  size_value this σ = Some (viewport σ w) ->
  checkForSizeChange E this σ = measured w σ.
Proof.
  intros Hm Hw Hs. unfold checkForSizeChange.
  rewrite (field_lookup window this σ m Hm), Hw, getViewportSize_eq.
  assert (Hr : exists r, size m = Some r /\ sizes σ !! r = Some (viewport σ w)).
  { rewrite (size_value_lookup _ _ _ Hm) in Hs.
    destruct (size m) as [r |]; simpl in Hs; [eauto | done]. }
  destruct Hr as (r & Hsz & Hr).
  rewrite (field_lookup size this (measured w σ) m Hm), Hsz.
  rewrite (Size_equals_fresh _ (viewport σ w)).
  - rewrite bool_decide_eq_true_2; [done |].
    simpl. by apply lookup_app_l_Some.
  - simpl. apply lookup_snoc.
  - intros [= ->]. apply lookup_lt_Some in Hr. lia.
Qed.

Lemma checkForSizeChange_changed E this σ m w old :
  monitors σ !! this = Some m -> window m = Some w ->
  size_value this σ = Some old -> old <> viewport σ w ->
  checkForSizeChange E this σ =
    dispatchEvent this RESIZE
      (update this (set_size (Some (length (sizes σ)))) (measured w σ)).
Proof.
  intros Hm Hw Hs Hne. unfold checkForSizeChange.
  rewrite (field_lookup window this σ m Hm), Hw, getViewportSize_eq.
  assert (Hr : exists r, size m = Some r /\ sizes σ !! r = Some old).
  { rewrite (size_value_lookup _ _ _ Hm) in Hs.
    destruct (size m) as [r |]; simpl in Hs; [eauto | done]. }
  destruct Hr as (r & Hsz & Hr).
  rewrite (field_lookup size this (measured w σ) m Hm), Hsz.
  rewrite (Size_equals_fresh _ (viewport σ w)).
  - rewrite bool_decide_eq_false_2; [done |].
    simpl. rewrite (lookup_app_l_Some _ _ _ _ Hr). congruence.
  - simpl. apply lookup_snoc.
  - intros [= ->]. apply lookup_lt_Some in Hr. lia.
Qed.

(** What [getSize] hands out is the recorded size. *)
Lemma getSize_value_eq this σ : getSize_value this σ = size_value this σ.
Proof.
  unfold getSize_value, getSize, size_value, clone.
  destruct (field size this σ) as [r |]; simpl; [| done].
  destruct (sizes σ !! r) as [[w h] |] eqn:Hr; simpl; [| done].
  apply lookup_snoc.
Qed.

(** A dispatch leaves everything but the trace as it is, and adds one
    notification. *)
Lemma notifications_dispatchEvent this type σ :
  notifications (dispatchEvent this type σ)
  = Dispatched this type (default [] (subscribers_ <$> monitors σ !! this))
      :: notifications σ.
Proof.
  unfold notifications, dispatchEvent. simpl trace.
  generalize (rev (default [] (subscribers_ <$> monitors σ !! this))).
  intros l. induction l as [| h l IH]; [done |]. exact IH.
Qed.

(** The branch that finds a new size, by its effects. *)
Lemma checkForSizeChange_changed_frame E this σ m w old :
  monitors σ !! this = Some m -> window m = Some w ->
  size_value this σ = Some old -> old <> viewport σ w ->
  let σ' := checkForSizeChange E this σ in
  trace σ'
  = map (fun h => Handled h this RESIZE (Some (viewport σ w)))
      (rev (subscribers_ m))
    ++ Dispatched this RESIZE (subscribers_ m) :: Measured w :: trace σ
  /\ notifications σ' = Dispatched this RESIZE (subscribers_ m) :: notifications σ
  /\ size_value this σ' = Some (viewport σ w).
Proof.
  intros Hm Hw Hs Hne σ'. subst σ'.
  rewrite (checkForSizeChange_changed E this σ m w old Hm Hw Hs Hne).
  set (σ2 := update this (set_size (Some (length (sizes σ)))) (measured w σ)).
  assert (Hm2 : monitors σ2 !! this = Some (set_size (Some (length (sizes σ))) m)).
  { unfold σ2. rewrite lookup_update. simpl. by rewrite Hm. }
  assert (Hv2 : size_value this σ2 = Some (viewport σ w)).
  { rewrite (size_value_lookup _ _ _ Hm2). simpl. apply lookup_snoc. }
  split; [| split].
  - unfold dispatchEvent. rewrite Hm2, Hv2. done.
  - rewrite notifications_dispatchEvent, Hm2. done.
  - exact Hv2.
Qed.

(** C1.  A monitor in the active state (not disposed, watching window [w],
    holding a recorded size [old]) is re-checked while the viewport differs
    from [old].  The check measures [w]; it then dispatches in a world [σ2]
    in which the recorded size is already the new measurement, so that
    every subscribed handler, called during the dispatch, finds the new
    size recorded and not [old]; the trace gains that measurement, exactly
    one notification, a [RESIZE] event for the monitor's subscribers, and
    one call of each subscriber in the order of subscription; and
    [getSize] afterwards yields the new measurement. *)
Theorem checkForSizeChange_notifies_once
    (E : Env) (this : MonRef) (σ : World) (m : Monitor) (w : WindowRef)
    (old : Size) :
  monitors σ !! this = Some m ->
  disposed_ m = false ->
  window m = Some w ->
  size_value this σ = Some old ->
  old <> viewport σ w ->
  let σ' := checkForSizeChange E this σ in
  (exists σ2, σ' = dispatchEvent this RESIZE σ2
              /\ size_value this σ2 = Some (viewport σ w)
              /\ trace σ2 = Measured w :: trace σ)
  /\ trace σ'
     = map (fun h => Handled h this RESIZE (Some (viewport σ w)))
         (rev (subscribers_ m))
       ++ Dispatched this RESIZE (subscribers_ m) :: Measured w :: trace σ
  /\ (forall h seen,
        In (Handled h this RESIZE seen) (trace σ') ->
        ~ In (Handled h this RESIZE seen) (trace σ) ->
        In h (subscribers_ m) /\ seen = Some (viewport σ w) /\ seen <> Some old)
  /\ notifications σ' = Dispatched this RESIZE (subscribers_ m) :: notifications σ
  /\ size_value this σ' = Some (viewport σ w)
  /\ getSize_value this σ' = Some (viewport σ w).
Proof.
  intros Hm _ Hw Hs Hne σ'.
  destruct (checkForSizeChange_changed_frame E this σ m w old Hm Hw Hs Hne)
    as (Htr & Hnot & Hv').
  fold σ' in Htr, Hnot, Hv'.
  pose proof (checkForSizeChange_changed E this σ m w old Hm Hw Hs Hne) as Heq.
  fold σ' in Heq.
  set (σ2 := update this (set_size (Some (length (sizes σ)))) (measured w σ))
    in Heq.
  assert (Hm2 : monitors σ2 !! this = Some (set_size (Some (length (sizes σ))) m)).
  { unfold σ2. rewrite lookup_update. simpl. by rewrite Hm. }
  assert (Hv2 : size_value this σ2 = Some (viewport σ w)).
  { rewrite (size_value_lookup _ _ _ Hm2). simpl. apply lookup_snoc. }
  split; [| split; [| split; [| split; [| split]]]].
  - exists σ2. by repeat split.
  - exact Htr.
  - intros h seen Hin Hnew. rewrite Htr in Hin.
    apply in_app_or in Hin as [Hin | Hin].
    + apply in_map_iff in Hin as (h' & [= <- <-] & Hh).
      apply in_rev in Hh.
      split; [done |]. split; [done |]. congruence.
    + destruct Hin as [Hin | [Hin | Hin]]; [discriminate | discriminate | done].
  - exact Hnot.
  - exact Hv'.
  - by rewrite getSize_value_eq.
Qed.

Lemma checkForSizeChange_notifies_once_witness :
  let σ := host_resize 1%positive (mkSize 800 600)
             (subscribe 0 8 (subscribe 0 7
                (snd (new_ViewportSizeMonitor plain_env None page)))) in
  trace (checkForSizeChange plain_env 0 σ)
    = [Handled 8 0 RESIZE (Some (mkSize 800 600));
       Handled 7 0 RESIZE (Some (mkSize 800 600));
       Dispatched 0 RESIZE [7; 8];
       Measured 1%positive]
      ++ trace σ
  /\ getSize_value 0 (checkForSizeChange plain_env 0 σ)
    = Some (mkSize 800 600).
Proof.
  intros σ.
  pose proof (checkForSizeChange_notifies_once plain_env 0 σ
    (mkMonitor false [7; 8] (Some 1%positive) (Some 1%positive) (Some 0) None)
    1%positive (mkSize 1024 768)
    eq_refl eq_refl eq_refl eq_refl) as H.
  destruct H as (_ & Htr & _ & _ & _ & Hg).
  - vm_compute. discriminate.
  - split; [exact Htr | exact Hg].
Defined.

(** ** Runs of checks that find nothing new *)

Lemma size_value_host_resize this w s σ :
  size_value this (host_resize w s σ) = size_value this σ.
Proof. reflexivity. Qed.

Lemma viewport_host_resize w s σ : viewport (host_resize w s σ) w = s.
Proof. simpl. by rewrite decide_True. Qed.

(** One check that measures the recorded size: the heap of sizes gains the
    measurement, the trace records it, and nothing else moves. *)
Lemma checkForSizeChange_same_frame E this σ m w :
  monitors σ !! this = Some m -> window m = Some w ->
  size_value this σ = Some (viewport σ w) ->
  let σ' := checkForSizeChange E this σ in
  monitors σ' = monitors σ
  /\ notifications σ' = notifications σ
  /\ size_value this σ' = size_value this σ
  /\ viewport σ' = viewport σ
  /\ intervals σ' = intervals σ
  /\ listeners_ σ' = listeners_ σ
  /\ windowInstanceMap_ σ' = windowInstanceMap_ σ
  /\ sizes σ' = sizes σ ++ [viewport σ w].
Proof.
  intros Hm Hw Hs σ'. subst σ'.
  rewrite (checkForSizeChange_same E this σ m w Hm Hw Hs).
  repeat split; try reflexivity.
  rewrite Hs. by apply size_value_measured.
Qed.

(** C2.  A monitor in the active state holds the recorded size [s], and
    every one of a run of checks measures [s] again.  Then no notification
    is added, no monitor is touched (the recorded size is the same object
    as before, not only an equal one), the objects already in the heap keep
    their contents, and the registry, the listeners and the timers are as
    they were. *)
Theorem checks_without_change_are_silent
    (E : Env) (this : MonRef) (w : WindowRef) (ms : list Size) (s : Size)
    (σ : World) (m : Monitor) :
  monitors σ !! this = Some m ->
  disposed_ m = false ->
  window m = Some w ->
  size_value this σ = Some s ->
  Forall (fun measurement => measurement = s) ms ->
  let σ' := checks E this w ms σ in
  notifications σ' = notifications σ
  /\ monitors σ' = monitors σ
  /\ size_value this σ' = Some s
  /\ (forall r x, sizes σ !! r = Some x -> sizes σ' !! r = Some x)
  /\ windowInstanceMap_ σ' = windowInstanceMap_ σ
  /\ listeners_ σ' = listeners_ σ
  /\ intervals σ' = intervals σ.
Proof.
  intros Hm _ Hw Hs Hall. revert σ Hm Hs.
  induction Hall as [| x ms Hx Hall IH]; intros σ Hm Hs; simpl.
  - repeat split; auto.
  - subst x.
    set (σ0 := host_resize w s σ).
    assert (Hm0 : monitors σ0 !! this = Some m) by exact Hm.
    assert (Hs0 : size_value this σ0 = Some (viewport σ0 w)).
    { unfold σ0. rewrite size_value_host_resize, viewport_host_resize. exact Hs. }
    destruct (checkForSizeChange_same_frame E this σ0 m w Hm0 Hw Hs0)
      as (Hmon & Hnot & Hsv & Hvp & Hint & Hlis & Hreg & Hsz).
    set (σ1 := checkForSizeChange E this σ0) in *.
    assert (Hm1 : monitors σ1 !! this = Some m) by (rewrite Hmon; exact Hm0).
    assert (Hs1 : size_value this σ1 = Some s).
    { rewrite Hsv. unfold σ0. by rewrite size_value_host_resize. }
    destruct (IH σ1 Hm1 Hs1) as (Hn' & Hmon' & Hsv' & Hold' & Hreg' & Hlis' & Hint').
    repeat split.
    + rewrite Hn', Hnot. reflexivity.
    + rewrite Hmon', Hmon. reflexivity.
    + exact Hsv'.
    + intros r x Hr. apply Hold'. rewrite Hsz.
      by apply lookup_app_l_Some.
    + rewrite Hreg', Hreg. reflexivity.
    + rewrite Hlis', Hlis. reflexivity.
    + rewrite Hint', Hint. reflexivity.
Qed.

Lemma checks_without_change_are_silent_witness :
  let σ := snd (new_ViewportSizeMonitor plain_env None page) in
  let σ' := checks plain_env 0 1%positive
              [mkSize 1024 768; mkSize 1024 768; mkSize 1024 768] σ in
  notifications σ' = [] /\ monitors σ' = monitors σ.
Proof.
  intros σ σ'.
  pose proof (checks_without_change_are_silent plain_env 0 1%positive
    [mkSize 1024 768; mkSize 1024 768; mkSize 1024 768] (mkSize 1024 768) σ
    (mkMonitor false [] (Some 1%positive) (Some 1%positive) (Some 0) None)
    eq_refl eq_refl eq_refl eq_refl) as H.
  destruct H as (Hn & Hmon & _).
  - repeat constructor.
  - split; [exact Hn | exact Hmon].
Defined.

(** ** Construction *)

(** The host environment check, on the window the monitor watches. *)
Lemma isPollingRequired_lookup E this σ m w :
  monitors σ !! this = Some m -> window m = Some w ->
  isPollingRequired_ E this σ =
    WEBKIT E && WINDOWS E
    || OPERA E && negb (bool_decide (win_self E w = win_top E w)).
Proof.
  intros Hm Hw. unfold isPollingRequired_.
  by rewrite (field_lookup window this σ m Hm), Hw.
Qed.

Ltac heap_simpl :=
  repeat (rewrite ?alter_snoc, ?lookup_snoc; simpl).

(** The constructor, component by component. *)
Lemma new_ViewportSizeMonitor_spec E opt_window σ :
  let w := default (global_window E) opt_window in
  let polling :=
    WEBKIT E && WINDOWS E
    || OPERA E && negb (bool_decide (win_self E w = win_top E w)) in
  let this := length (monitors σ) in
  let σ' := snd (new_ViewportSizeMonitor E opt_window σ) in
  fst (new_ViewportSizeMonitor E opt_window σ) = this
  /\ monitors σ' =
       monitors σ ++
       [mkMonitor false [] (Some (nextListenerKey σ)) (Some w)
          (Some (length (sizes σ)))
          (if polling then Some (nextInterval σ) else None)]
  /\ sizes σ' = sizes σ ++ [viewport σ w]
  /\ listeners_ σ' = <[nextListenerKey σ := (w, RESIZE, this)]> (listeners_ σ)
  /\ intervals σ' =
       (if polling
        then <[nextInterval σ := (this, WINDOW_SIZE_POLL_RATE)]> (intervals σ)
        else intervals σ)
  /\ trace σ' =
       (if polling
        then [IntervalSet (nextInterval σ) this WINDOW_SIZE_POLL_RATE]
        else [])
       ++ Measured w :: Listened (nextListenerKey σ) w RESIZE this :: trace σ
  /\ uid_ σ' = uid_ σ
  /\ uidCounter_ σ' = uidCounter_ σ
  /\ windowInstanceMap_ σ' = windowInstanceMap_ σ
  /\ viewport σ' = viewport σ.
Proof.
  intros w polling this σ'. subst σ'.
  unfold new_ViewportSizeMonitor, alloc_monitor, update, field,
    isPollingRequired_, getViewportSize, alloc_size, listen, setInterval,
    log, field.
  heap_simpl. fold w. fold polling. fold this.
  destruct polling; heap_simpl; repeat split; reflexivity.
Qed.

Lemma notifications_app_silent (pre : list Effect) (σ σ' : World) :
  forallb (fun e => negb (is_notification e)) pre = true ->
  trace σ' = pre ++ trace σ ->
  notifications σ' = notifications σ.
Proof.
  intros Hpre Htr. unfold notifications. rewrite Htr. clear Htr.
  induction pre as [| e pre IH]; simpl in *; [reflexivity |].
  apply andb_true_iff in Hpre as [He Hpre].
  destruct (is_notification e) eqn:Hn; simpl in He; [discriminate |].
  by apply IH.
Qed.

(** C7.  The constructor measures the window (the one given, or the global
    one), records that measurement, and sends no notification.  It leaves
    the new monitor undisposed, watching that window, with the key of a
    listener that the table of native listeners holds for [RESIZE] on the
    window.  The monitor is observing: when the host resizes the window
    and delivers the native event to that listener, one notification goes
    out and the recorded size follows, whereas a native event without a
    change of size sends nothing. *)
Theorem constructor_measures_and_listens
    (E : Env) (opt_window : option WindowRef) (σ : World) :
  let w := default (global_window E) opt_window in
  let this := fst (new_ViewportSizeMonitor E opt_window σ) in
  let σ' := snd (new_ViewportSizeMonitor E opt_window σ) in
  size_value this σ' = Some (viewport σ w)
  /\ notifications σ' = notifications σ
  /\ (exists pre, trace σ' = pre ++ Measured w :: Listened (nextListenerKey σ) w RESIZE this :: trace σ)
  /\ (exists m key,
        monitors σ' !! this = Some m
        /\ disposed_ m = false
        /\ window m = Some w
        /\ listenerKey_ m = Some key
        /\ listeners_ σ' !! key = Some (w, RESIZE, this)
        /\ (forall s, s <> viewport σ w ->
              let σ'' := deliver E key (host_resize w s σ') in
              notifications σ'' = Dispatched this RESIZE [] :: notifications σ
              /\ size_value this σ'' = Some s)
        /\ notifications (deliver E key σ') = notifications σ).
Proof.
  intros w this σ'.
  destruct (new_ViewportSizeMonitor_spec E opt_window σ)
    as (Hthis & Hmon & Hsz & Hlis & Hint & Htr & Huid & Hcnt & Hreg & Hvp).
  fold w in Hmon, Hsz, Hlis, Hint, Htr. fold σ' in Hmon, Hsz, Hlis, Hint, Htr, Hvp.
  fold this in Hthis. rewrite <- Hthis in Hlis, Htr.
  set (m := mkMonitor false [] (Some (nextListenerKey σ)) (Some w)
              (Some (length (sizes σ)))
              (if WEBKIT E && WINDOWS E
                  || OPERA E && negb (bool_decide (win_self E w = win_top E w))
               then Some (nextInterval σ) else None)) in *.
  assert (Hm : monitors σ' !! this = Some m).
  { rewrite Hmon, Hthis. apply lookup_snoc. }
  assert (Hsv : size_value this σ' = Some (viewport σ w)).
  { rewrite (size_value_lookup _ _ _ Hm). simpl. rewrite Hsz. apply lookup_snoc. }
  assert (Hnot : notifications σ' = notifications σ).
  { clear - Htr. revert Htr.
    destruct (WEBKIT E && WINDOWS E || _); intros Htr.
    - by apply (notifications_app_silent
                  [IntervalSet (nextInterval σ) this WINDOW_SIZE_POLL_RATE;
                   Measured w;
                   Listened (nextListenerKey σ) w RESIZE this]).
    - by apply (notifications_app_silent
                  [Measured w; Listened (nextListenerKey σ) w RESIZE this]). }
  assert (Hkey : listeners_ σ' !! nextListenerKey σ = Some (w, RESIZE, this)).
  { rewrite Hlis. apply lookup_insert_eq. }
  split; [exact Hsv |]. split; [exact Hnot |]. split; [eauto |].
  exists m, (nextListenerKey σ). repeat split; try done.
  - unfold deliver, handleResize_. simpl listeners_. rewrite Hkey.
    assert (Hne : viewport σ w <> viewport (host_resize w s σ') w).
    { rewrite viewport_host_resize. congruence. }
    destruct (checkForSizeChange_changed_frame E this (host_resize w s σ') m w
                (viewport σ w) Hm eq_refl Hsv Hne)
      as (_ & Hn & _).
    rewrite Hn. unfold notifications at 1. simpl trace.
    fold (notifications σ'). by rewrite Hnot.
  - unfold deliver, handleResize_. simpl listeners_. rewrite Hkey.
    assert (Hne : viewport σ w <> viewport (host_resize w s σ') w).
    { rewrite viewport_host_resize. congruence. }
    destruct (checkForSizeChange_changed_frame E this (host_resize w s σ') m w
                (viewport σ w) Hm eq_refl Hsv Hne)
      as (_ & _ & Hv).
    rewrite Hv. by rewrite viewport_host_resize.
  - unfold deliver, handleResize_. rewrite Hkey.
    assert (Hsame : size_value this σ' = Some (viewport σ' w)) by (by rewrite Hvp).
    destruct (checkForSizeChange_same_frame E this σ' m w Hm eq_refl Hsame)
      as (_ & Hn & _).
    by rewrite Hn.
Qed.

Lemma constructor_measures_and_listens_witness :
  let σ' := snd (new_ViewportSizeMonitor plain_env None page) in
  size_value 0 σ' = Some (mkSize 1024 768) /\ notifications σ' = [].
Proof.
  intros σ'.
  destruct (constructor_measures_and_listens plain_env None page)
    as (Hs & Hn & _).
  split; [exact Hs | exact Hn].
Defined.

(** ** Polling *)

(** A timer bound to a monitor whose recorded size is the viewport's:
    however often it fires, nothing is notified and no monitor changes. *)
Lemma ticks_silent E id this m w rate n σ :
  monitors σ !! this = Some m -> window m = Some w ->
  size_value this σ = Some (viewport σ w) ->
  intervals σ !! id = Some (this, rate) ->
  notifications (ticks E id n σ) = notifications σ
  /\ monitors (ticks E id n σ) = monitors σ.
Proof.
  revert σ. induction n as [| n IH]; intros σ Hm Hw Hs Hid; simpl; [done |].
  destruct (checkForSizeChange_same_frame E this σ m w Hm Hw Hs)
    as (Hmon & Hnot & Hsv & Hvp & Hint & _).
  assert (Htick : tick E id σ = checkForSizeChange E this σ).
  { unfold tick. by rewrite Hid. }
  rewrite Htick.
  destruct (IH (checkForSizeChange E this σ)) as [Hn' Hm'].
  - by rewrite Hmon.
  - exact Hw.
  - by rewrite Hsv, Hvp.
  - by rewrite Hint.
  - split; [by rewrite Hn', Hnot | by rewrite Hm', Hmon].
Qed.

(** C8.  Let [polling] be the host check on the watched window: WebKit on
    Windows, or Opera with [self] different from [top].  When it holds,
    the constructor registers one timer with rate 500, bound to the new
    monitor, and stores its handle; a firing of the timer is the same
    re-check as the resize handler, and with the viewport left alone no
    number of firings sends a notification or changes the monitor.  When
    it does not hold, no timer is registered and the handle stays null.
    [isPollingRequired_] computes [polling]. *)
Theorem constructor_polls_iff_required
    (E : Env) (opt_window : option WindowRef) (σ : World) :
  let w := default (global_window E) opt_window in
  let polling :=
    WEBKIT E && WINDOWS E
    || OPERA E && negb (bool_decide (win_self E w = win_top E w)) in
  let this := fst (new_ViewportSizeMonitor E opt_window σ) in
  let σ' := snd (new_ViewportSizeMonitor E opt_window σ) in
  let id := nextInterval σ in
  isPollingRequired_ E this σ' = polling
  /\ if polling then
       field windowSizePollInterval this σ' = Some id
       /\ intervals σ' = <[id := (this, 500%Z)]> (intervals σ)
       /\ trace σ' = IntervalSet id this 500%Z :: Measured w
                       :: Listened (nextListenerKey σ) w RESIZE this :: trace σ
       /\ tick E id σ' = handleResize_ E this σ'
       /\ forall n,
            notifications (ticks E id n σ') = notifications σ'
            /\ monitors (ticks E id n σ') = monitors σ'
     else
       field windowSizePollInterval this σ' = None
       /\ intervals σ' = intervals σ
       /\ trace σ' = Measured w
                       :: Listened (nextListenerKey σ) w RESIZE this :: trace σ.
Proof.
  intros w polling this σ' id.
  destruct (new_ViewportSizeMonitor_spec E opt_window σ)
    as (Hthis & Hmon & Hsz & Hlis & Hint & Htr & Huid & Hcnt & Hreg & Hvp).
  fold w in Hmon, Hsz, Hlis, Hint, Htr.
  fold polling in Hmon, Hint, Htr.
  fold σ' in Hmon, Hsz, Hlis, Hint, Htr, Hvp.
  fold this in Hthis. rewrite <- Hthis in Hlis, Htr, Hint. fold id in Hmon, Hint, Htr.
  set (m := mkMonitor false [] (Some (nextListenerKey σ)) (Some w)
              (Some (length (sizes σ))) (if polling then Some id else None)) in *.
  assert (Hm : monitors σ' !! this = Some m).
  { rewrite Hmon, Hthis. apply lookup_snoc. }
  assert (Hsv : size_value this σ' = Some (viewport σ' w)).
  { rewrite (size_value_lookup _ _ _ Hm), Hvp. simpl. rewrite Hsz. apply lookup_snoc. }
  split; [exact (isPollingRequired_lookup E this σ' m w Hm eq_refl) |].
  destruct polling eqn:Hp.
  - assert (Hid : intervals σ' !! id = Some (this, 500%Z)).
    { rewrite Hint. apply lookup_insert_eq. }
    repeat split.
    + by rewrite (field_lookup _ _ _ _ Hm).
    + exact Hint.
    + exact Htr.
    + unfold tick. by rewrite Hid.
    + by destruct (ticks_silent E id this m w 500%Z n σ' Hm eq_refl Hsv Hid).
    + by destruct (ticks_silent E id this m w 500%Z n σ' Hm eq_refl Hsv Hid).
  - repeat split.
    + by rewrite (field_lookup _ _ _ _ Hm).
    + exact Hint.
    + exact Htr.
Qed.

(** ** Disposal *)

Lemma alter_insert {A : Type} (f : A -> A) (l : list A) (i : nat) (x : A) :
  l !! i = Some x -> alter f i l = <[i := f x]> l.
Proof.
  intros Hx. apply list_eq. intros j.
  destruct (decide (i = j)) as [<- | Hne].
  - rewrite list_lookup_alter_eq, Hx, list_lookup_insert_eq; [done |].
    by apply lookup_lt_Some in Hx.
  - by rewrite list_lookup_alter_ne, list_lookup_insert_ne.
Qed.

(** The monitor a disposal leaves behind. *)
Lemma disposeInternal_spec this σ m :
  monitors σ !! this = Some m ->
  let σ' := disposeInternal this σ in
  monitors σ' =
    <[this := mkMonitor (disposed_ m) [] None None None None]> (monitors σ)
  /\ listeners_ σ' =
       match listenerKey_ m with
       | Some key => delete key (listeners_ σ)
       | None => listeners_ σ
       end
  /\ intervals σ' =
       match windowSizePollInterval m with
       | Some id => delete id (intervals σ)
       | None => intervals σ
       end
  /\ trace σ' =
       match windowSizePollInterval m with
       | Some id => [IntervalCleared id]
       | None => []
       end ++
       match listenerKey_ m with
       | Some key => [Unlistened key]
       | None => []
       end ++ trace σ
  /\ sizes σ' = sizes σ
  /\ uid_ σ' = uid_ σ
  /\ uidCounter_ σ' = uidCounter_ σ
  /\ windowInstanceMap_ σ' = windowInstanceMap_ σ
  /\ nextListenerKey σ' = nextListenerKey σ
  /\ viewport σ' = viewport σ
  /\ nextInterval σ' = nextInterval σ.
Proof.
  intros Hm σ'. subst σ'.
  destruct m as [d subs key win sz poll].
  unfold disposeInternal. cbv zeta.
  set (σa := EventTarget_disposeInternal this σ).
  assert (Ha : monitors σa !! this = Some (mkMonitor d [] key win sz poll)).
  { unfold σa, EventTarget_disposeInternal. by rewrite lookup_update, Hm. }
  rewrite (field_lookup listenerKey_ this σa _ Ha). simpl listenerKey_.
  set (σb := match key with
             | Some k => update this (set_listenerKey_ None) (unlistenByKey k σa)
             | None => σa
             end).
  assert (Hb : monitors σb !! this = Some (mkMonitor d [] None win sz poll)).
  { unfold σb. destruct key as [k |]; [| exact Ha].
    rewrite lookup_update.
    change (monitors (unlistenByKey k σa)) with (monitors σa).
    by rewrite Ha. }
  rewrite (field_lookup windowSizePollInterval this σb _ Hb).
  simpl windowSizePollInterval.
  assert (Hmon : forall f g h,
            alter f this (alter g this (alter h this (monitors σ)))
            = <[this := f (g (h (mkMonitor d subs key win sz poll)))]> (monitors σ)).
  { intros f g h. rewrite !list_alter_alter_eq. by rewrite (alter_insert _ _ _ _ Hm). }
  assert (Hmon' : forall f g h k,
            alter f this (alter g this (alter h this (alter k this (monitors σ))))
            = <[this := f (g (h (k (mkMonitor d subs key win sz poll))))]> (monitors σ)).
  { intros f g h k. rewrite !list_alter_alter_eq. by rewrite (alter_insert _ _ _ _ Hm). }
  assert (Hmon'' : forall f g h k l,
            alter f this (alter g this (alter h this (alter k this
              (alter l this (monitors σ)))))
            = <[this := f (g (h (k (l (mkMonitor d subs key win sz poll)))))]>
                (monitors σ)).
  { intros f g h k l. rewrite !list_alter_alter_eq. by rewrite (alter_insert _ _ _ _ Hm). }
  unfold σb, σa, EventTarget_disposeInternal.
  destruct key as [key |], poll as [id |]; simpl;
    repeat split; try reflexivity;
    first [ by rewrite Hmon'' | by rewrite Hmon' | by rewrite Hmon ].
Qed.

Lemma dispose_fresh this σ m :
  monitors σ !! this = Some m -> disposed_ m = false ->
  dispose this σ = disposeInternal this (update this (set_disposed_ true) σ).
Proof. intros Hm Hd. unfold dispose. by rewrite Hm, Hd. Qed.

(** A first disposal leaves the monitor with every field null. *)
Lemma dispose_clears_fields this σ m :
  monitors σ !! this = Some m -> disposed_ m = false ->
  monitors (dispose this σ) !! this
    = Some (mkMonitor true [] None None None None)
  /\ sizes (dispose this σ) = sizes σ.
Proof.
  intros Hm Hd. rewrite (dispose_fresh this σ m Hm Hd).
  set (σ0 := update this (set_disposed_ true) σ).
  assert (Hm0 : monitors σ0 !! this = Some (set_disposed_ true m)).
  { unfold σ0. rewrite lookup_update. by rewrite Hm. }
  destruct (disposeInternal_spec this σ0 _ Hm0) as (Hmon & _ & _ & _ & Hsz & _).
  split; [| exact Hsz].
  rewrite Hmon. apply list_lookup_insert_eq. by apply lookup_lt_Some in Hm0.
Qed.

(** C4.  A monitor that has not been disposed is disposed.  Afterwards its
    listener key, its timer handle, its window and its recorded size are
    all null, the listener it had is no longer in the table of native
    listeners and the timer it had is no longer among the host's timers;
    the trace shows the one unsubscription and the one cancellation that
    were due.  A second [dispose] returns the world as it is, so it
    unsubscribes nothing and cancels nothing, and so does a second run of
    [disposeInternal] itself, whose guards find both handles null. *)
Theorem dispose_twice_is_dispose_once
    (this : MonRef) (σ : World) (m : Monitor) :
  monitors σ !! this = Some m ->
  disposed_ m = false ->
  let σ1 := dispose this σ in
  monitors σ1 !! this = Some (mkMonitor true [] None None None None)
  /\ (forall key, listenerKey_ m = Some key -> listeners_ σ1 !! key = None)
  /\ (forall id, windowSizePollInterval m = Some id -> intervals σ1 !! id = None)
  /\ trace σ1 =
       match windowSizePollInterval m with
       | Some id => [IntervalCleared id]
       | None => []
       end ++
       match listenerKey_ m with
       | Some key => [Unlistened key]
       | None => []
       end ++ trace σ
  /\ dispose this (dispose this σ) = σ1
  /\ disposeInternal this σ1 = σ1.
Proof.
  intros Hm Hd σ1. subst σ1.
  rewrite (dispose_fresh this σ m Hm Hd).
  set (σ0 := update this (set_disposed_ true) σ).
  assert (Hm0 : monitors σ0 !! this = Some (set_disposed_ true m)).
  { unfold σ0. rewrite lookup_update. by rewrite Hm. }
  destruct (disposeInternal_spec this σ0 _ Hm0)
    as (Hmon & Hlis & Hint & Htr & Hsz & Huid & Hcnt & Hreg & Hnk & Hvp & Hni).
  set (σ1 := disposeInternal this σ0) in *.
  cbn [disposed_ listenerKey_ windowSizePollInterval set_disposed_]
    in Hmon, Hlis, Hint, Htr.
  change (monitors σ0) with (alter (set_disposed_ true) this (monitors σ)) in Hmon.
  change (listeners_ σ0) with (listeners_ σ) in Hlis.
  change (intervals σ0) with (intervals σ) in Hint.
  change (trace σ0) with (trace σ) in Htr.
  assert (Hm1 : monitors σ1 !! this = Some (mkMonitor true [] None None None None)).
  { rewrite Hmon. apply list_lookup_insert_eq.
    by apply lookup_lt_Some in Hm0. }
  assert (Hagain : disposeInternal this σ1 = σ1).
  { destruct (disposeInternal_spec this σ1 _ Hm1)
      as (Hmon' & Hlis' & Hint' & Htr' & Hsz' & Huid' & Hcnt' & Hreg' & Hnk'
          & Hvp' & Hni').
    cbn [disposed_ listenerKey_ windowSizePollInterval app]
      in Hmon', Hlis', Hint', Htr'.
    apply world_eq; try assumption.
    rewrite Hmon'. by apply list_insert_id. }
  repeat split.
  - exact Hm1.
  - intros key Hk. rewrite Hlis, Hk. apply lookup_delete_eq.
  - intros id Hi. rewrite Hint, Hi. apply lookup_delete_eq.
  - exact Htr.
  - unfold dispose at 1. by rewrite Hm1.
  - exact Hagain.
Qed.

Lemma dispose_twice_is_dispose_once_witness :
  let σ := snd (new_ViewportSizeMonitor polling_env None page) in
  dispose 0 (dispose 0 σ) = dispose 0 σ
  /\ trace (dispose 0 σ) =
       [IntervalCleared 1; Unlistened 1] ++ trace σ.
Proof.
  intros σ.
  destruct (dispose_twice_is_dispose_once 0 σ
    (mkMonitor false [] (Some 1%positive) (Some 1%positive) (Some 0)
       (Some 1%positive)) eq_refl eq_refl)
    as (_ & _ & _ & Htr & Hagain & _).
  split; [exact Hagain | exact Htr].
Defined.

(** ** Reading the size *)

Lemma getSize_cases this σ :
  (fst (getSize this σ) = None /\ snd (getSize this σ) = σ
   /\ size_value this σ = None)
  \/ exists r x,
       field size this σ = Some r /\ sizes σ !! r = Some x
       /\ fst (getSize this σ) = Some (length (sizes σ))
       /\ snd (getSize this σ) = with_sizes (sizes σ ++ [x]) σ.
Proof.
  unfold getSize, size_value, clone.
  destruct (field size this σ) as [r |]; simpl; [| by left].
  destruct (sizes σ !! r) as [[wd ht] |] eqn:Hr; simpl; [| by left].
  right. by exists r, (mkSize wd ht).
Qed.

(** ** The registry *)

Lemma keeps_registry_refl σ : keeps_registry σ σ.
Proof. constructor; eauto. Qed.

Lemma keeps_registry_trans σ1 σ2 σ3 :
  keeps_registry σ1 σ2 -> keeps_registry σ2 σ3 -> keeps_registry σ1 σ3.
Proof.
  intros [Hu Hc Hm Hl Hw] [Hu' Hc' Hm' Hl' Hw']. constructor; try congruence.
  - lia.
  - intros i m3 Hi H3.
    destruct (Hw' i m3 ltac:(lia) H3) as (m2 & H2 & Hw2).
    destruct (Hw i m2 Hi H2) as (m1 & H1 & Hw1).
    exists m1. split; [done |]. destruct Hw2, Hw1; eauto with congruence.
Qed.

(** A world whose monitors are those of [σ], except that one of them went
    through [f], which does not give it a new window. *)
Lemma keeps_registry_alter σ σ' this f :
  uid_ σ' = uid_ σ -> uidCounter_ σ' = uidCounter_ σ ->
  windowInstanceMap_ σ' = windowInstanceMap_ σ ->
  monitors σ' = alter f this (monitors σ) ->
  (forall m, window (f m) = window m \/ window (f m) = None) ->
  keeps_registry σ σ'.
Proof.
  intros Hu Hc Hm Hmon Hf. constructor; try done.
  - by rewrite Hmon, length_alter.
  - intros i m' Hi Hm'. rewrite Hmon in Hm'.
    destruct (decide (this = i)) as [<- | Hne].
    + rewrite list_lookup_alter_eq in Hm'.
      destruct (monitors σ !! this) as [m |]; simplify_eq/=. eauto.
    + rewrite list_lookup_alter_ne in Hm' by done. eauto.
Qed.

Lemma keeps_registry_same σ σ' :
  uid_ σ' = uid_ σ -> uidCounter_ σ' = uidCounter_ σ ->
  windowInstanceMap_ σ' = windowInstanceMap_ σ ->
  monitors σ' = monitors σ ->
  keeps_registry σ σ'.
Proof.
  intros Hu Hc Hm Hmon. constructor; try done.
  - by rewrite Hmon.
  - intros i m' _ Hm'. rewrite Hmon in Hm'. eauto.
Qed.

Lemma keeps_registry_check E this σ :
  keeps_registry σ (checkForSizeChange E this σ).
Proof.
  unfold checkForSizeChange, getViewportSize, alloc_size.
  destruct (negb _).
  - by apply (keeps_registry_alter _ _ this
                (set_size (Some (length (sizes σ))))); auto.
  - by apply keeps_registry_same.
Qed.

Lemma keeps_registry_dispose this σ : keeps_registry σ (dispose this σ).
Proof.
  unfold dispose.
  destruct (monitors σ !! this) as [m |] eqn:Hm; [| apply keeps_registry_refl].
  destruct (disposed_ m) eqn:Hd; [apply keeps_registry_refl |].
  set (σ0 := update this (set_disposed_ true) σ).
  assert (Hm0 : monitors σ0 !! this = Some (set_disposed_ true m)).
  { unfold σ0. rewrite lookup_update. by rewrite Hm. }
  destruct (disposeInternal_spec this σ0 _ Hm0)
    as (Hmon & _ & _ & _ & _ & Huid & Hcnt & Hreg & _).
  apply (keeps_registry_alter _ _ this
           (fun _ => mkMonitor true [] None None None None)); auto.
  rewrite Hmon. apply list_eq. intros j.
  destruct (decide (this = j)) as [<- | Hne].
  - rewrite list_lookup_insert_eq by (by apply lookup_lt_Some in Hm0).
    rewrite list_lookup_alter_eq. by rewrite Hm.
  - rewrite list_lookup_insert_ne, list_lookup_alter_ne by done.
    by apply lookup_update_ne.
Qed.

Lemma keeps_registry_new E opt_window σ :
  keeps_registry σ (snd (new_ViewportSizeMonitor E opt_window σ)).
Proof.
  destruct (new_ViewportSizeMonitor_spec E opt_window σ)
    as (_ & Hmon & _ & _ & _ & _ & Huid & Hcnt & Hreg & _).
  constructor; try done.
  - rewrite Hmon, length_app. lia.
  - intros i m' Hi Hm'. rewrite Hmon, lookup_app_l in Hm' by done. eauto.
Qed.

Lemma keeps_registry_getSize this σ : keeps_registry σ (snd (getSize this σ)).
Proof.
  destruct (getSize_cases this σ) as [(_ & -> & _) | (r & x & _ & _ & _ & ->)];
    by apply keeps_registry_same.
Qed.

Lemma keeps_registry_subscribe this h σ :
  keeps_registry σ (subscribe this h σ).
Proof.
  apply (keeps_registry_alter _ _ this (add_subscriber h)); auto.
  intros m. left. unfold add_subscriber. by destruct (decide _).
Qed.

Lemma keeps_registry_deliver E key σ : keeps_registry σ (deliver E key σ).
Proof.
  unfold deliver. destruct (listeners_ σ !! key) as [[[? ?] handler] |].
  - apply keeps_registry_check.
  - apply keeps_registry_refl.
Qed.

Lemma keeps_registry_tick E id σ : keeps_registry σ (tick E id σ).
Proof.
  unfold tick. destruct (intervals σ !! id) as [[handler ?] |].
  - apply keeps_registry_check.
  - apply keeps_registry_refl.
Qed.

(** The invariant survives whatever keeps the registry. *)
Lemma registry_ok_keeps σ σ' :
  registry_ok σ -> keeps_registry σ σ' -> registry_ok σ'.
Proof.
  intros [Hb Hi Ha Hri Hw] [Hu Hc Hm Hl Hkw]. constructor.
  - intros w u. rewrite Hu, Hc. apply Hb.
  - intros w1 w2 u. rewrite Hu. apply Hi.
  - intros u i. rewrite Hm. intros Hreg. specialize (Ha u i Hreg). lia.
  - intros u1 u2 i. rewrite Hm. apply Hri.
  - intros u i m' w. rewrite Hm, Hu. intros Hreg Hm' Hwin.
    destruct (Hkw i m' (Ha u i Hreg) Hm') as (m & Hmi & [Heq | Hnone]).
    + apply (Hw u i m w Hreg Hmi). congruence.
    + congruence.
Qed.

(** [goog.getUid] returns the uid the window has, or gives it the next
    one; either way the window has that uid afterwards. *)
Lemma getUid_spec w σ :
  registry_ok σ ->
  let u := fst (getUid w σ) in
  let σ' := snd (getUid w σ) in
  uid_ σ' !! w = Some u
  /\ ((uid_ σ !! w = Some u /\ σ' = σ)
      \/ (uid_ σ !! w = None /\ u = N.succ (uidCounter_ σ)
          /\ σ' = with_uid (<[w := u]> (uid_ σ)) u σ)).
Proof.
  intros Hok. unfold getUid.
  destruct (uid_ σ !! w) as [u |] eqn:Hu.
  - pose proof (uid_bounds σ Hok w u Hu) as Hb.
    destruct (u =? 0)%N eqn:Hz; [apply N.eqb_eq in Hz; lia |].
    simpl. split; [done | by left].
  - simpl. split; [apply lookup_insert_eq | by right].
Qed.

Lemma registry_ok_getUid w σ :
  registry_ok σ -> registry_ok (snd (getUid w σ)).
Proof.
  intros Hok.
  destruct (getUid_spec w σ Hok) as (_ & [(_ & ->) | (Hnone & Hu & ->)]);
    [done |].
  rewrite Hu. destruct Hok as [Hb Hi Ha Hri Hw]. constructor; simpl.
  - intros w' u'. rewrite lookup_insert. case_decide.
    + intros [= <-]. lia.
    + intros Hu'. specialize (Hb w' u' Hu'). lia.
  - intros w1 w2 u'. rewrite !lookup_insert.
    repeat case_decide; subst; try done.
    + intros [= <-] H2. specialize (Hb _ _ H2). lia.
    + intros H1 [= <-]. specialize (Hb _ _ H1). lia.
    + apply Hi.
  - exact Ha.
  - exact Hri.
  - intros u' i m w' Hreg Hm Hwin.
    pose proof (Hw u' i m w' Hreg Hm Hwin) as Hold.
    rewrite lookup_insert_ne; [done | congruence].
Qed.

(** [getInstanceForWindow], case by case: the window's monitor is returned
    and nothing changes but, possibly, the window's uid; or the window has
    no monitor, and the one returned is constructed by the call. *)
Lemma getInstanceForWindow_spec E opt_window σ :
  registry_ok σ ->
  let w := default (global_window E) opt_window in
  let i := fst (getInstanceForWindow E opt_window σ) in
  let σ' := snd (getInstanceForWindow E opt_window σ) in
  let u := fst (getUid w σ) in
  let σ1 := snd (getUid w σ) in
  registry_ok σ'
  /\ uid_ σ' !! w = Some u
  /\ windowInstanceMap_ σ' !! u = Some i
  /\ ((windowInstanceMap_ σ !! u = Some i /\ σ' = σ1)
      \/ (windowInstanceMap_ σ !! u = None
          /\ i = length (monitors σ)
          /\ i = fst (new_ViewportSizeMonitor E (Some w) σ1)
          /\ σ' = with_windowInstanceMap_ (<[u := i]> (windowInstanceMap_ σ))
                    (snd (new_ViewportSizeMonitor E (Some w) σ1)))).
Proof.
  intros Hok w. cbv zeta.
  pose proof (registry_ok_getUid w σ Hok) as Hok1.
  destruct (getUid_spec w σ Hok) as (Hu & Hcase).
  unfold getInstanceForWindow. fold w.
  destruct (getUid w σ) as [u σ1] eqn:Hg. simpl in Hok1, Hu, Hcase.
  cbn [fst snd].
  assert (Hreg1 : windowInstanceMap_ σ1 = windowInstanceMap_ σ
                  /\ monitors σ1 = monitors σ).
  { destruct Hcase as [(_ & ->) | (_ & _ & ->)]; done. }
  destruct Hreg1 as [Hreg1 Hmon1].
  destruct (windowInstanceMap_ σ1 !! u) as [i |] eqn:Hi.
  - simpl.
    assert (Hid : with_windowInstanceMap_ (<[u := i]> (windowInstanceMap_ σ1)) σ1
                  = σ1).
    { rewrite insert_id by done. by destruct σ1. }
    rewrite Hid. split; [done |]. split; [done |].
    split; [apply lookup_insert_eq |].
    left. by rewrite <- Hreg1.
  - destruct (new_ViewportSizeMonitor E (Some w) σ1) as [i σ2] eqn:Hnew.
    simpl.
    destruct (new_ViewportSizeMonitor_spec E (Some w) σ1)
      as (Hthis & Hmon & _ & _ & _ & _ & Huid & Hcnt & Hreg & _).
    pose proof (keeps_registry_new E (Some w) σ1) as Hkeep.
    rewrite Hnew in Hthis, Hmon, Huid, Hcnt, Hreg, Hkeep. simpl in *.
    pose proof (registry_ok_keeps σ1 σ2 Hok1 Hkeep) as [Hb Hin Ha Hri Hw].
    split; [| split; [| split]].
    + constructor; simpl.
      * exact Hb.
      * exact Hin.
      * intros u0 i0 H0. rewrite lookup_insert in H0. case_decide.
        -- simplify_eq. rewrite Hmon, length_app. simpl. lia.
        -- by apply (Ha u0).
      * intros u1 u2 i0 H1 H2. rewrite lookup_insert in H1, H2.
        repeat case_decide; simplify_eq; try done;
          try by apply (Hri u1 u2 i0).
        all: match goal with
             | H : windowInstanceMap_ _ !! _ = Some (length _) |- _ =>
                 rewrite Hreg in H; apply (reg_alloc σ1 Hok1) in H; lia
             end.
      * intros u0 i0 m w0 H0 Hm0 Hw0. rewrite lookup_insert in H0.
        case_decide.
        -- simplify_eq. rewrite Hmon, lookup_snoc in Hm0.
           simplify_eq/=. by rewrite Huid.
        -- by apply (Hw u0 i0 m w0).
    + by rewrite Huid.
    + apply lookup_insert_eq.
    + right. rewrite <- Hreg1, <- Hmon1. by rewrite Hreg.
Qed.

Lemma registry_ok_getInstanceForWindow E opt_window σ :
  registry_ok σ -> registry_ok (snd (getInstanceForWindow E opt_window σ)).
Proof. intros Hok. by destruct (getInstanceForWindow_spec E opt_window σ Hok). Qed.

Lemma registry_ok_delete u σ :
  registry_ok σ ->
  registry_ok (with_windowInstanceMap_ (delete u (windowInstanceMap_ σ)) σ).
Proof.
  intros [Hb Hi Ha Hri Hw]. constructor; simpl; try done.
  - intros u0 i. rewrite lookup_delete_Some. intros [_ H]. eauto.
  - intros u1 u2 i. rewrite !lookup_delete_Some. intros [_ H1] [_ H2]. eauto.
  - intros u0 i m w. rewrite lookup_delete_Some. intros [_ H]. eauto.
Qed.

Lemma keeps_registry_goog_dispose obj σ : keeps_registry σ (goog_dispose obj σ).
Proof.
  destruct obj; simpl; [apply keeps_registry_dispose | apply keeps_registry_refl].
Qed.

Lemma registry_ok_removeInstanceForWindow E opt_window σ :
  registry_ok σ -> registry_ok (removeInstanceForWindow E opt_window σ).
Proof.
  intros Hok. unfold removeInstanceForWindow.
  pose proof (registry_ok_getUid (default (global_window E) opt_window) σ Hok)
    as Hok1.
  destruct (getUid _ σ) as [u σ1]. simpl in Hok1.
  apply registry_ok_delete.
  eapply registry_ok_keeps; [exact Hok1 | apply keeps_registry_goog_dispose].
Qed.

Lemma registry_ok_initial dims : registry_ok (initial dims).
Proof. constructor; simpl; intros *; by rewrite ?lookup_empty. Qed.

Lemma registry_ok_step E a σ : registry_ok σ -> registry_ok (step E a σ).
Proof.
  intros Hok. destruct a; simpl.
  - by apply registry_ok_getInstanceForWindow.
  - by apply registry_ok_removeInstanceForWindow.
  - eapply registry_ok_keeps; [done | apply keeps_registry_new].
  - eapply registry_ok_keeps; [done | apply keeps_registry_dispose].
  - eapply registry_ok_keeps; [done | apply keeps_registry_check].
  - eapply registry_ok_keeps; [done | apply keeps_registry_getSize].
  - eapply registry_ok_keeps; [done | apply keeps_registry_subscribe].
  - eapply registry_ok_keeps; [done | by apply keeps_registry_same].
  - eapply registry_ok_keeps; [done | by apply keeps_registry_same].
  - eapply registry_ok_keeps; [done | apply keeps_registry_deliver].
  - eapply registry_ok_keeps; [done | apply keeps_registry_tick].
Qed.

Lemma registry_ok_run E acts σ : registry_ok σ -> registry_ok (run E acts σ).
Proof.
  revert σ. induction acts as [| a acts IH]; intros σ Hok; simpl; [done |].
  apply IH. by apply registry_ok_step.
Qed.

(** Every world a page can be in satisfies the registry invariant. *)
Lemma reachable_registry_ok E σ : reachable E σ -> registry_ok σ.
Proof.
  intros (dims & acts & ->). apply registry_ok_run, registry_ok_initial.
Qed.

Lemma reachable_initial E dims : reachable E (initial dims).
Proof. by exists dims, []. Qed.

Lemma reachable_step E a σ : reachable E σ -> reachable E (step E a σ).
Proof.
  intros (dims & acts & ->). exists dims, (acts ++ [a]).
  unfold run. by rewrite fold_left_app.
Qed.

Lemma getUid_known w u σ :
  registry_ok σ -> uid_ σ !! w = Some u -> getUid w σ = (u, σ).
Proof.
  intros Hok Hu. unfold getUid. rewrite Hu.
  pose proof (uid_bounds σ Hok w u Hu) as Hb.
  destruct (u =? 0)%N eqn:Hz; [apply N.eqb_eq in Hz; lia | done].
Qed.

(** The uid a window gets is not the uid of another window. *)
Lemma getUid_distinct w1 w2 u1 σ :
  registry_ok σ -> w1 <> w2 -> uid_ σ !! w1 = Some u1 ->
  fst (getUid w2 σ) <> u1.
Proof.
  intros Hok Hne Hu1.
  destruct (getUid_spec w2 σ Hok) as (_ & [(Hu2 & _) | (_ & Hu2 & _)]).
  - intros Heq. rewrite Heq in Hu2. by apply Hne, (uid_inj σ Hok w1 w2 u1).
  - rewrite Hu2. pose proof (uid_bounds σ Hok w1 u1 Hu1). lia.
Qed.

Lemma getUid_frame w σ :
  let σ1 := snd (getUid w σ) in
  sizes σ1 = sizes σ /\ monitors σ1 = monitors σ
  /\ windowInstanceMap_ σ1 = windowInstanceMap_ σ
  /\ listeners_ σ1 = listeners_ σ /\ nextListenerKey σ1 = nextListenerKey σ
  /\ viewport σ1 = viewport σ
  /\ intervals σ1 = intervals σ /\ nextInterval σ1 = nextInterval σ
  /\ trace σ1 = trace σ.
Proof.
  cbv zeta. unfold getUid.
  destruct (uid_ σ !! w) as [u |]; [destruct (u =? 0)%N |]; simpl;
    repeat split.
Qed.

(** ** What a registration survives *)

Lemma getUid_keeps w' w u σ :
  registry_ok σ -> uid_ σ !! w = Some u ->
  uid_ (snd (getUid w' σ)) !! w = Some u.
Proof.
  intros Hok Hu.
  destruct (getUid_spec w' σ Hok) as (_ & [(_ & ->) | (Hnone & _ & ->)]);
    [done |].
  simpl. rewrite lookup_insert_ne; [done | congruence].
Qed.

(** No method of a monitor and no move of the host, and no call of the two
    registry functions either unless it removes the monitor of [w], takes
    away the uid of [w] or the monitor registered under it. *)
Lemma registered_step E a w u i σ :
  registry_ok σ ->
  uid_ σ !! w = Some u -> windowInstanceMap_ σ !! u = Some i ->
  removes_window E w a = false ->
  uid_ (step E a σ) !! w = Some u
  /\ windowInstanceMap_ (step E a σ) !! u = Some i.
Proof.
  intros Hok Hu Hi Ha.
  assert (Hkeep : forall σ', keeps_registry σ σ' ->
            uid_ σ' !! w = Some u /\ windowInstanceMap_ σ' !! u = Some i).
  { intros σ' Hk. by rewrite (keeps_uid _ _ Hk), (keeps_map _ _ Hk). }
  destruct a as [ow | ow | ow | this | this | this | this h | r v | w0 s
                 | key | id]; simpl step.
  - destruct (getInstanceForWindow_spec E ow σ Hok) as (_ & _ & _ & Hcase).
    pose proof (getUid_keeps (default (global_window E) ow) w u σ Hok Hu)
      as Hu1.
    destruct (getUid_frame (default (global_window E) ow) σ)
      as (_ & _ & Hreg1 & _).
    destruct Hcase as [(_ & ->) | (Hnone & _ & _ & ->)].
    + split; [exact Hu1 | by rewrite Hreg1].
    + destruct (new_ViewportSizeMonitor_spec E
                  (Some (default (global_window E) ow))
                  (snd (getUid (default (global_window E) ow) σ)))
        as (_ & _ & _ & _ & _ & _ & Huid & _).
      split.
      * simpl. by rewrite Huid.
      * simpl. rewrite lookup_insert_ne; [done | congruence].
  - simpl in Ha. apply bool_decide_eq_false in Ha.
    assert (Hne : w <> default (global_window E) ow) by congruence.
    pose proof (getUid_distinct w _ u σ Hok Hne Hu) as Hdist.
    pose proof (getUid_keeps (default (global_window E) ow) w u σ Hok Hu)
      as Hu1.
    destruct (getUid_frame (default (global_window E) ow) σ)
      as (_ & _ & Hreg1 & _).
    unfold removeInstanceForWindow.
    destruct (getUid (default (global_window E) ow) σ) as [u' σ1].
    cbn [fst snd] in *.
    pose proof (keeps_registry_goog_dispose (windowInstanceMap_ σ1 !! u') σ1)
      as Hk.
    split.
    + simpl. by rewrite (keeps_uid _ _ Hk).
    + simpl. rewrite lookup_delete_ne by done.
      by rewrite (keeps_map _ _ Hk), Hreg1.
  - apply Hkeep, keeps_registry_new.
  - apply Hkeep, keeps_registry_dispose.
  - apply Hkeep, keeps_registry_check.
  - apply Hkeep, keeps_registry_getSize.
  - apply Hkeep, keeps_registry_subscribe.
  - by apply Hkeep, keeps_registry_same.
  - by apply Hkeep, keeps_registry_same.
  - apply Hkeep, keeps_registry_deliver.
  - apply Hkeep, keeps_registry_tick.
Qed.

Lemma registered_run E acts w u i σ :
  registry_ok σ ->
  uid_ σ !! w = Some u -> windowInstanceMap_ σ !! u = Some i ->
  existsb (removes_window E w) acts = false ->
  uid_ (run E acts σ) !! w = Some u
  /\ windowInstanceMap_ (run E acts σ) !! u = Some i.
Proof.
  revert σ. induction acts as [| a acts IH]; intros σ Hok Hu Hi Hacts;
    [done |].
  simpl in Hacts. apply orb_false_iff in Hacts as [Ha Hacts].
  destruct (registered_step E a w u i σ Hok Hu Hi Ha) as [Hu' Hi'].
  simpl. apply IH; try done. by apply registry_ok_step.
Qed.

(** A call of [getInstanceForWindow] for a window that has its uid and a
    monitor registered under it returns that monitor and changes nothing. *)
Lemma getInstanceForWindow_registered E opt_window u i σ :
  registry_ok σ ->
  uid_ σ !! default (global_window E) opt_window = Some u ->
  windowInstanceMap_ σ !! u = Some i ->
  getInstanceForWindow E opt_window σ = (i, σ).
Proof.
  intros Hok Hu Hi.
  destruct (getInstanceForWindow_spec E opt_window σ Hok) as (_ & _ & _ & Hcase).
  rewrite (getUid_known _ u σ Hok Hu) in Hcase. cbn [fst snd] in Hcase.
  destruct Hcase as [(Hi' & Hσ') | (Hnone & _)]; [| congruence].
  destruct (getInstanceForWindow E opt_window σ) as [i' σ'].
  cbn [fst snd] in *. congruence.
Qed.

(** C3.  In every world a page can be in, [getInstanceForWindow] returns a
    monitor that is allocated and that the registry holds under the uid of
    the window, and leaves the entries of all other windows as they were.
    If the window had a monitor registered, that one is returned and no
    monitor is made; if it had none, the monitor returned is a new one,
    undisposed, watching the window, with the window's size recorded, and
    the monitors that existed are untouched.  Whatever happens afterwards
    (calls for other windows, constructions, disposals, re-checks, the
    host's moves), as long as the monitor of the window is not removed, a
    later call for the window returns the same monitor and changes
    nothing, and a call for a different window returns a different
    monitor.  Two entries of the registry whose monitors watch the same
    window are one and the same entry. *)
Theorem getInstanceForWindow_one_per_window (E : Env) (σ : World) :
  reachable E σ ->
  (forall opt_window,
     let w := default (global_window E) opt_window in
     let u := fst (getUid w σ) in
     let i := fst (getInstanceForWindow E opt_window σ) in
     let σ1 := snd (getInstanceForWindow E opt_window σ) in
     uid_ σ1 !! w = Some u
     /\ windowInstanceMap_ σ1 !! u = Some i
     /\ (forall u', u' <> u ->
           windowInstanceMap_ σ1 !! u' = windowInstanceMap_ σ !! u')
     /\ is_Some (monitors σ1 !! i)
     /\ match windowInstanceMap_ σ !! u with
        | Some j => i = j /\ monitors σ1 = monitors σ /\ trace σ1 = trace σ
        | None =>
            i = length (monitors σ)
            /\ monitors σ !! i = None
            /\ (forall j mj, monitors σ !! j = Some mj ->
                  monitors σ1 !! j = Some mj)
            /\ size_value i σ1 = Some (viewport σ w)
            /\ exists m, monitors σ1 !! i = Some m
                         /\ disposed_ m = false /\ window m = Some w
        end)
  /\ (forall opt_window acts,
        existsb (removes_window E (default (global_window E) opt_window)) acts
        = false ->
        let σ2 := run E acts (snd (getInstanceForWindow E opt_window σ)) in
        fst (getInstanceForWindow E opt_window σ2)
          = fst (getInstanceForWindow E opt_window σ)
        /\ snd (getInstanceForWindow E opt_window σ2) = σ2)
  /\ (forall opt_window1 opt_window2 acts,
        default (global_window E) opt_window1
          <> default (global_window E) opt_window2 ->
        existsb (removes_window E (default (global_window E) opt_window1)) acts
        = false ->
        fst (getInstanceForWindow E opt_window2
               (run E acts (snd (getInstanceForWindow E opt_window1 σ))))
          <> fst (getInstanceForWindow E opt_window1 σ))
  /\ (forall u1 u2 i1 i2 m1 m2 w,
        windowInstanceMap_ σ !! u1 = Some i1 ->
        windowInstanceMap_ σ !! u2 = Some i2 ->
        monitors σ !! i1 = Some m1 -> monitors σ !! i2 = Some m2 ->
        window m1 = Some w -> window m2 = Some w ->
        u1 = u2 /\ i1 = i2).
Proof.
  intros Hreach. pose proof (reachable_registry_ok E σ Hreach) as Hok.
  split; [| split; [| split]].
  - intros ow. cbv zeta.
    destruct (getInstanceForWindow_spec E ow σ Hok) as (Hok1 & Hu & Hi & Hcase).
    destruct (getUid_frame (default (global_window E) ow) σ)
      as (Hsz0 & Hmon0 & Hreg0 & _ & _ & Hvp0 & _ & _ & Htr0).
    set (w := default (global_window E) ow) in *.
    set (u := fst (getUid w σ)) in *.
    set (σ0 := snd (getUid w σ)) in *.
    set (i := fst (getInstanceForWindow E ow σ)) in *.
    set (σ1 := snd (getInstanceForWindow E ow σ)) in *.
    split; [exact Hu |]. split; [exact Hi |].
    pose proof (reg_alloc σ1 Hok1 u i Hi) as Hlt.
    split; [| split; [by apply lookup_lt_is_Some_2 |]].
    + intros u' Hne.
      destruct Hcase as [(_ & ->) | (_ & _ & _ & ->)].
      * by rewrite Hreg0.
      * simpl. by rewrite lookup_insert_ne.
    + destruct Hcase as [(Hsome & Hσ1) | (Hnone & Hlen & Hfst & Hσ1)].
      * rewrite Hsome. rewrite Hσ1. done.
      * rewrite Hnone.
        destruct (new_ViewportSizeMonitor_spec E (Some w) σ0)
          as (_ & Hmon & Hsz & _).
        simpl default in Hmon, Hsz.
        assert (Hm1 : monitors σ1 = monitors σ ++
                  [mkMonitor false [] (Some (nextListenerKey σ0)) (Some w)
                     (Some (length (sizes σ)))
                     (if WEBKIT E && WINDOWS E
                         || OPERA E
                            && negb (bool_decide (win_self E w = win_top E w))
                      then Some (nextInterval σ0) else None)]).
        { rewrite Hσ1. simpl monitors. by rewrite Hmon, Hmon0, Hsz0. }
        assert (Hs1 : sizes σ1 = sizes σ ++ [viewport σ w]).
        { rewrite Hσ1. simpl sizes. by rewrite Hsz, Hsz0, Hvp0. }
        assert (Hmi : monitors σ1 !! i
                      = Some (mkMonitor false [] (Some (nextListenerKey σ0))
                                (Some w) (Some (length (sizes σ)))
                                (if WEBKIT E && WINDOWS E
                                    || OPERA E
                                       && negb (bool_decide
                                                  (win_self E w = win_top E w))
                                 then Some (nextInterval σ0) else None))).
        { rewrite Hm1, Hlen. apply lookup_snoc. }
        split; [exact Hlen |].
        split; [rewrite Hlen; by apply lookup_ge_None_2 |].
        split; [| split].
        -- intros j mj Hj. rewrite Hm1. by apply lookup_app_l_Some.
        -- rewrite (size_value_lookup _ _ _ Hmi). simpl. rewrite Hs1.
           apply lookup_snoc.
        -- eexists. split; [exact Hmi | done].
  - intros ow acts Hacts. cbv zeta.
    destruct (getInstanceForWindow_spec E ow σ Hok) as (Hok1 & Hu & Hi & _).
    set (w := default (global_window E) ow) in *.
    destruct (registered_run E acts w _ _ _ Hok1 Hu Hi Hacts) as [Hu2 Hi2].
    pose proof (registry_ok_run E acts _ Hok1) as Hok2.
    by rewrite (getInstanceForWindow_registered E ow _ _ _ Hok2 Hu2 Hi2).
  - intros ow1 ow2 acts Hne Hacts.
    destruct (getInstanceForWindow_spec E ow1 σ Hok) as (Hok1 & Hu1 & Hi1 & _).
    set (w1 := default (global_window E) ow1) in *.
    set (w2 := default (global_window E) ow2) in *.
    set (i1 := fst (getInstanceForWindow E ow1 σ)) in *.
    set (u1 := fst (getUid w1 σ)) in *.
    destruct (registered_run E acts w1 _ _ _ Hok1 Hu1 Hi1 Hacts) as [Hu Hi].
    pose proof (registry_ok_run E acts _ Hok1) as Hok2.
    set (σ2 := run E acts (snd (getInstanceForWindow E ow1 σ))) in *.
    destruct (getInstanceForWindow_spec E ow2 σ2 Hok2) as (_ & _ & _ & Hcase).
    fold w2 in Hcase.
    pose proof (getUid_distinct w1 w2 u1 σ2 Hok2 Hne Hu) as Hdist.
    pose proof (reg_alloc σ2 Hok2 u1 i1 Hi) as Hlt.
    destruct Hcase as [(Hi2 & _) | (_ & Hi2 & _)].
    + intros Heq. rewrite Heq in Hi2.
      by apply Hdist, (reg_inj σ2 Hok2 _ _ i1).
    + rewrite Hi2. lia.
  - intros u1 u2 i1 i2 m1 m2 w H1 H2 Hm1 Hm2 Hw1 Hw2.
    pose proof (reg_window σ Hok u1 i1 m1 w H1 Hm1 Hw1) as Hu1.
    pose proof (reg_window σ Hok u2 i2 m2 w H2 Hm2 Hw2) as Hu2.
    assert (u1 = u2) as -> by congruence.
    split; [done | congruence].
Qed.

Lemma getInstanceForWindow_one_per_window_witness :
  let acts := [GetInstanceForWindow (Some 2%positive);
               HostResize 1%positive (mkSize 800 600);
               CheckForSizeChange 0;
               RemoveInstanceForWindow (Some 2%positive);
               New None;
               Dispose 0] in
  fst (getInstanceForWindow plain_env None
         (run plain_env acts (snd (getInstanceForWindow plain_env None page))))
  = 0
  /\ fst (getInstanceForWindow plain_env (Some 2%positive)
            (run plain_env acts
               (snd (getInstanceForWindow plain_env None page)))) <> 0
  /\ is_Some (monitors (snd (getInstanceForWindow plain_env None page)) !! 0).
Proof.
  intros acts.
  assert (Hreach : reachable plain_env page)
    by (exists (mkSize 1024 768), []; reflexivity).
  destruct (getInstanceForWindow_one_per_window plain_env page Hreach)
    as (Hret & Hsame & Hdiff & _).
  split; [| split].
  - apply (Hsame None acts). reflexivity.
  - apply (Hdiff None (Some 2%positive) acts).
    + simpl. discriminate.
    + reflexivity.
  - destruct (Hret None) as (_ & _ & _ & Hm & _). exact Hm.
Defined.

Lemma length_monitors_dispose this σ :
  length (monitors (dispose this σ)) = length (monitors σ).
Proof.
  unfold dispose.
  destruct (monitors σ !! this) as [m |] eqn:Hm; [| done].
  destruct (disposed_ m); [done |].
  set (σ0 := update this (set_disposed_ true) σ).
  assert (Hm0 : monitors σ0 !! this = Some (set_disposed_ true m)).
  { unfold σ0. rewrite lookup_update. by rewrite Hm. }
  destruct (disposeInternal_spec this σ0 _ Hm0) as (Hmon & _).
  rewrite Hmon, length_insert. unfold σ0. simpl. apply length_alter.
Qed.

Lemma dispose_disposes this σ m :
  monitors σ !! this = Some m ->
  exists m', monitors (dispose this σ) !! this = Some m'
             /\ disposed_ m' = true
             /\ (disposed_ m = false ->
                 m' = mkMonitor true [] None None None None).
Proof.
  intros Hm. destruct (disposed_ m) eqn:Hd.
  - exists m. unfold dispose. rewrite Hm, Hd. done.
  - destruct (dispose_clears_fields this σ m Hm Hd) as [Hm1 _]. eauto.
Qed.

(** C5.  In every world a page can be in, let [u] be the uid of the
    window.  [removeInstanceForWindow] deletes the registry entry under
    [u].  If a monitor was registered there, it has been disposed (every
    field null if it was not disposed before) and the world is otherwise
    the one [dispose] leaves.  If none was registered, the world is the
    same but for the uid the window may have been given, and entirely the
    same when the window had its uid already.  A later
    [getInstanceForWindow] for the window returns a monitor that did not
    exist before, so not the one removed: undisposed, watching the window,
    and registered under [u]. *)
Theorem removeInstanceForWindow_disposes_and_forgets
    (E : Env) (opt_window : option WindowRef) (σ : World) :
  reachable E σ ->
  let w := default (global_window E) opt_window in
  let u := fst (getUid w σ) in
  let σ' := removeInstanceForWindow E opt_window σ in
  windowInstanceMap_ σ' = delete u (windowInstanceMap_ σ)
  /\ windowInstanceMap_ σ' !! u = None
  /\ (forall i m,
        windowInstanceMap_ σ !! u = Some i -> monitors σ !! i = Some m ->
        σ' = with_windowInstanceMap_ (delete u (windowInstanceMap_ σ))
               (dispose i (snd (getUid w σ)))
        /\ exists m', monitors σ' !! i = Some m'
                      /\ disposed_ m' = true
                      /\ (disposed_ m = false ->
                          m' = mkMonitor true [] None None None None))
  /\ (windowInstanceMap_ σ !! u = None ->
        same_but_uids σ σ' /\ (is_Some (uid_ σ !! w) -> σ' = σ))
  /\ (let i' := fst (getInstanceForWindow E opt_window σ') in
      let σ'' := snd (getInstanceForWindow E opt_window σ') in
      i' = length (monitors σ)
      /\ monitors σ !! i' = None
      /\ (forall i, windowInstanceMap_ σ !! u = Some i -> i' <> i)
      /\ windowInstanceMap_ σ'' !! u = Some i'
      /\ exists m', monitors σ'' !! i' = Some m'
                    /\ disposed_ m' = false /\ window m' = Some w).
Proof.
  intros Hreach w. cbv zeta.
  pose proof (reachable_registry_ok E σ Hreach) as Hok.
  pose proof (registry_ok_removeInstanceForWindow E opt_window σ Hok) as Hok'.
  pose proof (registry_ok_getUid w σ Hok) as Hok1.
  destruct (getUid_spec w σ Hok) as (Hu & Hcase).
  unfold removeInstanceForWindow in *. fold w in Hok' |- *.
  destruct (getUid w σ) as [u σ1] eqn:Hg. cbn [fst snd] in *.
  assert (Hsame1 : windowInstanceMap_ σ1 = windowInstanceMap_ σ
                   /\ monitors σ1 = monitors σ
                   /\ σ1 = with_uid (uid_ σ1) (uidCounter_ σ1) σ).
  { destruct Hcase as [(_ & ->) | (_ & _ & ->)]; [| done].
    repeat split. by destruct σ. }
  destruct Hsame1 as (Hreg1 & Hmon1 & Hσ1).
  pose proof (keeps_registry_goog_dispose (windowInstanceMap_ σ1 !! u) σ1)
    as Hkeep.
  set (σ2 := goog_dispose (windowInstanceMap_ σ1 !! u) σ1) in *.
  assert (Hreg2 : windowInstanceMap_ σ2 = windowInstanceMap_ σ).
  { by rewrite (keeps_map _ _ Hkeep). }
  assert (Hlen2 : length (monitors σ2) = length (monitors σ)).
  { unfold σ2. rewrite <- Hmon1.
    destruct (windowInstanceMap_ σ1 !! u); simpl;
      [apply length_monitors_dispose | done]. }
  set (σ' := with_windowInstanceMap_ (delete u (windowInstanceMap_ σ2)) σ2) in *.
  assert (Hu' : uid_ σ' !! w = Some u).
  { simpl. by rewrite (keeps_uid _ _ Hkeep). }
  assert (Hnone' : windowInstanceMap_ σ' !! u = None).
  { simpl. apply lookup_delete_eq. }
  split; [simpl; by rewrite Hreg2 |].
  split; [exact Hnone' |].
  split; [| split].
  - intros i m Hi Hm.
    assert (Hσ2 : σ2 = dispose i σ1).
    { unfold σ2. by rewrite Hreg1, Hi. }
    split.
    + unfold σ'. by rewrite Hreg2, Hσ2.
    + rewrite <- Hmon1 in Hm.
      destruct (dispose_disposes i σ1 m Hm) as (m' & Hm' & Hd & Hall).
      exists m'. simpl. rewrite Hσ2. done.
  - intros Hnone.
    assert (Hσ2 : σ2 = σ1).
    { unfold σ2. by rewrite Hreg1, Hnone. }
    assert (Hσ' : σ' = σ1).
    { unfold σ'. rewrite Hσ2, Hreg1, delete_id by done.
      rewrite <- Hreg1. by destruct σ1. }
    split.
    + unfold same_but_uids. rewrite Hσ'. exact Hσ1.
    + intros [u0 Hu0]. rewrite Hσ'.
      destruct Hcase as [(_ & ->) | (Hnone0 & _)]; congruence.
  - destruct (getInstanceForWindow_spec E opt_window σ' Hok')
      as (_ & _ & Hi' & Hcase').
    fold w in Hi', Hcase'.
    rewrite (getUid_known w u σ' Hok' Hu') in Hi', Hcase'.
    cbn [fst snd] in Hi', Hcase'.
    destruct Hcase' as [(Hsome & _) | (_ & Hnew & Hfst & Hσ'')];
      [congruence |].
    assert (Heq : fst (getInstanceForWindow E opt_window σ')
                  = length (monitors σ)).
    { rewrite Hnew. simpl. exact Hlen2. }
    split; [exact Heq |].
    split; [rewrite Heq; by apply lookup_ge_None_2 |].
    split; [| split; [exact Hi' |]].
    + intros i Hi. rewrite Heq.
      pose proof (reg_alloc σ Hok u i Hi). lia.
    + destruct (new_ViewportSizeMonitor_spec E (Some w) σ')
        as (Hthis & Hmon & _).
      rewrite Hσ''. simpl monitors. rewrite Hmon, Hfst, Hthis.
      eexists. split; [apply lookup_snoc | done].
Qed.

Lemma removeInstanceForWindow_disposes_and_forgets_witness :
  let σ := snd (getInstanceForWindow plain_env None page) in
  let σ' := removeInstanceForWindow plain_env None σ in
  windowInstanceMap_ σ' !! 1%N = None
  /\ fst (getInstanceForWindow plain_env None σ') = 1
  /\ same_but_uids page (removeInstanceForWindow plain_env None page).
Proof.
  intros σ σ'.
  assert (Hreach : reachable plain_env σ)
    by (exists (mkSize 1024 768), [GetInstanceForWindow None]; reflexivity).
  assert (Hreach0 : reachable plain_env page)
    by (exists (mkSize 1024 768), []; reflexivity).
  destruct (removeInstanceForWindow_disposes_and_forgets plain_env None σ
              Hreach)
    as (_ & Hnone & _ & _ & Hnew & _).
  destruct (removeInstanceForWindow_disposes_and_forgets plain_env None page
              Hreach0)
    as (_ & _ & _ & Hnoop & _).
  split; [exact Hnone |]. split; [exact Hnew |].
  apply Hnoop. reflexivity.
Defined.

(** ** The scenarios of the specification *)

(** A monitor on a window of 1024 by 768: the size is recorded and nothing
    is notified; a native resize event without a change of size notifies
    nothing; after the host has made the window 800 by 600, the event
    notifies once and the recorded size is the new one. *)
Example scenario_resize :
  let σ1 := snd (new_ViewportSizeMonitor plain_env None page) in
  let σ2 := deliver plain_env 1%positive σ1 in
  let σ3 := deliver plain_env 1%positive
              (host_resize 1%positive (mkSize 800 600) σ2) in
  getSize_value 0 σ1 = Some (mkSize 1024 768)
  /\ notifications σ1 = []
  /\ notifications σ2 = []
  /\ notifications σ3 = [Dispatched 0 RESIZE []]
  /\ getSize_value 0 σ3 = Some (mkSize 800 600).
Proof. vm_compute. repeat split. Qed.

(** In a browser that needs polling the constructor starts the timer, and
    five firings with the viewport unchanged notify nothing. *)
Example scenario_polling :
  let σ1 := snd (new_ViewportSizeMonitor polling_env None page) in
  intervals σ1 !! 1%positive = Some (0, 500%Z)
  /\ notifications (ticks polling_env 1%positive 5 σ1) = []
  /\ intervals (snd (new_ViewportSizeMonitor plain_env None page)) = ∅.
Proof. vm_compute. repeat split. Qed.

(** After disposal a timer that was cleared and a listener that was
    removed call nothing. *)
Example scenario_disposed :
  let σ1 := dispose 0 (snd (new_ViewportSizeMonitor polling_env None page)) in
  tick polling_env 1%positive σ1 = σ1
  /\ deliver polling_env 1%positive σ1 = σ1
  /\ listeners_ σ1 = ∅ /\ intervals σ1 = ∅.
Proof. vm_compute. repeat split. Qed.

(** A handler that subscribes twice is entered once: the next
    notification calls it once, and it finds the new size recorded. *)
Example scenario_subscribe_twice :
  let σ1 := subscribe 0 7 (subscribe 0 7
              (snd (new_ViewportSizeMonitor plain_env None page))) in
  let σ2 := checkForSizeChange plain_env 0
              (host_resize 1%positive (mkSize 800 600) σ1) in
  (subscribers_ <$> monitors σ1 !! 0) = Some [7]
  /\ trace σ2 = [Handled 7 0 RESIZE (Some (mkSize 800 600));
                 Dispatched 0 RESIZE [7];
                 Measured 1%positive] ++ trace σ1.
Proof. vm_compute. repeat split. Qed.

(** ** Further properties: de-duplication *)

(** X11.  A monitor watching [w] holds the recorded size [s] and is
    re-checked once after each of the viewport sizes [ms].  It sends one
    [RESIZE] notification, to its subscribers, for each size of the run
    that differs from the size before it, and no other; in the end the
    recorded size is the last size of the run. *)
Theorem checks_notify_once_per_change
    (E : Env) (this : MonRef) (w : WindowRef) (ms : list Size) (s : Size)
    (σ : World) (m : Monitor) :
  monitors σ !! this = Some m ->
  window m = Some w ->
  size_value this σ = Some s ->
  let σ' := checks E this w ms σ in
  notifications σ'
  = replicate (changes s ms) (Dispatched this RESIZE (subscribers_ m))
    ++ notifications σ
  /\ size_value this σ' = Some (default s (last ms)).
Proof.
  intros Hm Hw Hs. cbv zeta. revert s σ m Hm Hw Hs.
  induction ms as [| x ms IH]; intros s σ m Hm Hw Hs; [done |].
  cbn [checks changes].
  set (σ0 := host_resize w x σ).
  assert (Hm0 : monitors σ0 !! this = Some m) by exact Hm.
  assert (Hs0 : size_value this σ0 = Some s) by exact Hs.
  assert (Hv0 : viewport σ0 w = x) by apply viewport_host_resize.
  assert (Hlast : default s (last (x :: ms)) = default x (last ms)).
  { clear. revert x s. induction ms as [| y ms IHms]; intros x s; [done |].
    rewrite last_cons_cons. rewrite (IHms y s). by rewrite (IHms y x). }
  rewrite Hlast.
  destruct (decide (x = s)) as [-> | Hne].
  - rewrite <- Hv0 in Hs0.
    destruct (checkForSizeChange_same_frame E this σ0 m w Hm0 Hw Hs0)
      as (Hmon & Hnot & Hsv & _).
    destruct (IH s (checkForSizeChange E this σ0) m) as [Hn' Hs'].
    + by rewrite Hmon.
    + done.
    + by rewrite Hsv, Hs0, Hv0.
    + by rewrite Hn', Hnot.
  - assert (Hne' : s <> viewport σ0 w) by congruence.
    destruct (checkForSizeChange_changed_frame E this σ0 m w s Hm0 Hw Hs0 Hne')
      as (_ & Hnot & Hsv).
    pose proof (checkForSizeChange_changed E this σ0 m w s Hm0 Hw Hs0 Hne')
      as Heq.
    set (σ1 := checkForSizeChange E this σ0) in *.
    assert (Hm1 : monitors σ1 !! this
                  = Some (set_size (Some (length (sizes σ0))) m)).
    { rewrite Heq. unfold dispatchEvent. simpl monitors.
      by rewrite list_lookup_alter_eq, Hm. }
    destruct (IH x σ1 _ Hm1 Hw) as [Hn' Hs'].
    + by rewrite Hsv, Hv0.
    + split; [| exact Hs'].
      rewrite Hn', Hnot. simpl subscribers_.
      change (1 + changes x ms) with (S (changes x ms)).
      rewrite replicate_S_end, <- app_assoc. done.
Qed.

Lemma checks_notify_once_per_change_witness :
  let σ := snd (new_ViewportSizeMonitor plain_env None page) in
  notifications
    (checks plain_env 0 1%positive
       [mkSize 1024 768; mkSize 800 600; mkSize 800 600; mkSize 1024 768] σ)
  = [Dispatched 0 RESIZE []; Dispatched 0 RESIZE []].
Proof.
  intros σ.
  apply (checks_notify_once_per_change plain_env 0 1%positive
           [mkSize 1024 768; mkSize 800 600; mkSize 800 600; mkSize 1024 768]
           (mkSize 1024 768) σ
           (mkMonitor false [] (Some 1%positive) (Some 1%positive) (Some 0) None));
    reflexivity.
Defined.

(** ** Further properties: disposal *)

(** The world a first disposal leaves, component by component. *)
Lemma dispose_spec this σ m :
  monitors σ !! this = Some m -> disposed_ m = false ->
  let σ1 := dispose this σ in
  monitors σ1 = <[this := mkMonitor true [] None None None None]> (monitors σ)
  /\ listeners_ σ1 =
       match listenerKey_ m with
       | Some key => delete key (listeners_ σ)
       | None => listeners_ σ
       end
  /\ intervals σ1 =
       match windowSizePollInterval m with
       | Some id => delete id (intervals σ)
       | None => intervals σ
       end
  /\ trace σ1 =
       match windowSizePollInterval m with
       | Some id => [IntervalCleared id]
       | None => []
       end ++
       match listenerKey_ m with
       | Some key => [Unlistened key]
       | None => []
       end ++ trace σ
  /\ sizes σ1 = sizes σ
  /\ viewport σ1 = viewport σ
  /\ nextListenerKey σ1 = nextListenerKey σ
  /\ nextInterval σ1 = nextInterval σ.
Proof.
  intros Hm Hd. cbv zeta. rewrite (dispose_fresh this σ m Hm Hd).
  set (σ0 := update this (set_disposed_ true) σ).
  assert (Hm0 : monitors σ0 !! this = Some (set_disposed_ true m)).
  { unfold σ0. rewrite lookup_update. by rewrite Hm. }
  destruct (disposeInternal_spec this σ0 _ Hm0)
    as (Hmon & Hlis & Hint & Htr & Hsz & _ & _ & _ & Hnk & Hvp & Hni).
  repeat split; try assumption.
  rewrite Hmon. apply list_eq. intros j.
  destruct (decide (this = j)) as [<- | Hne].
  - rewrite !list_lookup_insert_eq; [done | |].
    + by apply lookup_lt_Some in Hm.
    + by apply lookup_lt_Some in Hm0.
  - rewrite !list_lookup_insert_ne by done. by apply lookup_update_ne.
Qed.

Lemma notifications_dispose this σ :
  notifications (dispose this σ) = notifications σ.
Proof.
  destruct (monitors σ !! this) as [m |] eqn:Hm;
    [| by unfold dispose; rewrite Hm].
  destruct (disposed_ m) eqn:Hd; [by unfold dispose; rewrite Hm, Hd |].
  pose proof (dispose_spec this σ m Hm Hd) as (_ & _ & _ & Htr & _).
  rewrite app_assoc in Htr.
  eapply notifications_app_silent; [| exact Htr].
  by destruct (windowSizePollInterval m), (listenerKey_ m).
Qed.

(** X12.  Once a monitor is disposed, the host's callbacks no longer reach
    it: delivering a native event to the listener key it had, and firing
    the timer it had, leave the world as it is. *)
Theorem disposed_monitor_gets_no_callbacks
    (E : Env) (this : MonRef) (σ : World) (m : Monitor) :
  monitors σ !! this = Some m ->
  disposed_ m = false ->
  let σ1 := dispose this σ in
  (forall key, listenerKey_ m = Some key -> deliver E key σ1 = σ1)
  /\ (forall id, windowSizePollInterval m = Some id -> tick E id σ1 = σ1).
Proof.
  intros Hm Hd σ1.
  destruct (dispose_spec this σ m Hm Hd) as (_ & Hlis & Hint & _).
  fold σ1 in Hlis, Hint. split.
  - intros key Hk. unfold deliver.
    by rewrite Hlis, Hk, lookup_delete_eq.
  - intros id Hi. unfold tick.
    by rewrite Hint, Hi, lookup_delete_eq.
Qed.

Lemma disposed_monitor_gets_no_callbacks_witness :
  let σ1 := dispose 0 (snd (new_ViewportSizeMonitor polling_env None page)) in
  deliver polling_env 1%positive σ1 = σ1
  /\ tick polling_env 1%positive σ1 = σ1.
Proof.
  intros σ1.
  destruct (disposed_monitor_gets_no_callbacks polling_env 0
              (snd (new_ViewportSizeMonitor polling_env None page))
              (mkMonitor false [] (Some 1%positive) (Some 1%positive)
                 (Some 0) (Some 1%positive)) eq_refl eq_refl)
    as [Hdel Htick].
  split; [by apply Hdel | by apply Htick].
Defined.

(** X13.  [checkForSizeChange] has no guard for a disposed monitor.
    Called on one, it measures the global window (the monitor's own window
    is null), records that size again, so that [getSize] is no longer
    null, and dispatches a [RESIZE] event that reaches no subscriber; the
    monitor stays disposed and without a window. *)
Theorem checkForSizeChange_after_dispose
    (E : Env) (this : MonRef) (σ : World) (m : Monitor) :
  monitors σ !! this = Some m ->
  disposed_ m = false ->
  let σ1 := dispose this σ in
  let σ2 := checkForSizeChange E this σ1 in
  trace σ2
  = Dispatched this RESIZE [] :: Measured (global_window E) :: trace σ1
  /\ notifications σ2 = Dispatched this RESIZE [] :: notifications σ
  /\ size_value this σ2 = Some (viewport σ (global_window E))
  /\ fst (getSize this σ2) <> None
  /\ monitors σ2 !! this
     = Some (mkMonitor true [] None None (Some (length (sizes σ))) None).
Proof.
  intros Hm Hd σ1 σ2.
  destruct (dispose_spec this σ m Hm Hd) as (Hmon & _ & _ & _ & Hsz & Hvp & _).
  fold σ1 in Hmon, Hsz, Hvp.
  assert (Hm1 : monitors σ1 !! this = Some (mkMonitor true [] None None None None)).
  { rewrite Hmon. apply list_lookup_insert_eq. by apply lookup_lt_Some in Hm. }
  assert (Heq : σ2 = dispatchEvent this RESIZE
                       (update this (set_size (Some (length (sizes σ1))))
                          (measured (global_window E) σ1))).
  { unfold σ2, checkForSizeChange.
    rewrite (field_lookup window this σ1 _ Hm1). simpl window.
    change (getViewportSize E None σ1)
      with (length (sizes σ1), measured (global_window E) σ1).
    cbv iota beta.
    rewrite (field_lookup size this (measured (global_window E) σ1) _ Hm1).
    simpl size. unfold Size_equals.
    destruct (decide (Some (length (sizes σ1)) = None)) as [Habs | _];
      [discriminate |].
    cbn [mbind option_bind].
    by destruct (sizes (measured (global_window E) σ1) !! length (sizes σ1)). }
  assert (Hm2 : monitors σ2 !! this
                = Some (mkMonitor true [] None None (Some (length (sizes σ))) None)).
  { rewrite Heq. unfold dispatchEvent. simpl monitors.
    by rewrite list_lookup_alter_eq, Hm1, Hsz. }
  assert (Hsv : size_value this σ2 = Some (viewport σ (global_window E))).
  { rewrite (size_value_lookup _ _ _ Hm2). simpl. rewrite Heq. simpl.
    rewrite Hsz, Hvp. apply lookup_snoc. }
  assert (Htr : trace σ2
                = Dispatched this RESIZE [] :: Measured (global_window E)
                    :: trace σ1).
  { rewrite Heq. unfold dispatchEvent. simpl monitors.
    by rewrite list_lookup_alter_eq, Hm1. }
  repeat split; try assumption.
  - unfold notifications. rewrite Htr. simpl.
    fold (notifications σ1). unfold σ1. by rewrite notifications_dispose.
  - destruct (getSize_cases this σ2) as [(_ & _ & Hnone) | (r & x & _ & _ & -> & _)];
      [congruence | done].
Qed.

Lemma checkForSizeChange_after_dispose_witness :
  let σ := snd (new_ViewportSizeMonitor plain_env None page) in
  size_value 0 (checkForSizeChange plain_env 0 (dispose 0 σ))
  = Some (mkSize 1024 768).
Proof.
  intros σ.
  apply (checkForSizeChange_after_dispose plain_env 0 σ
           (mkMonitor false [] (Some 1%positive) (Some 1%positive)
              (Some 0) None) eq_refl eq_refl).
Defined.

(** X14.  [dispose] does not touch the registry: after the monitor that
    [getInstanceForWindow] returned has been disposed, the next call for
    the window returns that same, disposed monitor and changes nothing. *)
Theorem dispose_keeps_registration
    (E : Env) (opt_window : option WindowRef) (σ : World) :
  reachable E σ ->
  let i := fst (getInstanceForWindow E opt_window σ) in
  let σ2 := dispose i (snd (getInstanceForWindow E opt_window σ)) in
  fst (getInstanceForWindow E opt_window σ2) = i
  /\ snd (getInstanceForWindow E opt_window σ2) = σ2
  /\ exists m, monitors σ2 !! i = Some m /\ disposed_ m = true.
Proof.
  intros Hreach. cbv zeta.
  pose proof (reachable_registry_ok E σ Hreach) as Hok.
  destruct (getInstanceForWindow_spec E opt_window σ Hok) as (Hok1 & Hu & Hi & _).
  set (w := default (global_window E) opt_window) in *.
  set (σ1 := snd (getInstanceForWindow E opt_window σ)) in *.
  set (i := fst (getInstanceForWindow E opt_window σ)) in *.
  set (u := fst (getUid w σ)) in *.
  pose proof (keeps_registry_dispose i σ1) as Hkeep.
  pose proof (registry_ok_keeps _ _ Hok1 Hkeep) as Hok2.
  set (σ2 := dispose i σ1) in *.
  assert (Hu2 : uid_ σ2 !! w = Some u) by (by rewrite (keeps_uid _ _ Hkeep)).
  assert (Hi2 : windowInstanceMap_ σ2 !! u = Some i)
    by (by rewrite (keeps_map _ _ Hkeep)).
  destruct (getInstanceForWindow_spec E opt_window σ2 Hok2) as (_ & _ & _ & Hcase).
  fold w in Hcase. rewrite (getUid_known w u σ2 Hok2 Hu2) in Hcase.
  simpl in Hcase.
  destruct Hcase as [(Hi' & Hσ') | (Hnone & _)]; [| congruence].
  split; [congruence |]. split; [exact Hσ' |].
  pose proof (reg_alloc σ1 Hok1 u i Hi) as Hlt.
  destruct (lookup_lt_is_Some_2 _ _ Hlt) as [m Hm].
  destruct (dispose_disposes i σ1 m Hm) as (m' & Hm' & Hd & _).
  by exists m'.
Qed.

Lemma dispose_keeps_registration_witness :
  fst (getInstanceForWindow plain_env None
         (dispose 0 (snd (getInstanceForWindow plain_env None page)))) = 0.
Proof.
  assert (Hreach : reachable plain_env page)
    by (exists (mkSize 1024 768), []; reflexivity).
  exact (proj1 (dispose_keeps_registration plain_env None page Hreach)).
Defined.

(** ** Further properties: the registry and the constructor *)

Lemma removeInstanceForWindow_forgets E opt_window σ :
  registry_ok σ ->
  let w := default (global_window E) opt_window in
  let σ' := removeInstanceForWindow E opt_window σ in
  registry_ok σ'
  /\ uid_ σ' !! w = Some (fst (getUid w σ))
  /\ windowInstanceMap_ σ' !! fst (getUid w σ) = None.
Proof.
  intros Hok w. cbv zeta.
  pose proof (registry_ok_removeInstanceForWindow E opt_window σ Hok) as Hok'.
  destruct (getUid_spec w σ Hok) as (Hu & _).
  unfold removeInstanceForWindow in *. fold w in Hok' |- *.
  destruct (getUid w σ) as [u σ1]. cbn [fst snd] in *.
  pose proof (keeps_registry_goog_dispose (windowInstanceMap_ σ1 !! u) σ1)
    as Hkeep.
  split; [exact Hok' |]. split.
  - simpl. by rewrite (keeps_uid _ _ Hkeep).
  - simpl. apply lookup_delete_eq.
Qed.

(** X15.  In every world a page can be in, removing the monitor of a
    window a second time changes nothing. *)
Theorem removeInstanceForWindow_idempotent
    (E : Env) (opt_window : option WindowRef) (σ : World) :
  reachable E σ ->
  removeInstanceForWindow E opt_window
    (removeInstanceForWindow E opt_window σ)
  = removeInstanceForWindow E opt_window σ.
Proof.
  intros Hreach. pose proof (reachable_registry_ok E σ Hreach) as Hok.
  destruct (removeInstanceForWindow_forgets E opt_window σ Hok)
    as (Hok' & Hu & Hnone).
  set (σ' := removeInstanceForWindow E opt_window σ) in *.
  set (w := default (global_window E) opt_window) in *.
  set (u := fst (getUid w σ)) in *.
  unfold removeInstanceForWindow at 1. fold w.
  rewrite (getUid_known w u σ' Hok' Hu), Hnone. simpl.
  rewrite delete_id by done. by destruct σ'.
Qed.

Lemma removeInstanceForWindow_idempotent_witness :
  let σ := snd (getInstanceForWindow polling_env None page) in
  removeInstanceForWindow polling_env None
    (removeInstanceForWindow polling_env None σ)
  = removeInstanceForWindow polling_env None σ.
Proof.
  intros σ. apply removeInstanceForWindow_idempotent.
  exists (mkSize 1024 768), [GetInstanceForWindow None]. reflexivity.
Defined.

Lemma new_ViewportSizeMonitor_next E opt_window σ :
  let w := default (global_window E) opt_window in
  let polling :=
    WEBKIT E && WINDOWS E
    || OPERA E && negb (bool_decide (win_self E w = win_top E w)) in
  let σ' := snd (new_ViewportSizeMonitor E opt_window σ) in
  nextListenerKey σ' = Pos.succ (nextListenerKey σ)
  /\ nextInterval σ' =
       (if polling then Pos.succ (nextInterval σ) else nextInterval σ).
Proof.
  intros w polling. cbv zeta.
  unfold new_ViewportSizeMonitor, alloc_monitor, update, field,
    isPollingRequired_, getViewportSize, alloc_size, listen, setInterval,
    log, field.
  heap_simpl. fold w. fold polling.
  destruct polling; heap_simpl; auto.
Qed.

(** X16.  The constructor itself does not consult the registry: two
    constructions for the same window give two different monitors, each
    with a listener of its own for [RESIZE] on that window, and the
    registry is as it was. *)
Theorem constructor_does_not_deduplicate
    (E : Env) (opt_window : option WindowRef) (σ : World) :
  let w := default (global_window E) opt_window in
  let i1 := fst (new_ViewportSizeMonitor E opt_window σ) in
  let σ1 := snd (new_ViewportSizeMonitor E opt_window σ) in
  let i2 := fst (new_ViewportSizeMonitor E opt_window σ1) in
  let σ2 := snd (new_ViewportSizeMonitor E opt_window σ1) in
  i1 <> i2
  /\ listeners_ σ2 !! nextListenerKey σ = Some (w, RESIZE, i1)
  /\ listeners_ σ2 !! Pos.succ (nextListenerKey σ) = Some (w, RESIZE, i2)
  /\ field listenerKey_ i1 σ2 = Some (nextListenerKey σ)
  /\ field listenerKey_ i2 σ2 = Some (Pos.succ (nextListenerKey σ))
  /\ windowInstanceMap_ σ2 = windowInstanceMap_ σ.
Proof.
  cbv zeta.
  destruct (new_ViewportSizeMonitor_spec E opt_window σ)
    as (Hi1 & Hmon1 & _ & Hlis1 & _ & _ & _ & _ & Hreg1 & _).
  destruct (new_ViewportSizeMonitor_next E opt_window σ) as [Hnk1 _].
  set (σ1 := snd (new_ViewportSizeMonitor E opt_window σ)) in *.
  destruct (new_ViewportSizeMonitor_spec E opt_window σ1)
    as (Hi2 & Hmon2 & _ & Hlis2 & _ & _ & _ & _ & Hreg2 & _).
  set (σ2 := snd (new_ViewportSizeMonitor E opt_window σ1)) in *.
  rewrite Hi1, Hi2.
  assert (Hlen : length (monitors σ1) = S (length (monitors σ))).
  { rewrite Hmon1, length_app. simpl. lia. }
  split; [lia |]. split; [| split; [| split; [| split]]].
  - rewrite Hlis2, Hnk1, lookup_insert_ne by lia.
    rewrite Hlis1. apply lookup_insert_eq.
  - rewrite Hlis2, Hnk1. apply lookup_insert_eq.
  - unfold field. rewrite Hmon2, lookup_app_l by lia.
    rewrite Hmon1, lookup_snoc. done.
  - unfold field. rewrite Hmon2, lookup_snoc. simpl. by rewrite Hnk1.
  - by rewrite Hreg2, Hreg1.
Qed.

(** ** Further properties: what holds in every reachable world *)

Lemma lookup_alter_Some {A : Type} (f : A -> A) (l : list A) (this i : nat)
    (y : A) :
  alter f this l !! i = Some y ->
  exists x, l !! i = Some x
            /\ ((this = i /\ y = f x) \/ (this <> i /\ y = x)).
Proof.
  destruct (decide (this = i)) as [<- | Hne].
  - rewrite list_lookup_alter_eq. destruct (l !! this) as [x |]; [| done].
    intros [= <-]. eauto.
  - rewrite list_lookup_alter_ne by done. eauto.
Qed.

Lemma lookup_alter_Some_inv {A : Type} (f : A -> A) (l : list A)
    (this i : nat) (x : A) :
  l !! i = Some x ->
  alter f this l !! i = Some (if decide (this = i) then f x else x).
Proof.
  intros Hx. destruct (decide (this = i)) as [<- | Hne].
  - by rewrite list_lookup_alter_eq, Hx.
  - by rewrite list_lookup_alter_ne.
Qed.

(** The invariant survives a change of one monitor that leaves alone the
    fields the invariant reads, or gives it an allocated size. *)
Lemma monitors_ok_alter σ σ' this f :
  monitors_ok σ ->
  listeners_ σ' = listeners_ σ -> nextListenerKey σ' = nextListenerKey σ ->
  intervals σ' = intervals σ -> nextInterval σ' = nextInterval σ ->
  length (sizes σ) <= length (sizes σ') ->
  monitors σ' = alter f this (monitors σ) ->
  (forall m,
     disposed_ (f m) = disposed_ m /\ window (f m) = window m
     /\ listenerKey_ (f m) = listenerKey_ m
     /\ windowSizePollInterval (f m) = windowSizePollInterval m
     /\ (size (f m) = size m
         \/ exists r, size (f m) = Some r /\ r < length (sizes σ'))) ->
  monitors_ok σ'.
Proof.
  intros [Hkb Htb Hlf Hlt Hlo Hto] Hlis Hnk Hint Hni Hlen Hmon Hf.
  assert (Hback : forall i m', monitors σ' !! i = Some m' ->
            exists m, monitors σ !! i = Some m
                      /\ disposed_ m' = disposed_ m /\ window m' = window m
                      /\ listenerKey_ m' = listenerKey_ m
                      /\ windowSizePollInterval m' = windowSizePollInterval m
                      /\ (size m' = size m
                          \/ exists r, size m' = Some r
                                       /\ r < length (sizes σ'))).
  { intros i m' Hm'. rewrite Hmon in Hm'.
    apply lookup_alter_Some in Hm' as (m & Hm & [[_ ->] | [_ ->]]).
    - exists m. split; [done |]. apply Hf.
    - exists m. repeat split; auto. }
  assert (Hforth : forall i m, monitors σ !! i = Some m ->
            exists m', monitors σ' !! i = Some m'
                       /\ disposed_ m' = disposed_ m
                       /\ listenerKey_ m' = listenerKey_ m
                       /\ windowSizePollInterval m' = windowSizePollInterval m).
  { intros i m Hm. rewrite Hmon.
    rewrite (lookup_alter_Some_inv f _ this i m Hm).
    eexists. split; [done |].
    destruct (decide (this = i)); [| done].
    destruct (Hf m) as (? & ? & ? & ? & _). done. }
  constructor.
  - intros key e. rewrite Hlis, Hnk. apply Hkb.
  - intros id e. rewrite Hint, Hni. apply Htb.
  - intros i m' Hm' Hd.
    destruct (Hback i m' Hm') as (m & Hm & Hd' & Hw' & Hk' & _ & Hs').
    destruct (Hlf i m Hm ltac:(congruence)) as (w & r & key & Hw & Hs & Hr & Hk & He).
    destruct Hs' as [Hs' | (r' & Hs' & Hr')].
    + exists w, r, key. rewrite Hlis. repeat split; try congruence. lia.
    + exists w, r', key. rewrite Hlis. repeat split; try congruence.
  - intros i m' id Hm' Hd Hid.
    destruct (Hback i m' Hm') as (m & Hm & Hd' & _ & _ & Hp' & _).
    rewrite Hint. apply (Hlt i m id Hm); congruence.
  - intros key w ty i. rewrite Hlis. intros He.
    destruct (Hlo key w ty i He) as (m & Hm & Hd & Hk).
    destruct (Hforth i m Hm) as (m' & Hm' & Hd' & Hk' & _).
    exists m'. repeat split; congruence.
  - intros id i rate. rewrite Hint. intros He.
    destruct (Hto id i rate He) as (m & Hm & Hd & Hp).
    destruct (Hforth i m Hm) as (m' & Hm' & Hd' & _ & Hp').
    exists m'. repeat split; congruence.
Qed.

Lemma monitors_ok_same σ σ' :
  monitors_ok σ ->
  listeners_ σ' = listeners_ σ -> nextListenerKey σ' = nextListenerKey σ ->
  intervals σ' = intervals σ -> nextInterval σ' = nextInterval σ ->
  length (sizes σ) <= length (sizes σ') ->
  monitors σ' = monitors σ ->
  monitors_ok σ'.
Proof.
  intros Hok Hlis Hnk Hint Hni Hlen Hmon.
  apply (monitors_ok_alter σ σ' 0 (fun m => m)); try done.
  - by rewrite Hmon, list_alter_id.
  - intros m. repeat split. by left.
Qed.

Lemma monitors_ok_check E this σ :
  monitors_ok σ -> monitors_ok (checkForSizeChange E this σ).
Proof.
  intros Hok. unfold checkForSizeChange, getViewportSize, alloc_size.
  destruct (negb _).
  - apply (monitors_ok_alter σ _ this (set_size (Some (length (sizes σ)))));
      try done.
    + simpl. rewrite length_app. lia.
    + intros m. repeat split. right. exists (length (sizes σ)).
      split; [done |]. simpl. rewrite length_app. simpl. lia.
  - apply (monitors_ok_same σ); try done.
    simpl. rewrite length_app. lia.
Qed.

Lemma monitors_ok_getSize this σ :
  monitors_ok σ -> monitors_ok (snd (getSize this σ)).
Proof.
  intros Hok.
  destruct (getSize_cases this σ) as [(_ & -> & _) | (r & x & _ & _ & _ & ->)];
    [done |].
  apply (monitors_ok_same σ); try done.
  simpl. rewrite length_app. lia.
Qed.

Lemma monitors_ok_dispose this σ :
  monitors_ok σ -> monitors_ok (dispose this σ).
Proof.
  intros Hok.
  destruct (monitors σ !! this) as [m |] eqn:Hm;
    [| by unfold dispose; rewrite Hm].
  destruct (disposed_ m) eqn:Hd; [by unfold dispose; rewrite Hm, Hd |].
  destruct (dispose_spec this σ m Hm Hd)
    as (Hmon & Hlis & Hint & _ & Hsz & _ & Hnk & Hni).
  set (σ1 := dispose this σ) in *.
  destruct Hok as [Hkb Htb Hlf Hlt Hlo Hto].
  destruct (Hlf this m Hm Hd) as (w & r & key & Hw & Hs & Hr & Hk & He).
  rewrite Hk in Hlis.
  assert (Hother : forall i m', monitors σ1 !! i = Some m' ->
            disposed_ m' = false -> i <> this /\ monitors σ !! i = Some m').
  { intros i m' Hm' Hd'. rewrite Hmon in Hm'.
    destruct (decide (this = i)) as [<- | Hne].
    - rewrite list_lookup_insert_eq in Hm' by (by apply lookup_lt_Some in Hm).
      injection Hm' as <-. done.
    - rewrite list_lookup_insert_ne in Hm' by done. done. }
  assert (Hkeep : forall i m', i <> this -> monitors σ !! i = Some m' ->
            monitors σ1 !! i = Some m').
  { intros i m' Hne Hm'. rewrite Hmon. by rewrite list_lookup_insert_ne. }
  constructor.
  - intros key' e. rewrite Hlis, Hnk, lookup_delete_Some.
    intros [_ H]. by apply (Hkb key' e).
  - intros id e. rewrite Hint, Hni.
    destruct (windowSizePollInterval m).
    + rewrite lookup_delete_Some. intros [_ H]. by apply (Htb id e).
    + apply Htb.
  - intros i m' Hm' Hd'.
    destruct (Hother i m' Hm' Hd') as [Hne Hmi].
    destruct (Hlf i m' Hmi Hd') as (w' & r' & key' & Hw' & Hs' & Hr' & Hk' & He').
    exists w', r', key'. rewrite Hsz, Hlis. repeat split; try done.
    rewrite lookup_delete_ne; [done |].
    intros <-. rewrite He in He'. congruence.
  - intros i m' id Hm' Hd' Hid.
    destruct (Hother i m' Hm' Hd') as [Hne Hmi].
    pose proof (Hlt i m' id Hmi Hd' Hid) as Hi.
    rewrite Hint. destruct (windowSizePollInterval m) as [id0 |] eqn:Hp; [| done].
    rewrite lookup_delete_ne; [done |].
    intros <-. pose proof (Hlt this m id0 Hm Hd Hp) as Hi0.
    rewrite Hi0 in Hi. congruence.
  - intros key' w' ty i. rewrite Hlis, lookup_delete_Some. intros [Hne He'].
    destruct (Hlo key' w' ty i He') as (m' & Hm' & Hd' & Hk').
    exists m'. repeat split; try done. apply Hkeep; [| done].
    intros ->. congruence.
  - intros id i rate. rewrite Hint. intros He'.
    assert (Hold : intervals σ !! id = Some (i, rate)
                   /\ windowSizePollInterval m <> Some id).
    { destruct (windowSizePollInterval m) as [id0 |].
      - apply lookup_delete_Some in He' as [Hne He']. split; [done | congruence].
      - done. }
    destruct Hold as [Hold Hnot].
    destruct (Hto id i rate Hold) as (m' & Hm' & Hd' & Hp').
    exists m'. repeat split; try done. apply Hkeep; [| done].
    intros ->. congruence.
Qed.

Lemma monitors_ok_new E opt_window σ :
  monitors_ok σ -> monitors_ok (snd (new_ViewportSizeMonitor E opt_window σ)).
Proof.
  intros [Hkb Htb Hlf Hlt Hlo Hto].
  destruct (new_ViewportSizeMonitor_spec E opt_window σ)
    as (_ & Hmon & Hsz & Hlis & Hint & _).
  destruct (new_ViewportSizeMonitor_next E opt_window σ) as [Hnk Hni].
  set (σ' := snd (new_ViewportSizeMonitor E opt_window σ)) in *.
  set (w := default (global_window E) opt_window) in *.
  set (polling := WEBKIT E && WINDOWS E || _) in *.
  set (this := length (monitors σ)) in *.
  set (k := nextListenerKey σ) in *.
  set (id := nextInterval σ) in *.
  set (mnew := mkMonitor false [] (Some k) (Some w) (Some (length (sizes σ)))
                 (if polling then Some id else None)) in *.
  assert (Hfresh_k : listeners_ σ !! k = None).
  { destruct (listeners_ σ !! k) as [e |] eqn:He; [| done].
    pose proof (Hkb k e He). unfold k in *. lia. }
  assert (Hfresh_id : intervals σ !! id = None).
  { destruct (intervals σ !! id) as [e |] eqn:He; [| done].
    pose proof (Htb id e He). unfold id in *. lia. }
  assert (Hcases : forall i m', monitors σ' !! i = Some m' ->
            (i < this /\ monitors σ !! i = Some m') \/ (i = this /\ m' = mnew)).
  { intros i m' Hm'. rewrite Hmon in Hm'.
    apply lookup_app_Some in Hm' as [Hm' | [Hge Hm']].
    - left. split; [by apply lookup_lt_Some in Hm' | done].
    - right. destruct (i - length (monitors σ)) as [| n] eqn:Hn;
        simpl in Hm'; [| by rewrite lookup_nil in Hm'].
      injection Hm' as <-. split; [unfold this; lia | done]. }
  assert (Hold : forall i m', monitors σ !! i = Some m' ->
            monitors σ' !! i = Some m').
  { intros i m' Hm'. rewrite Hmon. by apply lookup_app_l_Some. }
  assert (Hnew : monitors σ' !! this = Some mnew).
  { rewrite Hmon. apply lookup_snoc. }
  constructor.
  - intros key e. rewrite Hlis, Hnk, lookup_insert. case_decide.
    + intros _. subst key. fold k. lia.
    + intros He. pose proof (Hkb key e He). fold k in H0 |- *. lia.
  - intros id' e. rewrite Hint, Hni. destruct polling.
    + rewrite lookup_insert. case_decide.
      * intros _. subst id'. lia.
      * intros He. pose proof (Htb id' e He). fold id in H0. lia.
    + apply Htb.
  - intros i m' Hm' Hd.
    destruct (Hcases i m' Hm') as [[Hlt' Hmi] | [-> ->]].
    + destruct (Hlf i m' Hmi Hd) as (w' & r & key & Hw & Hs & Hr & Hk & He).
      exists w', r, key. rewrite Hsz, Hlis, length_app.
      repeat split; try done; [lia |].
      rewrite lookup_insert_ne; [done |]. intros <-. congruence.
    + exists w, (length (sizes σ)), k. rewrite Hsz, Hlis, length_app.
      repeat split; [simpl; lia | apply lookup_insert_eq].
  - intros i m' id' Hm' Hd Hid.
    destruct (Hcases i m' Hm') as [[Hlt' Hmi] | [-> ->]].
    + pose proof (Hlt i m' id' Hmi Hd Hid) as Hi. rewrite Hint.
      destruct polling; [| done].
      rewrite lookup_insert_ne; [done |]. intros <-. congruence.
    + rewrite Hint. simpl in Hid. destruct polling; [| done].
      injection Hid as <-. apply lookup_insert_eq.
  - intros key w' ty i. rewrite Hlis, lookup_insert. case_decide.
    + intros [= <- <- <-]. subst key. by exists mnew.
    + intros He. destruct (Hlo key w' ty i He) as (m' & Hm' & Hd & Hk).
      exists m'. split; [by apply Hold | done].
  - intros id' i rate. rewrite Hint. intros He.
    assert (Hc : (polling = true /\ id' = id /\ i = this)
                 \/ intervals σ !! id' = Some (i, rate)).
    { destruct polling; [| by right].
      rewrite lookup_insert in He. case_decide; [| by right].
      injection He as <- <-. by left. }
    destruct Hc as [(Hp & -> & ->) | Hc].
    + exists mnew. split; [done |]. split; [done |]. simpl. by rewrite Hp.
    + destruct (Hto id' i rate Hc) as (m' & Hm' & Hd & Hk).
      exists m'. split; [by apply Hold | done].
Qed.

Lemma monitors_ok_getUid w σ :
  monitors_ok σ -> monitors_ok (snd (getUid w σ)).
Proof.
  intros Hok. unfold getUid.
  destruct (uid_ σ !! w) as [u |]; [destruct (u =? 0)%N |]; simpl; try done;
    by apply (monitors_ok_same σ).
Qed.

Lemma monitors_ok_registry v σ :
  monitors_ok σ -> monitors_ok (with_windowInstanceMap_ v σ).
Proof. intros Hok. by apply (monitors_ok_same σ). Qed.

Lemma monitors_ok_getInstanceForWindow E opt_window σ :
  monitors_ok σ -> monitors_ok (snd (getInstanceForWindow E opt_window σ)).
Proof.
  intros Hok. unfold getInstanceForWindow.
  pose proof (monitors_ok_getUid (default (global_window E) opt_window) σ Hok)
    as Hok1.
  destruct (getUid _ σ) as [u σ1]. simpl in Hok1.
  destruct (windowInstanceMap_ σ1 !! u) as [i |].
  - simpl. by apply monitors_ok_registry.
  - pose proof (monitors_ok_new E
                  (Some (default (global_window E) opt_window)) σ1 Hok1) as Hok2.
    destruct (new_ViewportSizeMonitor E _ σ1) as [i σ2]. simpl in *.
    by apply monitors_ok_registry.
Qed.

Lemma monitors_ok_removeInstanceForWindow E opt_window σ :
  monitors_ok σ -> monitors_ok (removeInstanceForWindow E opt_window σ).
Proof.
  intros Hok. unfold removeInstanceForWindow.
  pose proof (monitors_ok_getUid (default (global_window E) opt_window) σ Hok)
    as Hok1.
  destruct (getUid _ σ) as [u σ1]. simpl in Hok1.
  apply monitors_ok_registry.
  destruct (windowInstanceMap_ σ1 !! u); simpl; [| done].
  by apply monitors_ok_dispose.
Qed.

Lemma monitors_ok_initial dims : monitors_ok (initial dims).
Proof.
  constructor; simpl; intros *; rewrite ?lookup_empty, ?lookup_nil; done.
Qed.

Lemma monitors_ok_step E a σ : monitors_ok σ -> monitors_ok (step E a σ).
Proof.
  intros Hok. destruct a; simpl.
  - by apply monitors_ok_getInstanceForWindow.
  - by apply monitors_ok_removeInstanceForWindow.
  - by apply monitors_ok_new.
  - by apply monitors_ok_dispose.
  - by apply monitors_ok_check.
  - by apply monitors_ok_getSize.
  - apply (monitors_ok_alter σ _ this (add_subscriber h)); try done.
    intros m. unfold add_subscriber.
    destruct (decide _); repeat split; by left.
  - apply (monitors_ok_same σ); try done. simpl. by rewrite length_insert.
  - by apply (monitors_ok_same σ).
  - unfold deliver. destruct (listeners_ σ !! key) as [[[? ?] handler] |];
      [by apply monitors_ok_check | done].
  - unfold tick. destruct (intervals σ !! id) as [[handler ?] |];
      [by apply monitors_ok_check | done].
Qed.

Lemma reachable_monitors_ok E σ : reachable E σ -> monitors_ok σ.
Proof.
  intros (dims & acts & ->).
  assert (Hgen : forall σ0, monitors_ok σ0 -> monitors_ok (run E acts σ0)).
  { induction acts as [| a acts IH]; intros σ0 Hok; simpl; [done |].
    apply IH. by apply monitors_ok_step. }
  apply Hgen, monitors_ok_initial.
Qed.

(** ** Measurements and monitors *)

Lemma ever_measured_ext (pre : list Effect) (σ σ' : World) :
  trace σ' = pre ++ trace σ ->
  ever_measured σ = true -> ever_measured σ' = true.
Proof.
  intros Htr H. unfold ever_measured in *.
  rewrite Htr, existsb_app, H. apply orb_true_r.
Qed.

Lemma ever_measured_check E this σ :
  ever_measured (checkForSizeChange E this σ) = true.
Proof.
  unfold checkForSizeChange, getViewportSize, alloc_size.
  destruct (negb _); [| done].
  unfold ever_measured, dispatchEvent. cbn [trace with_trace].
  rewrite existsb_app. apply orb_true_iff. by right.
Qed.

Lemma ever_measured_new E opt_window σ :
  ever_measured (snd (new_ViewportSizeMonitor E opt_window σ)) = true.
Proof.
  destruct (new_ViewportSizeMonitor_spec E opt_window σ)
    as (_ & _ & _ & _ & _ & Htr & _).
  unfold ever_measured. rewrite Htr, existsb_app.
  apply orb_true_iff. by right.
Qed.

Lemma ever_measured_dispose this σ :
  ever_measured σ = true -> ever_measured (dispose this σ) = true.
Proof.
  intros H.
  destruct (monitors σ !! this) as [m |] eqn:Hm;
    [| by unfold dispose; rewrite Hm].
  destruct (disposed_ m) eqn:Hd; [by unfold dispose; rewrite Hm, Hd |].
  destruct (dispose_spec this σ m Hm Hd) as (_ & _ & _ & Htr & _).
  rewrite app_assoc in Htr. by apply (ever_measured_ext _ _ _ Htr).
Qed.

Lemma no_monitors_length (σ σ' : World) :
  length (monitors σ') = length (monitors σ) ->
  monitors σ' <> [] -> monitors σ <> [].
Proof.
  intros Hlen Hne Hnil. rewrite Hnil in Hlen.
  destruct (monitors σ'); [done | discriminate].
Qed.

(** A monitor comes into being by its constructor only, which measures:
    where there is a monitor, a measurement has been taken. *)
Lemma measured_step E a σ :
  (monitors σ <> [] -> ever_measured σ = true) ->
  monitors (step E a σ) <> [] -> ever_measured (step E a σ) = true.
Proof.
  intros Hinv.
  assert (Hsame : forall σ',
            length (monitors σ') = length (monitors σ) ->
            trace σ' = trace σ ->
            monitors σ' <> [] -> ever_measured σ' = true).
  { intros σ' Hlen Htr Hne. unfold ever_measured. rewrite Htr.
    by apply Hinv, (no_monitors_length σ σ'). }
  destruct a as [ow | ow | ow | this | this | this | this h | r v | w0 s
                 | key | id]; simpl step.
  - unfold getInstanceForWindow.
    destruct (getUid_frame (default (global_window E) ow) σ)
      as (_ & Hmon1 & _ & _ & _ & _ & _ & _ & Htr1).
    destruct (getUid _ σ) as [u σ1]. cbn [fst snd] in *.
    destruct (windowInstanceMap_ σ1 !! u) as [i |].
    + apply Hsame; simpl; by rewrite ?Hmon1, ?Htr1.
    + intros _.
      pose proof (ever_measured_new E
                    (Some (default (global_window E) ow)) σ1) as Hn.
      by destruct (new_ViewportSizeMonitor E _ σ1) as [i σ2].
  - unfold removeInstanceForWindow.
    destruct (getUid_frame (default (global_window E) ow) σ)
      as (_ & Hmon1 & _ & _ & _ & _ & _ & _ & Htr1).
    destruct (getUid _ σ) as [u σ1]. cbn [fst snd] in *.
    destruct (windowInstanceMap_ σ1 !! u) as [i |]; simpl goog_dispose.
    + intros Hne.
      change (ever_measured (dispose i σ1) = true).
      apply ever_measured_dispose. unfold ever_measured. rewrite Htr1.
      apply Hinv. rewrite <- Hmon1.
      apply (no_monitors_length σ1 (dispose i σ1));
        [apply length_monitors_dispose | exact Hne].
    + apply Hsame; simpl; by rewrite ?Hmon1, ?Htr1.
  - intros _. apply ever_measured_new.
  - intros Hne. apply ever_measured_dispose, Hinv.
    apply (no_monitors_length σ (dispose this σ));
      [apply length_monitors_dispose | exact Hne].
  - intros _. apply ever_measured_check.
  - destruct (getSize_cases this σ) as [(_ & -> & _) | (r & x & _ & _ & _ & ->)];
      by apply Hsame.
  - apply Hsame; [| done]. simpl. apply length_alter.
  - by apply Hsame.
  - by apply Hsame.
  - unfold deliver. destruct (listeners_ σ !! key) as [[[? ?] handler] |].
    + intros _. apply ever_measured_check.
    + exact Hinv.
  - unfold tick. destruct (intervals σ !! id) as [[handler ?] |].
    + intros _. apply ever_measured_check.
    + exact Hinv.
Qed.

Lemma reachable_measured E σ :
  reachable E σ -> monitors σ <> [] -> ever_measured σ = true.
Proof.
  intros (dims & acts & ->).
  assert (Hgen : forall σ0,
            (monitors σ0 <> [] -> ever_measured σ0 = true) ->
            monitors (run E acts σ0) <> [] ->
            ever_measured (run E acts σ0) = true).
  { induction acts as [| a acts IH]; intros σ0 H0; simpl; [done |].
    apply IH. by apply measured_step. }
  apply Hgen. simpl. done.
Qed.

(** C6.  [getSize] changes no monitor, leaves the trace as it is (so it
    measures nothing), and touches neither the registry, the listeners,
    the timers nor any [Size] object that exists; the object it returns
    holds the recorded size and is a new one, so that whatever a client
    writes into it, the recorded size stays what it was.  In every world a
    page can be in, a monitor that has been constructed and not disposed
    never gets null: for it, the result is null exactly when no
    measurement has ever been taken, and one has been taken, by its
    constructor; and where no measurement has been taken at all, the
    result is null.  (A disposed monitor, which is no longer to be used,
    has had its recorded size set to null by [disposeInternal], and gets
    null.) *)
Theorem getSize_is_a_pure_copy (E : Env) (this : MonRef) (σ : World) :
  let o := fst (getSize this σ) in
  let σ' := snd (getSize this σ) in
  monitors σ' = monitors σ
  /\ trace σ' = trace σ
  /\ windowInstanceMap_ σ' = windowInstanceMap_ σ
  /\ listeners_ σ' = listeners_ σ
  /\ intervals σ' = intervals σ
  /\ (forall r x, sizes σ !! r = Some x -> sizes σ' !! r = Some x)
  /\ o ≫= (fun r => sizes σ' !! r) = size_value this σ
  /\ (forall r', o = Some r' ->
        sizes σ !! r' = None
        /\ field size this σ' <> Some r'
        /\ forall v, size_value this (write_size r' v σ') = size_value this σ
                     /\ monitors (write_size r' v σ') = monitors σ)
  /\ (o = None <-> size_value this σ = None)
  /\ (forall m, reachable E σ ->
        monitors σ !! this = Some m -> disposed_ m = false ->
        o <> None /\ ever_measured σ = true
        /\ absent_iff_never_measured this σ)
  /\ (reachable E σ -> ever_measured σ = false -> o = None)
  /\ (forall m, monitors σ !! this = Some m -> disposed_ m = false ->
        fst (getSize this (dispose this σ)) = None).
Proof.
  intros o σ'. subst o σ'.
  assert (Hdisp : forall m, monitors σ !! this = Some m -> disposed_ m = false ->
                    fst (getSize this (dispose this σ)) = None).
  { intros m Hm Hd.
    destruct (dispose_clears_fields this σ m Hm Hd) as [Hm1 _].
    unfold getSize. by rewrite (field_lookup size _ _ _ Hm1). }
  assert (Hlive : forall m, reachable E σ ->
            monitors σ !! this = Some m -> disposed_ m = false ->
            fst (getSize this σ) <> None /\ ever_measured σ = true
            /\ absent_iff_never_measured this σ).
  { intros m Hreach Hm Hd.
    pose proof (reachable_monitors_ok E σ Hreach) as Hok.
    destruct (live_fields σ Hok this m Hm Hd)
      as (w & r & key & _ & Hs & Hr & _).
    destruct (lookup_lt_is_Some_2 _ _ Hr) as [x Hx].
    assert (Ho : fst (getSize this σ) <> None).
    { unfold getSize, clone. rewrite (field_lookup size _ _ _ Hm), Hs, Hx.
      done. }
    assert (Hmeas : ever_measured σ = true).
    { apply (reachable_measured E σ Hreach). intros Hnil.
      by rewrite Hnil in Hm. }
    split; [exact Ho |]. split; [exact Hmeas |].
    unfold absent_iff_never_measured. split; [done | congruence]. }
  assert (Hnone : reachable E σ -> ever_measured σ = false ->
                  fst (getSize this σ) = None).
  { intros Hreach Hnever.
    assert (Hnil : monitors σ = []).
    { destruct (monitors σ) as [| m0 l] eqn:Hmon; [done |].
      rewrite (reachable_measured E σ Hreach) in Hnever; [done |].
      by rewrite Hmon. }
    unfold getSize, field. by rewrite Hnil. }
  destruct (getSize_cases this σ)
    as [(Ho & Hσ & Hv) | (r & x & Hf & Hr & Ho & Hσ)]; rewrite Hσ.
  - rewrite Ho in Hlive, Hnone |- *.
    split; [done |]. split; [done |]. split; [done |]. split; [done |].
    split; [done |]. split; [done |]. split; [by rewrite Hv |].
    split; [done |]. split; [done |].
    split; [exact Hlive | split; [exact Hnone | exact Hdisp]].
  - rewrite Ho in Hlive, Hnone |- *.
    assert (Hlt : r < length (sizes σ)) by (by apply lookup_lt_Some in Hr).
    assert (Hv : size_value this σ = Some x).
    { unfold size_value. rewrite Hf. exact Hr. }
    split; [done |]. split; [done |]. split; [done |]. split; [done |].
    split; [done |].
    split; [intros r0 x0 Hr0; simpl; by apply lookup_app_l_Some |].
    split; [simpl; rewrite Hv; apply lookup_snoc |].
    split; [| split; [| split; [exact Hlive | split; [exact Hnone | exact Hdisp]]]].
    + intros r' [= <-]. split; [by apply lookup_ge_None_2 |]. split.
      * change (field size this (with_sizes (sizes σ ++ [x]) σ))
          with (field size this σ).
        rewrite Hf. intros [= ->]. lia.
      * intros v. split; [| done].
        rewrite Hv. unfold size_value, write_size.
        change (field size this (with_sizes _ (with_sizes _ σ)))
          with (field size this σ).
        rewrite Hf. simpl.
        rewrite list_lookup_insert_ne by lia.
        by apply lookup_app_l_Some.
    + by rewrite Hv.
Qed.

Lemma getSize_is_a_pure_copy_witness :
  let σ := snd (new_ViewportSizeMonitor plain_env None page) in
  fst (getSize 0 σ) <> None
  /\ absent_iff_never_measured 0 σ
  /\ size_value 0 (write_size 1 (mkSize 0 0) (snd (getSize 0 σ)))
     = Some (mkSize 1024 768).
Proof.
  intros σ.
  assert (Hreach : reachable plain_env σ)
    by (exists (mkSize 1024 768), [New None]; reflexivity).
  destruct (getSize_is_a_pure_copy plain_env 0 σ)
    as (_ & _ & _ & _ & _ & _ & _ & Hcopy & _ & Hlive & _ & _).
  destruct (Hlive (mkMonitor false [] (Some 1%positive) (Some 1%positive)
                     (Some 0) None) Hreach eq_refl eq_refl)
    as (Ho & _ & Hiff).
  split; [exact Ho |]. split; [exact Hiff |].
  destruct (Hcopy 1 eq_refl) as (_ & _ & Hw).
  exact (proj1 (Hw (mkSize 0 0))).
Defined.

(** X17.  In every world a page can be in, a monitor that has not been
    disposed watches a window, [getSize] on it is not null, the table of
    native listeners holds its [RESIZE] listener on that window under the
    key it stores, and if it stores a timer handle the host has that timer
    bound to it with rate 500. *)
Theorem live_monitor_is_observing
    (E : Env) (σ : World) (i : MonRef) (m : Monitor) :
  reachable E σ ->
  monitors σ !! i = Some m ->
  disposed_ m = false ->
  fst (getSize i σ) <> None
  /\ is_Some (size_value i σ)
  /\ (exists w key,
        window m = Some w /\ listenerKey_ m = Some key
        /\ listeners_ σ !! key = Some (w, RESIZE, i))
  /\ (forall id, windowSizePollInterval m = Some id ->
        intervals σ !! id = Some (i, 500%Z)).
Proof.
  intros Hreach Hm Hd.
  pose proof (reachable_monitors_ok E σ Hreach) as Hok.
  destruct (live_fields σ Hok i m Hm Hd) as (w & r & key & Hw & Hs & Hr & Hk & He).
  destruct (lookup_lt_is_Some_2 _ _ Hr) as [x Hx].
  assert (Hsv : size_value i σ = Some x).
  { rewrite (size_value_lookup _ _ _ Hm), Hs. exact Hx. }
  split; [| split; [by rewrite Hsv | split]].
  - destruct (getSize_cases i σ) as [(_ & _ & Hnone) | (? & ? & _ & _ & -> & _)];
      [congruence | done].
  - by exists w, key.
  - intros id Hid. exact (live_timer σ Hok i m id Hm Hd Hid).
Qed.

Lemma live_monitor_is_observing_witness :
  let σ := checkForSizeChange polling_env 0
             (host_resize 1%positive (mkSize 800 600)
                (snd (getInstanceForWindow polling_env None page))) in
  fst (getSize 0 σ) <> None
  /\ intervals σ !! 1%positive = Some (0, 500%Z).
Proof.
  intros σ.
  assert (Hreach : reachable polling_env σ).
  { exists (mkSize 1024 768),
      [GetInstanceForWindow None; HostResize 1%positive (mkSize 800 600);
       CheckForSizeChange 0].
    reflexivity. }
  destruct (live_monitor_is_observing polling_env σ 0
              (mkMonitor false [] (Some 1%positive) (Some 1%positive) (Some 1)
                 (Some 1%positive)) Hreach eq_refl eq_refl)
    as (Hsize & _ & _ & Htimer).
  split; [exact Hsize | by apply Htimer].
Defined.

(** X18.  In every world a page can be in, each entry of the table of
    native listeners is a [RESIZE] listener for an undisposed monitor that
    watches the entry's window and stores the entry's key, and each timer
    of the host has rate 500 and belongs to an undisposed monitor that
    stores its handle.  So no callback of the host reaches a disposed
    monitor. *)
Theorem callbacks_reach_live_monitors_only
    (E : Env) (σ : World) :
  reachable E σ ->
  (forall key w ty i,
     listeners_ σ !! key = Some (w, ty, i) ->
     ty = RESIZE
     /\ exists m, monitors σ !! i = Some m /\ disposed_ m = false
                  /\ window m = Some w /\ listenerKey_ m = Some key)
  /\ (forall id i rate,
        intervals σ !! id = Some (i, rate) ->
        rate = 500%Z
        /\ exists m, monitors σ !! i = Some m /\ disposed_ m = false
                     /\ windowSizePollInterval m = Some id).
Proof.
  intros Hreach. pose proof (reachable_monitors_ok E σ Hreach) as Hok.
  split.
  - intros key w ty i He.
    destruct (listener_owner σ Hok key w ty i He) as (m & Hm & Hd & Hk).
    destruct (live_fields σ Hok i m Hm Hd)
      as (w' & r & key' & Hw' & _ & _ & Hk' & He').
    assert (key' = key) as -> by congruence.
    rewrite He in He'. injection He' as -> ->.
    split; [done |]. by exists m.
  - intros id i rate He.
    destruct (timer_owner σ Hok id i rate He) as (m & Hm & Hd & Hp).
    pose proof (live_timer σ Hok i m id Hm Hd Hp) as He'.
    rewrite He in He'. injection He' as ->.
    split; [done |]. by exists m.
Qed.

Lemma callbacks_reach_live_monitors_only_witness :
  let σ := snd (getInstanceForWindow polling_env None page) in
  (exists m, monitors σ !! 0 = Some m /\ disposed_ m = false
             /\ window m = Some 1%positive
             /\ listenerKey_ m = Some 1%positive).
Proof.
  intros σ.
  assert (Hreach : reachable polling_env σ)
    by (exists (mkSize 1024 768), [GetInstanceForWindow None]; reflexivity).
  destruct (callbacks_reach_live_monitors_only polling_env σ Hreach)
    as [Hlis _].
  destruct (Hlis 1%positive 1%positive RESIZE 0 eq_refl) as [_ H].
  exact H.
Defined.

Lemma notifications_new E opt_window σ :
  notifications (snd (new_ViewportSizeMonitor E opt_window σ))
  = notifications σ.
Proof.
  destruct (new_ViewportSizeMonitor_spec E opt_window σ)
    as (_ & _ & _ & _ & _ & Htr & _).
  revert Htr. destruct (WEBKIT E && WINDOWS E || _); intros Htr.
  - eapply (notifications_app_silent [_; _; _]); [| exact Htr]. done.
  - eapply (notifications_app_silent [_; _]); [| exact Htr]. done.
Qed.

(** X19.  In every world a page can be in, for a window without a
    registered monitor: getting its monitor and then removing it leaves
    the registry, the table of native listeners and the host's timers as
    they were before, and sends no notification. *)
Theorem getInstance_then_remove_restores
    (E : Env) (opt_window : option WindowRef) (σ : World) :
  reachable E σ ->
  let w := default (global_window E) opt_window in
  windowInstanceMap_ σ !! fst (getUid w σ) = None ->
  let σ' := removeInstanceForWindow E opt_window
              (snd (getInstanceForWindow E opt_window σ)) in
  windowInstanceMap_ σ' = windowInstanceMap_ σ
  /\ listeners_ σ' = listeners_ σ
  /\ intervals σ' = intervals σ
  /\ notifications σ' = notifications σ.
Proof.
  intros Hreach w Hnone. cbv zeta.
  pose proof (reachable_registry_ok E σ Hreach) as Hok.
  pose proof (reachable_monitors_ok E σ Hreach) as Hmok.
  destruct (getInstanceForWindow_spec E opt_window σ Hok)
    as (Hokg & Hug & Hig & Hcase).
  fold w in Hug, Hig, Hcase.
  destruct (getUid_frame w σ)
    as (Hsz1 & Hmon1 & Hreg1 & Hlis1 & Hnk1 & _ & Hint1 & Hni1 & Htr1).
  pose proof (monitors_ok_getUid w σ Hmok) as Hmok1.
  set (u := fst (getUid w σ)) in *.
  set (σ1 := snd (getUid w σ)) in *.
  destruct Hcase as [(Hsome & _) | (_ & _ & Hi & Hσg)]; [congruence |].
  set (σg := snd (getInstanceForWindow E opt_window σ)) in *.
  set (i := fst (getInstanceForWindow E opt_window σ)) in *.
  destruct (new_ViewportSizeMonitor_spec E (Some w) σ1)
    as (Hthis & Hmonn & _ & Hlisn & Hintn & _).
  pose proof (notifications_new E (Some w) σ1) as Hnotn.
  set (σn := snd (new_ViewportSizeMonitor E (Some w) σ1)) in *.
  simpl default in Hmonn, Hlisn, Hintn.
  set (polling := WEBKIT E && WINDOWS E || _) in *.
  set (mnew := mkMonitor false [] (Some (nextListenerKey σ1)) (Some w)
                 (Some (length (sizes σ1)))
                 (if polling then Some (nextInterval σ1) else None)) in *.
  assert (Hmg : monitors σg !! i = Some mnew).
  { rewrite Hσg. simpl monitors. fold σn. rewrite Hmonn, Hi, Hthis.
    apply lookup_snoc. }
  unfold removeInstanceForWindow. fold w.
  rewrite (getUid_known w u σg Hokg Hug), Hig. simpl goog_dispose.
  destruct (dispose_spec i σg mnew Hmg eq_refl)
    as (_ & Hlisd & Hintd & _).
  pose proof (keeps_registry_dispose i σg) as Hkeep.
  pose proof (notifications_dispose i σg) as Hnotd.
  set (σd := dispose i σg) in *.
  simpl in Hlisd, Hintd.
  assert (Hlg : listeners_ σg = listeners_ σn) by (by rewrite Hσg).
  assert (Hig' : intervals σg = intervals σn) by (by rewrite Hσg).
  assert (Hng : notifications σg = notifications σn) by (by rewrite Hσg).
  assert (Hfresh_k : listeners_ σ1 !! nextListenerKey σ1 = None).
  { destruct (listeners_ σ1 !! nextListenerKey σ1) as [e |] eqn:He; [| done].
    pose proof (keys_below σ1 Hmok1 _ e He). lia. }
  assert (Hfresh_id : intervals σ1 !! nextInterval σ1 = None).
  { destruct (intervals σ1 !! nextInterval σ1) as [e |] eqn:He; [| done].
    pose proof (timers_below σ1 Hmok1 _ e He). lia. }
  simpl. repeat split.
  - rewrite (keeps_map _ _ Hkeep), Hσg. simpl.
    by rewrite delete_insert_eq, delete_id.
  - rewrite Hlisd, Hlg, Hlisn, delete_insert_eq, delete_id by done. exact Hlis1.
  - rewrite Hintd, Hig', Hintn. destruct polling.
    + rewrite delete_insert_eq, delete_id by done. exact Hint1.
    + exact Hint1.
  - unfold notifications in *. simpl trace.
    rewrite Hnotd, Hng, Hnotn. by rewrite Htr1.
Qed.

Lemma getInstance_then_remove_restores_witness :
  let σ' := removeInstanceForWindow polling_env None
              (snd (getInstanceForWindow polling_env None page)) in
  listeners_ σ' = listeners_ page /\ intervals σ' = intervals page.
Proof.
  intros σ'.
  assert (Hreach : reachable polling_env page)
    by (exists (mkSize 1024 768), []; reflexivity).
  destruct (getInstance_then_remove_restores polling_env None page Hreach
              eq_refl)
    as (_ & Hlis & Hint & _).
  split; [exact Hlis | exact Hint].
Defined.

(** ** Further properties: the shape of the trace *)

Lemma dispatches_follow_measurements_app (pre t : list Effect) :
  dispatches_follow_measurements pre = true ->
  dispatches_follow_measurements t = true ->
  dispatches_follow_measurements (pre ++ t) = true.
Proof.
  intros Hpre Ht. induction pre as [| e pre IH]; [done |].
  destruct e as [w | target type to | h target type seen | key src type h
                 | key | id h rate | id];
    try (simpl in *; by apply IH).
  simpl in Hpre. destruct type; try done.
  destruct pre as [| e' pre]; [done |].
  destruct e'; try done.
  change (dispatches_follow_measurements ((Measured w :: pre) ++ t) = true).
  by apply IH.
Qed.

Lemma dispatches_follow_measurements_handled
    (f : Subscriber -> option Size) (this : MonRef) (type : EventType)
    (l : list Subscriber) (t : list Effect) :
  dispatches_follow_measurements
    (map (fun h => Handled h this type (f h)) l ++ t)
  = dispatches_follow_measurements t.
Proof. induction l as [| h l IH]; [done | exact IH]. Qed.

Lemma dispatches_trace_check E this σ :
  dispatches_follow_measurements (trace σ) = true ->
  dispatches_follow_measurements (trace (checkForSizeChange E this σ)) = true.
Proof.
  intros H. unfold checkForSizeChange, getViewportSize, alloc_size.
  destruct (negb _); [| done].
  unfold dispatchEvent. cbn [trace with_trace].
  rewrite (dispatches_follow_measurements_handled (fun _ => _)).
  exact H.
Qed.

Lemma dispatches_trace_dispose this σ :
  dispatches_follow_measurements (trace σ) = true ->
  dispatches_follow_measurements (trace (dispose this σ)) = true.
Proof.
  intros H.
  destruct (monitors σ !! this) as [m |] eqn:Hm;
    [| by unfold dispose; rewrite Hm].
  destruct (disposed_ m) eqn:Hd; [by unfold dispose; rewrite Hm, Hd |].
  destruct (dispose_spec this σ m Hm Hd) as (_ & _ & _ & Htr & _).
  rewrite Htr, app_assoc.
  apply dispatches_follow_measurements_app; [| done].
  by destruct (windowSizePollInterval m), (listenerKey_ m).
Qed.

Lemma dispatches_trace_new E opt_window σ :
  dispatches_follow_measurements (trace σ) = true ->
  dispatches_follow_measurements
    (trace (snd (new_ViewportSizeMonitor E opt_window σ))) = true.
Proof.
  intros H.
  destruct (new_ViewportSizeMonitor_spec E opt_window σ)
    as (_ & _ & _ & _ & _ & Htr & _).
  rewrite Htr. by destruct (WEBKIT E && WINDOWS E || _).
Qed.

Lemma dispatches_trace_step E a σ :
  dispatches_follow_measurements (trace σ) = true ->
  dispatches_follow_measurements (trace (step E a σ)) = true.
Proof.
  intros H. destruct a; simpl.
  - unfold getInstanceForWindow.
    destruct (getUid_frame (default (global_window E) opt_window) σ)
      as (_ & _ & _ & _ & _ & _ & _ & _ & Htr1).
    destruct (getUid _ σ) as [u σ1]. simpl in Htr1.
    destruct (windowInstanceMap_ σ1 !! u) as [i |]; simpl.
    + by rewrite Htr1.
    + pose proof (dispatches_trace_new E
                    (Some (default (global_window E) opt_window)) σ1) as Hn.
      destruct (new_ViewportSizeMonitor E _ σ1) as [i σ2]. simpl in *.
      apply Hn. by rewrite Htr1.
  - unfold removeInstanceForWindow.
    destruct (getUid_frame (default (global_window E) opt_window) σ)
      as (_ & _ & _ & _ & _ & _ & _ & _ & Htr1).
    destruct (getUid _ σ) as [u σ1]. simpl in Htr1. simpl.
    destruct (windowInstanceMap_ σ1 !! u); simpl.
    + apply dispatches_trace_dispose. by rewrite Htr1.
    + by rewrite Htr1.
  - by apply dispatches_trace_new.
  - by apply dispatches_trace_dispose.
  - by apply dispatches_trace_check.
  - destruct (getSize_cases this σ) as [(_ & -> & _) | (r & x & _ & _ & _ & ->)];
      done.
  - done.
  - done.
  - done.
  - unfold deliver. destruct (listeners_ σ !! key) as [[[? ?] handler] |];
      [by apply dispatches_trace_check | done].
  - unfold tick. destruct (intervals σ !! id) as [[handler ?] |];
      [by apply dispatches_trace_check | done].
Qed.

Lemma dispatches_are_resize (t : list Effect) :
  dispatches_follow_measurements t = true ->
  Forall (fun e => exists target to, e = Dispatched target RESIZE to)
    (List.filter is_notification t).
Proof.
  induction t as [| e t IH]; intros H; [constructor |].
  destruct e as [w | target type to | h target type seen | key src type h
                 | key | id h rate | id];
    try (simpl in *; by apply IH).
  simpl in H. destruct type; try done.
  destruct t as [| e' t]; [done |]. destruct e'; try done.
  simpl. constructor; [by eauto |].
  apply (IH H).
Qed.

(** X20.  In every world a page can be in, the only events that were ever
    dispatched are [RESIZE] events, and each was dispatched right after a
    measurement of the viewport: nothing but a re-check sends a
    notification. *)
Theorem dispatches_only_after_measuring (E : Env) (σ : World) :
  reachable E σ ->
  dispatches_follow_measurements (trace σ) = true
  /\ Forall (fun e => exists target to, e = Dispatched target RESIZE to)
       (notifications σ).
Proof.
  intros (dims & acts & ->).
  assert (Hgen : forall σ0,
            dispatches_follow_measurements (trace σ0) = true ->
            dispatches_follow_measurements (trace (run E acts σ0)) = true).
  { induction acts as [| a acts IH]; intros σ0 H0; simpl; [done |].
    apply IH. by apply dispatches_trace_step. }
  assert (H : dispatches_follow_measurements
                (trace (run E acts (initial dims))) = true)
    by (by apply Hgen).
  split; [exact H | by apply dispatches_are_resize].
Qed.

Lemma dispatches_only_after_measuring_witness :
  dispatches_follow_measurements
    (trace (checkForSizeChange plain_env 0
              (host_resize 1%positive (mkSize 800 600)
                 (snd (getInstanceForWindow plain_env None page))))) = true.
Proof.
  apply (dispatches_only_after_measuring plain_env).
  exists (mkSize 1024 768),
    [GetInstanceForWindow None; HostResize 1%positive (mkSize 800 600);
     CheckForSizeChange 0].
  reflexivity.
Defined.

End MonitorProps.
